(** * The job orchestration engine of [src/job_manager.py]

    A shallow embedding of the [JobManager] class: its SQLite tables
    ([jobs], [runs]), the jobs directory with its staging area, the log
    tree, the per-job locks, the pending-update set and the trigger
    registrations held by the scheduler.  Every method that reads the
    clock, launches a subprocess or touches a file that may fail takes
    the environment's answer as an argument, so the methods are plain
    functions on the state.  A method that can leave by an exception
    returns the state it leaves together with the exception, if any. *)

From Stdlib Require Import ZArith Ascii.
From stdpp Require Import gmap strings list fin_maps sorting pretty.

Local Open Scope Z_scope.

(** ** Texts

    Python [str] values are kept as [string]; one [ascii] stands for one
    character, the one of that code point, so the texts are those whose
    characters lie below code point 256. *)

Module Text.

(** [s[:n]] *)
Definition take (n : nat) (s : string) : string := String.substring 0 n s.

(** [bool(s)]: a text is truthy when it is not empty. *)
Definition truthy (s : string) : bool :=
  match s with EmptyString => false | String _ _ => true end.

(** [a or b] on texts. *)
Definition or_else (a b : string) : string := if truthy a then a else b.

(** [s.startswith(p)] *)
Fixpoint startswith (p s : string) : bool :=
  match p, s with
  | EmptyString, _ => true
  | String _ _, EmptyString => false
  | String a p', String b s' => if Ascii.eqb a b then startswith p' s' else false
  end.

(** Bytewise order of two texts, the order SQLite's BINARY collation
    gives to [TEXT] values and Python's [sorted] gives to names. *)
Fixpoint ltb (a b : string) : bool :=
  match a, b with
  | _, EmptyString => false
  | EmptyString, String _ _ => true
  | String x a', String y b' =>
      if (N_of_ascii x <? N_of_ascii y)%N then true
      else if (N_of_ascii x =? N_of_ascii y)%N then ltb a' b'
      else false
  end.

Definition leb (a b : string) : bool := negb (ltb b a).

(** [sep.join(parts)] *)
Fixpoint join (sep : string) (parts : list string) : string :=
  match parts with
  | [] => ""
  | [p] => p
  | p :: rest => p +:+ sep +:+ join sep rest
  end.

(** [s.split(c)] for a one-character separator. *)
Fixpoint split_go (c : ascii) (cur : string) (s : string) : list string :=
  match s with
  | EmptyString => [String.rev cur]
  | String x s' =>
      if Ascii.eqb x c then String.rev cur :: split_go c "" s'
      else split_go c (String x cur) s'
  end.

Definition split (c : ascii) (s : string) : list string := split_go c "" s.

(** [ch * n] *)
Fixpoint repeat (c : ascii) (n : nat) : string :=
  match n with O => "" | S k => String c (repeat c k) end.

(** [c.isalnum()]: the ASCII digits and letters; above them the
    letters (170, 181, 186, 192-214, 216-246, 248-255) and the numeric
    characters (178, 179, 185, 188-190) of that range. *)
Definition isalnum (c : ascii) : bool :=
  let n := N_of_ascii c in
  ((48 <=? n) && (n <=? 57) || (65 <=? n) && (n <=? 90)
   || (97 <=? n) && (n <=? 122)
   || (n =? 170) || (178 <=? n) && (n <=? 179) || (n =? 181)
   || (185 <=? n) && (n <=? 186) || (188 <=? n) && (n <=? 190)
   || (192 <=? n) && (n <=? 214) || (216 <=? n) && (n <=? 246)
   || (248 <=? n))%N.

(** [c.isdigit()]: the ASCII digits and the superscripts 178, 179 and
    185; [c.isdecimal()]: the ASCII digits alone. *)
Definition isdigit_char (c : ascii) : bool :=
  let n := N_of_ascii c in
  ((48 <=? n) && (n <=? 57) || (178 <=? n) && (n <=? 179) || (n =? 185))%N.

Definition isdecimal_char (c : ascii) : bool :=
  let n := N_of_ascii c in ((48 <=? n) && (n <=? 57))%N.

(** ["".join(c for c in s if keep(c))] *)
Fixpoint filter (keep : ascii -> bool) (s : string) : string :=
  match s with
  | EmptyString => ""
  | String c s' => if keep c then String c (filter keep s') else filter keep s'
  end.

(** What reading in text mode makes of the content of a file: a
    carriage return, alone or before a line feed, becomes one line
    feed. *)
Definition cr : ascii := ascii_of_N 13.

Definition lf : ascii := ascii_of_N 10.

Fixpoint universal_newlines (s : string) : string :=
  match s with
  | EmptyString => ""
  | String c rest =>
      if Ascii.eqb c cr then
        String lf
          match rest with
          | EmptyString => ""
          | String c' rest' =>
              if Ascii.eqb c' lf then universal_newlines rest'
              else universal_newlines rest
          end
      else String c (universal_newlines rest)
  end.

End Text.

(** ** The clock

    [datetime.now()] yields a naive local [datetime]; the tables keep its
    [isoformat()] text. *)

Module Clock.

Record datetime := mk_datetime {
  year : Z; month : Z; day : Z;
  hour : Z; minute : Z; second : Z; microsecond : Z
}.

Definition datetime_ok (d : datetime) : Prop :=
  1 <= year d <= 9999 /\ 1 <= month d <= 12 /\ 1 <= day d <= 31 /\
  0 <= hour d <= 23 /\ 0 <= minute d <= 59 /\ 0 <= second d <= 59 /\
  0 <= microsecond d <= 999999.

Definition digit (n : Z) : ascii := ascii_of_N (48 + Z.to_N n).

(** Decimal rendering on [w] digits, padded with zeros. *)
Fixpoint pad (w : nat) (n : Z) : string :=
  match w with
  | O => ""
  | S k => pad k (n / 10) +:+ String (digit (n mod 10)) ""
  end.

(** [d.isoformat()]: the fraction is left out when it is zero. *)
Definition isoformat (d : datetime) : string :=
  pad 4 (year d) +:+ "-" +:+ pad 2 (month d) +:+ "-" +:+ pad 2 (day d) +:+ "T"
  +:+ pad 2 (hour d) +:+ ":" +:+ pad 2 (minute d) +:+ ":" +:+ pad 2 (second d)
  +:+ (if microsecond d =? 0 then "" else "." +:+ pad 6 (microsecond d)).

(** [d.strftime("%Y%m%d_%H%M%S")] *)
Definition strftime_compact (d : datetime) : string :=
  pad 4 (year d) +:+ pad 2 (month d) +:+ pad 2 (day d) +:+ "_"
  +:+ pad 2 (hour d) +:+ pad 2 (minute d) +:+ pad 2 (second d).

(** Order of two datetimes: field by field, as Python compares them. *)
Definition fields (d : datetime) : list Z :=
  [year d; month d; day d; hour d; minute d; second d; microsecond d].

Fixpoint lex_ltb (a b : list Z) : bool :=
  match a, b with
  | x :: a', y :: b' => if x <? y then true else if x =? y then lex_ltb a' b' else false
  | _, _ => false
  end.

Definition dt_ltb (a b : datetime) : bool := lex_ltb (fields a) (fields b).

(** Days of the proleptic Gregorian calendar since 1970-01-01. *)
Definition days_from_civil (y m d : Z) : Z :=
  let y' := if m <=? 2 then y - 1 else y in
  let era := y' / 400 in
  let yoe := y' - era * 400 in
  let mp := (m + 9) mod 12 in
  let doy := (153 * mp + 2) / 5 + d - 1 in
  let doe := yoe * 365 + yoe / 4 - yoe / 100 + doy in
  era * 146097 + doe - 719468.

Definition civil_from_days (z : Z) : Z * Z * Z :=
  let z' := z + 719468 in
  let era := z' / 146097 in
  let doe := z' - era * 146097 in
  let yoe := (doe - doe / 1460 + doe / 36524 - doe / 146096) / 365 in
  let doy := doe - (365 * yoe + yoe / 4 - yoe / 100) in
  let mp := (5 * doy + 2) / 153 in
  let d := doy - (153 * mp + 2) / 5 + 1 in
  let m := if mp <? 10 then mp + 3 else mp - 9 in
  let y := yoe + era * 400 in
  (if m <=? 2 then y + 1 else y, m, d).

(** Microseconds since 1970-01-01T00:00:00. *)
Definition to_micros (d : datetime) : Z :=
  (((days_from_civil (year d) (month d) (day d) * 24 + hour d) * 60
    + minute d) * 60 + second d) * 1000000 + microsecond d.

Definition of_micros (us : Z) : datetime :=
  let secs := us / 1000000 in
  let days := secs / 86400 in
  let sod := secs mod 86400 in
  let '(y, m, d) := civil_from_days days in
  mk_datetime y m d (sod / 3600) (sod mod 3600 / 60) (sod mod 60) (us mod 1000000).

(** [d - timedelta(days=n)] *)
Definition minus_days (d : datetime) (n : Z) : datetime :=
  of_micros (to_micros d - n * 86400 * 1000000).

(** [round((b - a).total_seconds(), 2)], kept in hundredths of a
    second; a tie goes to the even neighbour. *)
Definition duration_seconds (a b : datetime) : Z :=
  let us := to_micros b - to_micros a in
  let q := us / 10000 in
  let r := us mod 10000 in
  if r <? 5000 then q
  else if 5000 <? r then q + 1
  else if Z.even q then q else q + 1.

End Clock.

(** ** Paths

    A path is kept as [pathlib] keeps it: the list of its parts under the
    root.  The file system has no symbolic links, so [resolve()] is the
    lexical walk that drops a part at every [..]. *)

Module Path.

Definition is_absolute (s : string) : bool := Text.startswith "/" s.

(** The parts of a path text: empty parts and [.] are dropped. *)
Definition parts (s : string) : list string :=
  filter (fun p => p <> "" /\ p <> ".") (Text.split "/" s).

(** [base / s]: an absolute [s] replaces [base]. *)
Definition joinpath (base : list string) (s : string) : list string :=
  if is_absolute s then parts s else base ++ parts s.

Fixpoint resolve_go (seen : list string) (ps : list string) : list string :=
  match ps with
  | [] => rev seen
  | p :: rest =>
      if bool_decide (p = "..") then resolve_go (tail seen) rest
      else resolve_go (p :: seen) rest
  end.

(** [p.resolve()] of an absolute path. *)
Definition resolve (ps : list string) : list string := resolve_go [] ps.

(** [str(p)] of an absolute path. *)
Definition to_str (ps : list string) : string := "/" +:+ Text.join "/" ps.

(** [Path(s).name] *)
Definition name (s : string) : string := default "" (last (parts s)).

(** [p] lies in the directory [root] or is [root] itself (both resolved). *)
Definition inside (root p : list string) : Prop := root `prefix_of` p.

End Path.

(** ** Data model *)

(** A scalar of a manifest or of a trigger argument. *)
Inductive value := VInt (n : Z) | VStr (s : string).

#[global] Instance value_eq_dec : EqDecision value.
Proof. solve_decision. Defined.

(** What [yaml.safe_load] makes of a [job.yaml]: a mapping with the keys
    the manager reads, each of the type the manager expects; a key that
    is absent is [None].  [cfg_schedule] is the [schedule] mapping.  A
    document of another shape (a scalar, a list, an empty file) is not
    modelled. *)
Record manifest := mk_manifest {
  cfg_name : option string;
  cfg_description : option string;
  cfg_entry_point : option string;
  cfg_timeout : option Z;
  cfg_schedule : option (gmap string value)
}.

(** The content of a file: a text that is no YAML document ([Raw], for
    which [yaml.safe_load] raises), or the YAML mapping the file holds
    ([Yaml], which is also what [yaml.dump] writes). *)
Inductive fdata := Raw (s : string) | Yaml (c : manifest).

Record file := mk_file { st_mtime : Z; data : fdata }.

(** A task directory or a staged bundle: its files by relative name. *)
Abbreviation bundle := (gmap string file).

(** A row of table [jobs]; the key [id] is the key of the map holding it. *)
Record job := mk_job {
  j_task : string;
  j_name : string;
  j_description : string;
  j_schedule_type : value;
  j_schedule_config : gmap string value;
  j_entry_point : string;
  j_timeout : Z;
  j_enabled : bool;
  j_yaml_mtime : Z;
  j_created_at : string;
  j_updated_at : string
}.

(** A row of table [runs]. *)
Record run := mk_run {
  r_id : Z;
  r_job_id : string;
  r_status : string;
  r_started_at : string;
  r_finished_at : option string;
  r_duration_seconds : option Z;
  r_return_code : option Z;
  r_log_path : option string;
  r_error_message : option string
}.

(** A registration in the scheduler: the trigger kind and its keyword
    arguments ([max_instances=1], [coalesce=True] and the callback are
    the same for every job). *)
Inductive trigger_kind := Cron | Interval.

Record trigger := mk_trigger { t_kind : trigger_kind; t_kwargs : gmap string value }.

(** The exceptions that leave a method of the manager. *)
Inductive exn :=
| ValueError (msg : string)
| TypeError (msg : string)
| IsADirectoryError (path : string)
| OperationalError (msg : string).

(** The scheduler handed to the manager is APScheduler's, a library
    that is no part of the source.  Its [add_job] builds the trigger
    from the keyword arguments at once and raises when the trigger
    class refuses them; which arguments it refuses, and with what
    exception, is taken as a parameter. *)
Class Scheduler := add_job_raises : trigger -> option exn.

(** The state a [JobManager] works on. *)
Record manager := mk_manager {
  jobs_dir : list string;                 (* self.jobs_dir *)
  logs_dir : list string;                 (* self.logs_dir *)
  disk_jobs : gmap string bundle;         (* the task directories under jobs_dir *)
  disk_staging : gmap string bundle;      (* the bundles under jobs_dir/.staging *)
  disk_files : gmap (list string) string; (* every other file, by resolved path *)
  pending_updates : gset string;
  log_retention_days : Z;
  _job_locks : gmap string bool;          (* lock.locked() of every lock made so far *)
  jobs : gmap string job;
  runs : list run;
  runs_seq : Z;                           (* the last AUTOINCREMENT id handed out *)
  scheduler : gmap string trigger
}.

Definition set_disk_jobs (m : manager) (x : gmap string bundle) : manager :=
  mk_manager (jobs_dir m) (logs_dir m) x (disk_staging m) (disk_files m)
    (pending_updates m) (log_retention_days m) (_job_locks m) (jobs m) (runs m)
    (runs_seq m) (scheduler m).

Definition set_disk_staging (m : manager) (x : gmap string bundle) : manager :=
  mk_manager (jobs_dir m) (logs_dir m) (disk_jobs m) x (disk_files m)
    (pending_updates m) (log_retention_days m) (_job_locks m) (jobs m) (runs m)
    (runs_seq m) (scheduler m).

Definition set_disk_files (m : manager) (x : gmap (list string) string) : manager :=
  mk_manager (jobs_dir m) (logs_dir m) (disk_jobs m) (disk_staging m) x
    (pending_updates m) (log_retention_days m) (_job_locks m) (jobs m) (runs m)
    (runs_seq m) (scheduler m).

Definition set_pending_updates (m : manager) (x : gset string) : manager :=
  mk_manager (jobs_dir m) (logs_dir m) (disk_jobs m) (disk_staging m) (disk_files m)
    x (log_retention_days m) (_job_locks m) (jobs m) (runs m)
    (runs_seq m) (scheduler m).

Definition set_job_locks (m : manager) (x : gmap string bool) : manager :=
  mk_manager (jobs_dir m) (logs_dir m) (disk_jobs m) (disk_staging m) (disk_files m)
    (pending_updates m) (log_retention_days m) x (jobs m) (runs m)
    (runs_seq m) (scheduler m).

Definition set_jobs (m : manager) (x : gmap string job) : manager :=
  mk_manager (jobs_dir m) (logs_dir m) (disk_jobs m) (disk_staging m) (disk_files m)
    (pending_updates m) (log_retention_days m) (_job_locks m) x (runs m)
    (runs_seq m) (scheduler m).

Definition set_runs (m : manager) (x : list run) : manager :=
  mk_manager (jobs_dir m) (logs_dir m) (disk_jobs m) (disk_staging m) (disk_files m)
    (pending_updates m) (log_retention_days m) (_job_locks m) (jobs m) x
    (runs_seq m) (scheduler m).

Definition set_runs_seq (m : manager) (x : Z) : manager :=
  mk_manager (jobs_dir m) (logs_dir m) (disk_jobs m) (disk_staging m) (disk_files m)
    (pending_updates m) (log_retention_days m) (_job_locks m) (jobs m) (runs m)
    x (scheduler m).

Definition set_scheduler (m : manager) (x : gmap string trigger) : manager :=
  mk_manager (jobs_dir m) (logs_dir m) (disk_jobs m) (disk_staging m) (disk_files m)
    (pending_updates m) (log_retention_days m) (_job_locks m) (jobs m) (runs m)
    (runs_seq m) x.

(** ** Recovery *)

(** [_cleanup_stale_runs]: one UPDATE over the rows with
    [status='running']; it sets [status], [error_message] and
    [finished_at] and no other column. *)
Definition mark_stale (now : Clock.datetime) (r : run) : run :=
  if bool_decide (r_status r = "running") then
    mk_run (r_id r) (r_job_id r) "failed" (r_started_at r)
      (Some (Clock.isoformat now)) (r_duration_seconds r) (r_return_code r)
      (r_log_path r) (Some "System restarted while running")
  else r.

Definition _cleanup_stale_runs (m : manager) (now : Clock.datetime) : manager :=
  set_runs m (mark_stale now <$> runs m).

(** [__init__] on a process start: the tables (of the current schema)
    and the disk are what the previous process left, the memory of the
    process and the scheduler handed in are fresh. *)
Definition JobManager_init (m : manager) (now : Clock.datetime) : manager :=
  _cleanup_stale_runs
    (set_scheduler (set_job_locks (set_pending_updates m ∅) ∅) ∅) now.

(** ** Trigger scheduler *)

(** The keyword arguments of an interval trigger: [hours=1] is added
    when none of [seconds], [minutes] and [hours] is given. *)
Definition interval_kwargs (schedule_config : gmap string value) : gmap string value :=
  if bool_decide (schedule_config !! "seconds" = None)
     && bool_decide (schedule_config !! "minutes" = None)
     && bool_decide (schedule_config !! "hours" = None)
  then <["hours" := VInt 1]> schedule_config
  else schedule_config.

(** [scheduler.add_job(..., replace_existing=True, **trigger_kwargs)] *)
Definition add_job {aps : Scheduler} (m : manager) (job_id : string) (t : trigger)
    : manager * option exn :=
  match add_job_raises t with
  | Some e => (m, Some e)
  | None => (set_scheduler m (<[job_id := t]> (scheduler m)), None)
  end.

(** [_schedule_job]: the registration of [job_id] is removed first; a
    disabled job gets none back, and neither does a job whose trigger
    arguments [add_job] refuses: the exception leaves the method. *)
Definition _schedule_job {aps : Scheduler} (m : manager) (job_id : string)
    (schedule_type : value) (schedule_config : gmap string value) (enabled : bool)
    : manager * option exn :=
  let m := set_scheduler m (delete job_id (scheduler m)) in
  if negb enabled then (m, None)
  else if bool_decide (schedule_type = VStr "cron") then
    add_job m job_id (mk_trigger Cron schedule_config)
  else
    add_job m job_id (mk_trigger Interval (interval_kwargs schedule_config)).

(** The length in seconds of the period of an [IntervalTrigger] built
    from keyword arguments: APScheduler adds up [weeks], [days],
    [hours], [minutes] and [seconds], each 0 when absent. *)
Definition unit_of (kwargs : gmap string value) (unit : string) : Z :=
  match kwargs !! unit with Some (VInt n) => n | _ => 0 end.

Definition interval_period (kwargs : gmap string value) : Z :=
  unit_of kwargs "weeks" * 604800 + unit_of kwargs "days" * 86400
  + unit_of kwargs "hours" * 3600 + unit_of kwargs "minutes" * 60
  + unit_of kwargs "seconds".

(** ** Job registry *)

(** [_needs_update] *)
Definition _needs_update (m : manager) (job_id : string) (yaml_mtime : Z) : bool :=
  match jobs m !! job_id with
  | None => true
  | Some row => negb (j_yaml_mtime row =? yaml_mtime)
  end.

(** [register_job]; [task] and [yaml_mtime] are the [_task] and
    [_yaml_mtime] entries the scanner adds to [job_config].  For a job
    that is in the table the UPDATE is committed before the job is
    scheduled.  For a job that is not, the INSERT statement names 12
    columns and gives 13 values (12 placeholders and the literal [1]):
    SQLite refuses to prepare it, so [conn.execute] raises before
    anything is written and the job is not scheduled. *)
Definition register_job {aps : Scheduler} (m : manager) (job_id task : string)
    (yaml_mtime : Z) (job_config : manifest) (now : Clock.datetime)
    : manager * option exn :=
  let stamp := Clock.isoformat now in
  let schedule := default ∅ (cfg_schedule job_config) in
  let schedule_type := default (VStr "interval") (schedule !! "type") in
  let schedule_config := delete "type" schedule in
  let name := default task (cfg_name job_config) in
  let description := default "" (cfg_description job_config) in
  let entry_point := default "main.py" (cfg_entry_point job_config) in
  let timeout := default 3600 (cfg_timeout job_config) in
  match jobs m !! job_id with
  | Some existing =>
      let row := mk_job (j_task existing) name description schedule_type
                   schedule_config entry_point timeout (j_enabled existing)
                   yaml_mtime (j_created_at existing) stamp in
      _schedule_job (set_jobs m (<[job_id := row]> (jobs m)))
        job_id schedule_type schedule_config (j_enabled row)
  | None => (m, Some (OperationalError "13 values for 12 columns"))
  end.

(** [unregister_job]; the connection never turns foreign keys on, so
    the rows of [runs] that name the job stay. *)
Definition unregister_job (m : manager) (job_id : string) : manager :=
  set_jobs (set_scheduler m (delete job_id (scheduler m))) (delete job_id (jobs m)).

(** [_remove_stale_jobs]: the loop over the rows of [SELECT id FROM jobs]. *)
Definition stale_step (found_job_ids : gset string) (m : manager) (id : string)
    : manager :=
  if decide (id ∈ found_job_ids) then m else unregister_job m id.

Definition _remove_stale_jobs (m : manager) (found_job_ids : gset string) : manager :=
  foldl (stale_step found_job_ids) m (map_to_list (jobs m)).*1.

(** ** Manifest scanner *)

Definition is_hidden (name : string) : bool := Text.startswith "." name.

Definition name_le (a b : string) : Prop := Text.leb a b = true.

#[global] Instance name_le_dec : RelDecision name_le.
Proof. intros a b. unfold name_le. apply _. Defined.

(** [sorted(self.jobs_dir.iterdir())], the directories among them. *)
Definition task_dirs (m : manager) : list string :=
  merge_sort name_le (map_to_list (disk_jobs m)).*1.

(** One turn of the loop of [scan_jobs]: [found_job_ids], the manager
    and the exception that leaves the turn, if any.  [clock] tells what
    [datetime.now()] returns when the job of that name is registered.
    Only the parsing of the manifest is inside a [try]. *)
Definition scan_step {aps : Scheduler} (clock : string -> Clock.datetime)
    (found_job_ids : gset string) (m : manager) (task_dir : string)
    : gset string * manager * option exn :=
  if is_hidden task_dir then (found_job_ids, m, None)
  else
    match disk_jobs m !! task_dir ≫= (.!! "job.yaml") with
    | None => (found_job_ids, m, None)
    | Some job_yaml =>
        let found := {[task_dir]} ∪ found_job_ids in
        if negb (_needs_update m task_dir (st_mtime job_yaml)) then (found, m, None)
        else
          match data job_yaml with
          | Raw _ => (found, m, None)
          | Yaml job_config =>
              let '(m', raised) :=
                register_job m task_dir task_dir (st_mtime job_yaml)
                  job_config (clock task_dir) in
              (found, m', raised)
          end
    end.

(** The loop of [scan_jobs]: an exception leaves it at once. *)
Fixpoint scan_loop {aps : Scheduler} (clock : string -> Clock.datetime)
    (found_job_ids : gset string) (m : manager) (task_dirs : list string)
    : gset string * manager * option exn :=
  match task_dirs with
  | [] => (found_job_ids, m, None)
  | task_dir :: rest =>
      match scan_step clock found_job_ids m task_dir with
      | (found, m', Some e) => (found, m', Some e)
      | (found, m', None) => scan_loop clock found m' rest
      end
  end.

(** [scan_jobs]; the jobs directory itself exists, as [__init__] made
    it.  [_remove_stale_jobs] comes after the loop, so it is not reached
    when the loop is left by an exception. *)
Definition scan_jobs {aps : Scheduler} (m : manager) (clock : string -> Clock.datetime)
    : manager * option exn :=
  match scan_loop clock ∅ m (task_dirs m) with
  | (_, m', Some e) => (m', Some e)
  | (found_job_ids, m', None) => (_remove_stale_jobs m' found_job_ids, None)
  end.

(** [toggle_job]: the new state, [false] too when the job is unknown.
    The UPDATE is committed before the job is scheduled. *)
Definition toggle_job {aps : Scheduler} (m : manager) (job_id : string)
    (now : Clock.datetime) : manager * (exn + bool) :=
  match jobs m !! job_id with
  | None => (m, inr false)
  | Some row =>
      let new_state := negb (j_enabled row) in
      let row' := mk_job (j_task row) (j_name row) (j_description row)
                    (j_schedule_type row) (j_schedule_config row) (j_entry_point row)
                    (j_timeout row) new_state (j_yaml_mtime row) (j_created_at row)
                    (Clock.isoformat now) in
      match _schedule_job (set_jobs m (<[job_id := row']> (jobs m))) job_id
              (j_schedule_type row) (j_schedule_config row) new_state with
      | (m', Some e) => (m', inl e)
      | (m', None) => (m', inr new_state)
      end
  end.

(** ** Execution engine *)

(** What [subprocess.run] did: it returned, it raised [TimeoutExpired]
    (with the partial output, if any), or it raised something else. *)
Inductive proc_result :=
| Completed (returncode : Z) (stdout stderr : string)
| TimeoutExpired (stdout stderr : option string)
| OtherError (msg : string).

Definition nl : string := String (ascii_of_N 10) "".

(** [_get_job_lock]: the lock of a job is made on first use. *)
Definition _get_job_lock (m : manager) (job_id : string) : manager :=
  match _job_locks m !! job_id with
  | Some _ => m
  | None => set_job_locks m (<[job_id := false]> (_job_locks m))
  end.

(** [is_system_idle] *)
Definition is_system_idle (m : manager) : bool :=
  forallb (fun kv => negb kv.2) (map_to_list (_job_locks m)).

(** Where the log of a run that starts at [now] goes: the path relative
    to [logs_dir] kept in the row, and the file on disk. *)
Definition log_filename (now : Clock.datetime) : string :=
  Clock.strftime_compact now +:+ ".log".

Definition relative_log_path (row : job) (now : Clock.datetime) : string :=
  Text.join "/" (Path.parts (j_task row) ++ [log_filename now]).

Definition log_file (m : manager) (row : job) (now : Clock.datetime) : list string :=
  Path.resolve (Path.joinpath (logs_dir m) (j_task row) ++ [log_filename now]).

(** [_run_job], up to the INSERT of the [running] row. *)
Definition _run_job_insert (m : manager) (job_id : string) (row : job)
    (now : Clock.datetime) : manager * Z :=
  let run_id := runs_seq m + 1 in
  let r := mk_run run_id job_id "running" (Clock.isoformat now) None None None
             (Some (relative_log_path row now)) None in
  (set_runs_seq (set_runs m (runs m ++ [r])) run_id, run_id).

(** The three outcomes of the [try] block: status, return code, error
    message and the text written to the log file. *)
Definition section_of (title text : string) : string :=
  if Text.truthy text then title +:+ nl +:+ text +:+ nl else "".

Definition partial_of (title : string) (text : option string) : string :=
  match text with
  | Some t => if Text.truthy t then title +:+ nl +:+ t else ""
  | None => ""
  end.

Definition outcome (m : manager) (job_id : string) (row : job)
    (now : Clock.datetime) (result : proc_result)
    : string * option Z * option string * string :=
  let header := "=== Job: " +:+ job_id +:+ " ===" +:+ nl in
  let started := "Started: " +:+ Clock.isoformat now +:+ nl in
  match result with
  | Completed return_code stdout stderr =>
      let log :=
        header +:+ started
        +:+ "Command: uv run " +:+ j_entry_point row +:+ nl
        +:+ "Working dir: " +:+ Path.to_str (Path.joinpath (jobs_dir m) (j_task row)) +:+ nl
        +:+ "Return code: " +:+ pretty return_code +:+ nl
        +:+ Text.repeat "=" 40 +:+ nl +:+ nl
        +:+ section_of "--- STDOUT ---" stdout
        +:+ section_of "--- STDERR ---" stderr in
      if return_code =? 0 then ("success", Some return_code, None, log)
      else ("failed", Some return_code,
            Some (Text.take 500 (Text.or_else stderr (Text.or_else stdout ""))), log)
  | TimeoutExpired stdout stderr =>
      ("timeout", None,
       Some ("Timed out after " +:+ pretty (j_timeout row) +:+ " seconds"),
       header +:+ started
       +:+ "TIMEOUT after " +:+ pretty (j_timeout row) +:+ "s" +:+ nl
       +:+ partial_of "--- STDOUT (partial) ---" stdout
       +:+ partial_of "--- STDERR (partial) ---" stderr)
  | OtherError msg =>
      ("failed", None, Some (Text.take 500 msg),
       header +:+ "Error: " +:+ msg +:+ nl)
  end.

(** The UPDATE that finalizes the row [run_id]. *)
Definition finalize (run_id : Z) (status : string) (finished_at : string)
    (duration : Z) (return_code : option Z) (error_message : option string)
    (r : run) : run :=
  if r_id r =? run_id then
    mk_run (r_id r) (r_job_id r) status (r_started_at r) (Some finished_at)
      (Some duration) return_code (r_log_path r) error_message
  else r.

(** [_run_job], from the [try] block on; writing the log file does not
    fail here. *)
Definition _run_job_finish (m : manager) (job_id : string) (row : job) (run_id : Z)
    (now : Clock.datetime) (result : proc_result) (finished_at : Clock.datetime)
    : manager :=
  let '(status, return_code, error_message, log) := outcome m job_id row now result in
  let m1 := set_disk_files m (<[log_file m row now := log]> (disk_files m)) in
  set_runs m1
    (finalize run_id status (Clock.isoformat finished_at)
       (Clock.duration_seconds now finished_at) return_code error_message
     <$> runs m1).

(** [_run_job] *)
Definition _run_job (m : manager) (job_id : string) (now : Clock.datetime)
    (result : proc_result) (finished_at : Clock.datetime) : manager :=
  match jobs m !! job_id with
  | None => m
  | Some row =>
      if negb (j_enabled row) then m
      else
        let '(m1, run_id) := _run_job_insert m job_id row now in
        _run_job_finish m1 job_id row run_id now result finished_at
  end.

(** [execute_job]: nothing runs when the lock of the job is held. *)
Definition execute_job (m : manager) (job_id : string) (now : Clock.datetime)
    (result : proc_result) (finished_at : Clock.datetime) : manager :=
  let m0 := _get_job_lock m job_id in
  if bool_decide (_job_locks m0 !! job_id = Some true) then m0
  else
    let m1 := set_job_locks m0 (<[job_id := true]> (_job_locks m0)) in
    let m2 := _run_job m1 job_id now result finished_at in
    set_job_locks m2 (<[job_id := false]> (_job_locks m2)).

(** The state while the subprocess of [execute_job] runs: the lock of
    the job is held and the [running] row is in the table.  [None] when
    the call returns before it launches anything. *)
Definition execute_job_launched (m : manager) (job_id : string) (now : Clock.datetime)
    : option manager :=
  let m0 := _get_job_lock m job_id in
  if bool_decide (_job_locks m0 !! job_id = Some true) then None
  else
    let m1 := set_job_locks m0 (<[job_id := true]> (_job_locks m0)) in
    match jobs m1 !! job_id with
    | None => None
    | Some row =>
        if negb (j_enabled row) then None
        else Some (_run_job_insert m1 job_id row now).1
    end.

(** ** Run history and logs *)

(** [if x:] on an optional text argument. *)
Definition given (x : option string) : option string :=
  match x with
  | Some s => if Text.truthy s then Some s else None
  | None => None
  end.

Definition newer (a b : run) : Prop := r_id b <= r_id a.

#[global] Instance newer_dec : RelDecision newer.
Proof. intros a b. unfold newer. apply _. Defined.

(** The two optional conditions of the WHERE clause of [get_runs]. *)
Definition matches (x : option string) (s : string) : bool :=
  match given x with Some j => bool_decide (s = j) | None => true end.

Definition wanted (job_id status : option string) (r : run) : bool :=
  matches job_id (r_job_id r) && matches status (r_status r).

(** [get_runs]: every row comes with the [name] of its job, [None] when
    the LEFT JOIN finds no such job. *)
Definition get_runs (m : manager) (job_id status : option string) (limit : Z)
    : list (run * option string) :=
  let rows := merge_sort newer (filter (fun r => wanted job_id status r = true) (runs m)) in
  let rows := if limit <? 0 then rows else take (Z.to_nat limit) rows in
  (fun r => (r, j_name <$> jobs m !! r_job_id r)) <$> rows.

(** [get_log_content]; [read_text] reads in text mode. *)
Definition get_log_content (m : manager) (log_path : string) : option string :=
  let full_path := Path.resolve (Path.joinpath (logs_dir m) log_path) in
  if negb (Text.startswith (Path.to_str (Path.resolve (logs_dir m)))
             (Path.to_str full_path))
  then None
  else Text.universal_newlines <$> disk_files m !! full_path.

(** ** Retention *)

Definition cutoff (m : manager) (now : Clock.datetime) : Clock.datetime :=
  Clock.minus_days now (log_retention_days m).

Definition is_old (cutoff_str : string) (r : run) : bool :=
  Text.ltb (r_started_at r) cutoff_str.

(** The loop over [old_runs]: [unlink_fails] tells for which files
    [unlink()] raises; the exception is logged and the loop goes on. *)
Definition unlink_log (m : manager) (unlink_fails : list string -> bool)
    (files : gmap (list string) string) (r : run) : gmap (list string) string :=
  match given (r_log_path r) with
  | None => files
  | Some p =>
      let log_file := Path.resolve (Path.joinpath (logs_dir m) p) in
      match files !! log_file with
      | None => files
      | Some _ => if unlink_fails log_file then files else delete log_file files
      end
  end.

(** [cleanup_old_logs] *)
Definition cleanup_old_logs (m : manager) (now : Clock.datetime)
    (unlink_fails : list string -> bool) : manager :=
  let cutoff_str := Clock.isoformat (cutoff m now) in
  let old_runs := filter (fun r => is_old cutoff_str r = true) (runs m) in
  let files := foldl (unlink_log m unlink_fails) (disk_files m) old_runs in
  set_runs (set_disk_files m files)
    (filter (fun r => is_old cutoff_str r = false) (runs m)).

(** ** Staging and the idle-gated updater *)

(** An uploaded file: [file.filename] and what [file.save] writes. *)
Record upload := mk_upload { filename : string; payload : fdata }.

(** The basic sanitization of a task name. *)
Definition keep_char (c : ascii) : bool :=
  Text.isalnum c || Ascii.eqb c "-" || Ascii.eqb c "_".

Definition sanitize (task : string) : string := Text.filter keep_char task.

(** [bool(job_config)]: [None] and the empty mapping are falsy. *)
Definition config_given (job_config : option manifest) : option manifest :=
  match job_config with
  | Some c =>
      if bool_decide (is_Some (cfg_name c)) || bool_decide (is_Some (cfg_description c))
         || bool_decide (is_Some (cfg_entry_point c)) || bool_decide (is_Some (cfg_timeout c))
         || bool_decide (is_Some (cfg_schedule c))
      then Some c else None
  | None => None
  end.

(** The loop over [files]: [stamp] tells the modification time a file
    written under that name gets.  A name that [Path(...).name] turns
    into the bundle directory itself or its parent cannot be opened for
    writing; the exception leaves the loop. *)
Fixpoint save_files (staging_path : string) (stamp : string -> Z) (staged : bundle)
    (has_yaml : bool) (files : list upload) : bundle * bool * option exn :=
  match files with
  | [] => (staged, has_yaml, None)
  | f :: rest =>
      if negb (Text.truthy (filename f)) then
        save_files staging_path stamp staged has_yaml rest
      else
        let name := Path.name (filename f) in
        if bool_decide (name = "") || bool_decide (name = "..") then
          (staged, has_yaml, Some (IsADirectoryError (staging_path +:+ "/" +:+ name)))
        else
          save_files staging_path stamp
            (<[name := mk_file (stamp name) (payload f)]> staged)
            (has_yaml || bool_decide (name = "job.yaml")) rest
  end.

Definition exists_message (task : string) : string :=
  "Job with name '" +:+ task
  +:+ "' already exists. Please use a different name or edit the existing job.".

(** [save_job_files]: the state it leaves, and the identifier returned
    or the exception raised. *)
Definition save_job_files (m : manager) (task : string) (files : list upload)
    (job_config : option manifest) (stamp : string -> Z) : manager * (exn + string) :=
  let task := sanitize task in
  if negb (Text.truthy task) then (m, inl (ValueError "Invalid task name"))
  else if bool_decide (is_Some (disk_jobs m !! task))
          && negb (bool_decide (is_Some (disk_staging m !! task)))
  then (m, inl (ValueError (exists_message task)))
  else
    let staging_path :=
      Path.to_str (Path.joinpath (Path.joinpath (jobs_dir m) ".staging") task) in
    let '(staged, has_yaml, raised) := save_files staging_path stamp ∅ false files in
    match raised with
    | Some e => (set_disk_staging m (<[task := staged]> (disk_staging m)), inl e)
    | None =>
        let staged :=
          match config_given job_config with
          | Some c =>
              if has_yaml then staged
              else <["job.yaml" := mk_file (stamp "job.yaml") (Yaml c)]> staged
          | None => staged
          end in
        (set_pending_updates (set_disk_staging m (<[task := staged]> (disk_staging m)))
           ({[task]} ∪ pending_updates m),
         inr task)
    end.

(** A file-system error inside the [try] block of the promotion of one
    bundle: at [mkdir], in [copytree] after the files [copied] got
    through, or in [rmtree] after the files [removed] were deleted. *)
Inductive fs_fault :=
| MkdirFails
| CopytreeFails (copied : gset string)
| RmtreeFails (removed : gset string).

Definition only (keep : gset string) (b : bundle) : bundle :=
  filter (fun kv => kv.1 ∈ keep) b.

Definition without (gone : gset string) (b : bundle) : bundle :=
  filter (fun kv => kv.1 ∉ gone) b.

(** [copytree(src, dst, dirs_exist_ok=True)]: the files of [src] replace
    those of the same name, the other files of [dst] stay. *)
Definition copytree (src dst : bundle) : bundle := src ∪ dst.

(** One turn of the loop of [process_pending_updates]. *)
Definition promote (fault : string -> option fs_fault) (m : manager) (job_id : string)
    : manager :=
  match disk_staging m !! job_id with
  | None => set_pending_updates m (pending_updates m ∖ {[job_id]})
  | Some staged =>
      let dest := default ∅ (disk_jobs m !! job_id) in
      match fault job_id with
      | None =>
          set_pending_updates
            (set_disk_staging
               (set_disk_jobs m (<[job_id := copytree staged dest]> (disk_jobs m)))
               (delete job_id (disk_staging m)))
            (pending_updates m ∖ {[job_id]})
      | Some MkdirFails => m
      | Some (CopytreeFails copied) =>
          set_disk_jobs m (<[job_id := copytree (only copied staged) dest]> (disk_jobs m))
      | Some (RmtreeFails removed) =>
          set_disk_staging
            (set_disk_jobs m (<[job_id := copytree staged dest]> (disk_jobs m)))
            (<[job_id := without removed staged]> (disk_staging m))
      end
  end.

(** [process_pending_updates]: the scan at the end is outside any
    [try]. *)
Definition process_pending_updates {aps : Scheduler} (m : manager)
    (fault : string -> option fs_fault) (clock : string -> Clock.datetime)
    : manager * option exn :=
  if bool_decide (pending_updates m = ∅) then (m, None)
  else if negb (is_system_idle m) then (m, None)
  else scan_jobs (foldl (promote fault) m (elements (pending_updates m))) clock.

(** ** Queries of the dashboard *)

(** The WHERE clause of [get_failure_count]. *)
Definition is_recent_failure (cutoff_str : string) (r : run) : bool :=
  (bool_decide (r_status r = "failed") || bool_decide (r_status r = "timeout"))
  && Text.ltb cutoff_str (r_started_at r).

(** [get_failure_count]; [timedelta(hours=24)] is one day. *)
Definition get_failure_count (m : manager) (now : Clock.datetime) : nat :=
  length (filter (fun r => is_recent_failure (Clock.isoformat (Clock.minus_days now 1)) r = true)
            (runs m)).

(** [sum(1 for lock in self._job_locks.values() if lock.locked())] *)
Definition running_count (m : manager) : nat :=
  length (filter (fun kv : string * bool => kv.2 = true) (map_to_list (_job_locks m))).

(** [get_system_status]: status, running count, pending count. *)
Definition get_system_status (m : manager) : string * nat * nat :=
  let status :=
    if (0 <? running_count m)%nat then "running"
    else if bool_decide (pending_updates m = ∅) then "idle"
    else "updating" in
  (status, running_count m, size (pending_updates m)).

(** [t.strftime("%Y-%m-%d %H:%M:%S")] *)
Definition strftime_display (d : Clock.datetime) : string :=
  Clock.pad 4 (Clock.year d) +:+ "-" +:+ Clock.pad 2 (Clock.month d) +:+ "-"
  +:+ Clock.pad 2 (Clock.day d) +:+ " " +:+ Clock.pad 2 (Clock.hour d) +:+ ":"
  +:+ Clock.pad 2 (Clock.minute d) +:+ ":" +:+ Clock.pad 2 (Clock.second d).

(** An entry of [get_jobs]: the row with the three [last_*] keys and
    [next_run]. *)
Record job_summary := mk_job_summary {
  s_id : string;
  s_row : job;
  s_next_run : string;
  s_last_status : option string;
  s_last_run : option string;
  s_last_duration : option Z
}.

(** [SELECT ... FROM runs WHERE job_id = ? ORDER BY id DESC LIMIT 1] *)
Definition latest_run (m : manager) (job_id : string) : option run :=
  head (merge_sort newer (filter (fun r => r_job_id r = job_id) (runs m))).

Definition by_task (a b : string * job) : Prop := Text.leb (j_task a.2) (j_task b.2) = true.

#[global] Instance by_task_dec : RelDecision by_task.
Proof. intros a b. unfold by_task. apply _. Defined.

(** [get_jobs]; [next_run_time] tells what the scheduler reports as the
    next run time of a registered job, [None] when it has none. *)
Definition get_jobs (m : manager) (next_run_time : string -> option Clock.datetime)
    : list job_summary :=
  (fun kv : string * job =>
     let latest := latest_run m kv.1 in
     mk_job_summary kv.1 kv.2
       (match scheduler m !! kv.1 with
        | Some _ =>
            match next_run_time kv.1 with
            | Some t => strftime_display t
            | None => "-"
            end
        | None => "-"
        end)
       (r_status <$> latest) (r_started_at <$> latest) (latest ≫= r_duration_seconds))
  <$> merge_sort by_task (map_to_list (jobs m)).

(** ** Editing a manifest in place *)

(** [current_config.update(new_config)] on the keys the manager reads. *)
Definition override {A} (new cur : option A) : option A :=
  match new with Some x => Some x | None => cur end.

Definition manifest_update (cur new : manifest) : manifest :=
  mk_manifest (override (cfg_name new) (cfg_name cur))
    (override (cfg_description new) (cfg_description cur))
    (override (cfg_entry_point new) (cfg_entry_point cur))
    (override (cfg_timeout new) (cfg_timeout cur))
    (override (cfg_schedule new) (cfg_schedule cur)).

Definition empty_manifest : manifest := mk_manifest None None None None None.

(** What [update_job_config] reads as the current configuration: the
    empty mapping when there is no manifest or it does not parse. *)
Definition current_config (dir : bundle) : manifest :=
  match dir !! "job.yaml" with
  | Some f => match data f with Yaml c => c | Raw _ => empty_manifest end
  | None => empty_manifest
  end.

(** [update_job_config]: [task] is the name of a task directory, or of
    none; [stamp] is the modification time the rewritten manifest gets,
    and [write_fails] tells whether opening it for writing raises.  The
    rescan is inside the [try] too: when it raises, the manifest is
    written and the answer is [False]. *)
Definition update_job_config {aps : Scheduler} (m : manager) (task : string)
    (new_config : manifest) (stamp : Z) (write_fails : bool)
    (clock : string -> Clock.datetime) : manager * bool :=
  match disk_jobs m !! task with
  | None => (m, false)
  | Some dir =>
      if write_fails then (m, false)
      else
        let written :=
          mk_file stamp (Yaml (manifest_update (current_config dir) new_config)) in
        match
          scan_jobs
            (set_disk_jobs m (<[task := <["job.yaml" := written]> dir]> (disk_jobs m)))
            clock
        with
        | (m', Some _) => (m', false)
        | (m', None) => (m', true)
        end
  end.

(** ** The application ([app.py]) *)

(** [create_app], after the configuration is loaded: a fresh scheduler,
    the manager, the three system jobs, and the first scan, which is
    outside any [try].  The state handed in is what the previous process
    left.  The intervals of the system jobs are whole numbers of seconds
    and hours, which the interval trigger takes. *)
Definition system_jobs (scan_interval cleanup_hours : Z) (sched : gmap string trigger)
    : gmap string trigger :=
  <["_system_update" := mk_trigger Interval (<["seconds" := VInt 5]> ∅)]>
    (<["_system_cleanup" := mk_trigger Interval (<["hours" := VInt cleanup_hours]> ∅)]>
       (<["_system_scan" := mk_trigger Interval (<["seconds" := VInt scan_interval]> ∅)]>
          sched)).

Definition create_app {aps : Scheduler} (m : manager) (scan_interval cleanup_hours : Z)
    (now : Clock.datetime) (clock : string -> Clock.datetime) : manager * option exn :=
  let m1 := JobManager_init m now in
  scan_jobs (set_scheduler m1 (system_jobs scan_interval cleanup_hours (scheduler m1)))
    clock.

(** Every character of [s] passes [keep]. *)
Fixpoint all_chars (keep : ascii -> bool) (s : string) : bool :=
  match s with
  | EmptyString => true
  | String x s' => keep x && all_chars keep s'
  end.

(** [val.isdigit()]: not empty, and digits only. *)
Definition isdigit (s : string) : bool :=
  Text.truthy s && all_chars Text.isdigit_char s.

Fixpoint int_go (acc : Z) (s : string) : Z :=
  match s with
  | EmptyString => acc
  | String c s' => int_go (acc * 10 + (Z.of_N (N_of_ascii c) - 48)) s'
  end.

(** [int(val)] for a text of digits: a superscript digit is no decimal
    digit, and [int] raises on it. *)
Definition int_of (s : string) : exn + Z :=
  if all_chars Text.isdecimal_char s then inr (int_go 0 s)
  else inl (ValueError ("invalid literal for int() with base 10: '" +:+ s +:+ "'")).

(** The two loops of [api_upload_job] over the units of a schedule. *)
Fixpoint read_interval (form : gmap string string) (schedule : gmap string value)
    (units : list string) : exn + gmap string value :=
  match units with
  | [] => inr schedule
  | unit :: rest =>
      match form !! ("schedule_" +:+ unit) with
      | Some val =>
          if isdigit val then
            match int_of val with
            | inl e => inl e
            | inr n => read_interval form (<[unit := VInt n]> schedule) rest
            end
          else read_interval form schedule rest
      | None => read_interval form schedule rest
      end
  end.

Definition cron_unit (form : gmap string string) (schedule : gmap string value)
    (unit : string) : gmap string value :=
  match given (form !! ("schedule_" +:+ unit)) with
  | Some val => <[unit := VStr val]> schedule
  | None => schedule
  end.

(** The job configuration that [api_upload_job] builds from the form,
    or the exception of [int]. *)
Definition form_config (form : gmap string string) (task : string)
    : exn + option manifest :=
  match given (form !! "schedule_type") with
  | None => inr None
  | Some schedule_type =>
      let job_config schedule :=
        mk_manifest (Some (default task (form !! "job_name")))
          (Some (default "" (form !! "description")))
          (Some (default "main.py" (form !! "entry_point")))
          None (Some schedule) in
      let schedule : gmap string value := <["type" := VStr schedule_type]> ∅ in
      if bool_decide (schedule_type = "interval") then
        match read_interval form schedule ["seconds"; "minutes"; "hours"; "days"] with
        | inl e => inl e
        | inr schedule => inr (Some (job_config schedule))
        end
      else if bool_decide (schedule_type = "cron") then
        inr (Some (job_config
                     (foldl (cron_unit form) schedule
                        ["minute"; "hour"; "day"; "month"; "day_of_week"])))
      else inr (Some (job_config schedule))
  end.

(** [str(e)] of the exceptions [save_job_files] raises. *)
Definition exn_message (e : exn) : string :=
  match e with
  | ValueError msg => msg
  | TypeError msg => msg
  | IsADirectoryError path => "[Errno 21] Is a directory: '" +:+ path +:+ "'"
  | OperationalError msg => msg
  end.

(** [api_upload_job]: the state, and the status code with the job id or
    the error message of the JSON answer, or the exception that leaves
    the view: the configuration is built before the [try]. *)
Definition api_upload_job (m : manager) (form : gmap string string) (files : list upload)
    (stamp : string -> Z) : manager * (exn + Z * string) :=
  match given (form !! "task") with
  | None => (m, inr (400, "Task name required"))
  | Some task =>
      match files with
      | [] => (m, inr (400, "No files uploaded"))
      | _ =>
          match form_config form task with
          | inl e => (m, inl e)
          | inr job_config =>
              match save_job_files m task files job_config stamp with
              | (m', inr job_id) => (m', inr (200, job_id))
              | (m', inl e) => (m', inr (500, exn_message e))
              end
          end
      end
  end.

(** ** Notions the statements use *)

(** The scanner sees the manifest of task directory [id]: the directory
    is not hidden and holds a [job.yaml]. *)
Definition manifest_seen (m : manager) (id : string) : option file :=
  if is_hidden id then None else disk_jobs m !! id ≫= (.!! "job.yaml").

(** The three terminal states of a run. *)
Definition terminal (r : run) : Prop :=
  r_status r = "success" \/ r_status r = "failed" \/ r_status r = "timeout".

(** One turn of the scanner's loop, on the manager alone. *)
Definition scan_one {aps : Scheduler} (clock : string -> Clock.datetime) (m : manager)
    (task_dir : string) : manager * option exn :=
  let '(_, m', raised) := scan_step clock ∅ m task_dir in (m', raised).

(** A scheduler for the concrete runs: its triggers refuse a keyword
    argument that their constructors do not have, as Python does for
    any call, and take every other argument. *)
Definition trigger_params (kind : trigger_kind) : list string :=
  match kind with
  | Cron =>
      ["year"; "month"; "day"; "week"; "day_of_week"; "hour"; "minute"; "second";
       "start_date"; "end_date"; "timezone"; "jitter"]
  | Interval =>
      ["weeks"; "days"; "hours"; "minutes"; "seconds";
       "start_date"; "end_date"; "timezone"; "jitter"]
  end.

Definition by_signature : Scheduler := fun t =>
  match filter (fun k => k ∉ trigger_params (t_kind t)) (map_to_list (t_kwargs t)).*1 with
  | [] => None
  | k :: _ => Some (TypeError ("got an unexpected keyword argument '" +:+ k +:+ "'"))
  end.

(** ** A small installation, for concrete runs of the definitions

    Two registered jobs: [report], whose directory and manifest are on
    disk, and [legacy], whose directory is gone; [legacy] has one
    finished run. *)

Definition at_noon : Clock.datetime := Clock.mk_datetime 2026 3 1 12 0 0 0.

Definition clock_noon : string -> Clock.datetime := fun _ => at_noon.

Definition report_manifest : manifest :=
  mk_manifest (Some "Nightly report") None None (Some 600)
    (Some (<["type" := VStr "interval"]> (<["minutes" := VInt 30]> ∅))).

Definition report_dir : bundle :=
  <["job.yaml" := mk_file 1700000000 (Yaml report_manifest)]>
    (<["main.py" := mk_file 1690000000 (Raw "print('report')")]> ∅).

Definition report_row : job :=
  mk_job "report" "Nightly report" "" (VStr "interval") (<["minutes" := VInt 30]> ∅)
    "main.py" 600 true 1700000000 "2026-01-05T08:00:00" "2026-01-05T08:00:00".

Definition legacy_row : job :=
  mk_job "legacy" "legacy" "" (VStr "cron") (<["hour" := VStr "*/2"]> ∅)
    "main.py" 3600 true 1600000000 "2025-06-01T09:30:00" "2025-06-01T09:30:00".

Definition legacy_run : run :=
  mk_run 1 "legacy" "success" "2026-02-27T02:00:00" (Some "2026-02-27T02:00:04.250000")
    (Some 425) (Some 0) (Some "legacy/20260227_020000.log") None.

Definition site : manager :=
  mk_manager ["srv"; "app"; "jobs"] ["srv"; "app"; "logs"]
    (<["report" := report_dir]> ∅) ∅
    (<[["srv"; "app"; "logs"; "legacy"; "20260227_020000.log"] := "=== Job: legacy ==="]> ∅)
    ∅ 30 ∅
    (<["report" := report_row]> (<["legacy" := legacy_row]> ∅))
    [legacy_run] 1
    (<["report" := mk_trigger Interval (<["minutes" := VInt 30]> ∅)]>
       (<["legacy" := mk_trigger Cron (<["hour" := VStr "*/2"]> ∅)]> ∅)).

(** An upload of a new task [etl], and the installation after the
    updater promoted it while [rmtree] of the staged bundle failed. *)
Definition etl_upload : list upload :=
  [mk_upload "main.py" (Raw "print('etl')");
   mk_upload "job.yaml" (Yaml (mk_manifest (Some "ETL") None None None None))].

Definition stamp_noon : string -> Z := fun _ => 1772366400.

Definition site_staged : manager :=
  (save_job_files site "etl" etl_upload None stamp_noon).1.

Definition rmtree_fault : string -> option fs_fault :=
  fun _ => Some (RmtreeFails ∅).

Definition site_half_promoted : manager :=
  (process_pending_updates (aps := by_signature) site_staged rmtree_fault clock_noon).1.

(** ** The life of an installation

    One step is a call of a method of the manager, a change of the jobs
    directory made by the operator, the launch of a subprocess (the
    state while it runs), the end of a launched run, or a start of the
    process on the tables and the disk that the previous process left,
    whether it stopped cleanly or not. *)
Inductive step {aps : Scheduler} : manager -> manager -> Prop :=
| step_scan m clock : step m (scan_jobs m clock).1
| step_toggle m id now : step m (toggle_job m id now).1
| step_execute m id now result finished_at :
    step m (execute_job m id now result finished_at)
| step_launch m id now m' :
    execute_job_launched m id now = Some m' -> step m m'
| step_finish m id row run_id now result finished_at :
    let m' := _run_job_finish m id row run_id now result finished_at in
    step m (set_job_locks m' (<[id := false]> (_job_locks m')))
| step_start m now : step m (JobManager_init m now)
| step_cleanup m now unlink_fails : step m (cleanup_old_logs m now unlink_fails)
| step_save m task files job_config stamp :
    step m (save_job_files m task files job_config stamp).1
| step_update m fault clock : step m (process_pending_updates m fault clock).1
| step_disk m tree : step m (set_disk_jobs m tree).

(** What holds of every terminal run: the finish timestamp is there, and
    so is the duration unless recovery at a process start closed the
    run. *)
Definition run_closed (r : run) : Prop :=
  terminal r ->
  is_Some (r_finished_at r) /\
  (is_Some (r_duration_seconds r)
   \/ r_error_message r = Some "System restarted while running").

(** [report] is launched at noon, the process dies, and the next one
    starts an hour later. *)
Definition at_one : Clock.datetime := Clock.mk_datetime 2026 3 1 13 0 0 0.

Definition site_launched : manager :=
  default site (execute_job_launched site "report" at_noon).

Definition site_restarted : manager := JobManager_init site_launched at_one.

(** The installation before any run was made. *)
Definition site_new : manager := set_runs_seq (set_runs site []) 0.

(** A manifest that asks for a run every day, as the upload form writes
    it when only the [days] field is filled in. *)
Definition daily_manifest : manifest :=
  mk_manifest (Some "Daily export") (Some "") (Some "main.py") None
    (Some (<["type" := VStr "interval"]> (<["days" := VInt 1]> ∅))).

(** The installation with a directory next to the logs root whose name
    starts with the name of the logs root. *)
Definition site_with_archive : manager :=
  set_disk_files site
    (<[["srv"; "app"; "logs-archive"; "keys.txt"] := "secret"]> (disk_files site)).

(** The log file that retention cleanup looks for on behalf of a run. *)
Definition log_target (m : manager) (r : run) : option (list string) :=
  (fun p => Path.resolve (Path.joinpath (logs_dir m) p)) <$> given (r_log_path r).

(** Thirty days after the start of the run of [legacy], to the second,
    and a day later. *)
Definition at_boundary : Clock.datetime := Clock.mk_datetime 2026 3 29 2 0 0 0.

Definition past_boundary : Clock.datetime := Clock.mk_datetime 2026 3 30 2 0 0 0.

(** ** Further notions the statements use *)

(** The trigger that the stored schedule of a job describes. *)
Definition trigger_of (row : job) : trigger :=
  if bool_decide (j_schedule_type row = VStr "cron")
  then mk_trigger Cron (j_schedule_config row)
  else mk_trigger Interval (interval_kwargs (j_schedule_config row)).

(** Every registration in the scheduler belongs to a job of the table
    that is enabled, and is the trigger its stored schedule describes. *)
Definition triggers_sound (m : manager) : Prop :=
  forall id t, scheduler m !! id = Some t ->
    exists row, jobs m !! id = Some row /\ j_enabled row = true /\ t = trigger_of row.

(** The identifiers of [runs] grow along the table and none is beyond
    the AUTOINCREMENT counter. *)
Definition run_ids_ok (m : manager) : Prop :=
  StronglySorted Z.lt (r_id <$> runs m) /\ Forall (fun r => r_id r <= runs_seq m) (runs m).

(** The installation as a process start finds it: nothing registered in
    the scheduler. *)
Definition site_stopped : manager := set_scheduler site ∅.

(** The identifiers of the three system jobs. *)
Definition system_ids : list string := ["_system_scan"; "_system_cleanup"; "_system_update"].

(** A new task directory [daily] next to [report]. *)
Definition site_with_daily : manager :=
  set_disk_jobs site
    (<["daily" := <["job.yaml" := mk_file 1772000000 (Yaml daily_manifest)]> ∅]>
       (disk_jobs site)).

(** The manifest of [report] edited to an interval schedule with the
    argument [minute], which an interval trigger does not have. *)
Definition minute_manifest : manifest :=
  mk_manifest (Some "Nightly report") None None (Some 600)
    (Some (<["type" := VStr "interval"]> (<["minute" := VInt 5]> ∅))).

Definition site_refused_schedule : manager :=
  set_disk_jobs site
    (<["report" := <["job.yaml" := mk_file 1772000000 (Yaml minute_manifest)]> report_dir]> ∅).

(** The manifest of [report] replaced by a text that is no YAML. *)
Definition site_broken_manifest : manager :=
  set_disk_jobs site
    (<["report" := <["job.yaml" := mk_file 1772000000 (Raw "name: [")]> report_dir]> ∅).

(** The results of a subprocess that [_run_job] records as [failed] or
    [timeout]. *)
Definition ends_badly (result : proc_result) : bool :=
  match result with
  | Completed returncode _ _ => negb (returncode =? 0)
  | TimeoutExpired _ _ => true
  | OtherError _ => true
  end.

(** [c in s] *)
Fixpoint has_char (c : ascii) (s : string) : bool :=
  match s with
  | EmptyString => false
  | String x s' => Ascii.eqb x c || has_char c s'
  end.

(** A name a directory entry can have: not empty, not [.] or [..], and
    without a slash. *)
Definition plain_name (s : string) : Prop :=
  s <> "" /\ s <> "." /\ s <> ".." /\ has_char "/" s = false.









(** * Properties *)

#[local] Arguments scan_step : simpl never.
#[local] Arguments scan_loop : simpl never.

(** ** The definitions on concrete inputs *)

Example isoformat_whole_second :
  Clock.isoformat (Clock.mk_datetime 2026 11 3 10 32 0 0) = "2026-11-03T10:32:00".
Proof. reflexivity. Qed.

Example isoformat_fraction :
  Clock.isoformat (Clock.mk_datetime 2026 11 3 10 32 0 1500)
  = "2026-11-03T10:32:00.001500".
Proof. reflexivity. Qed.

Example strftime_compact_noon : Clock.strftime_compact at_noon = "20260301_120000".
Proof. reflexivity. Qed.

Example minus_days_over_leap_february :
  Clock.minus_days (Clock.mk_datetime 2024 3 15 8 0 0 0) 30
  = Clock.mk_datetime 2024 2 14 8 0 0 0.
Proof. reflexivity. Qed.

Example cutoff_of_boundary :
  Clock.isoformat (cutoff site at_boundary) = "2026-02-27T02:00:00".
Proof. reflexivity. Qed.

Example duration_of_four_seconds :
  Clock.duration_seconds (Clock.mk_datetime 2026 2 27 2 0 0 0)
    (Clock.mk_datetime 2026 2 27 2 0 4 250000) = 425.
Proof. reflexivity. Qed.

Example parts_drop_dots : Path.parts "a//b/./c/" = ["a"; "b"; "c"].
Proof. reflexivity. Qed.

Example resolve_walks_up :
  Path.resolve (Path.joinpath ["srv"; "app"; "logs"] "../../etc/passwd")
  = ["srv"; "etc"; "passwd"].
Proof. reflexivity. Qed.

Example resolve_stops_at_root : Path.resolve ["srv"; ".."; ".."; "etc"] = ["etc"].
Proof. reflexivity. Qed.

Example name_of_upload : Path.name "../../x/job.yaml" = "job.yaml".
Proof. reflexivity. Qed.

Example sanitize_strips : sanitize "../my job_1-a!" = "myjob_1-a".
Proof. reflexivity. Qed.

Example log_of_report :
  relative_log_path report_row at_noon = "report/20260301_120000.log" /\
  log_file site report_row at_noon
  = ["srv"; "app"; "logs"; "report"; "20260301_120000.log"].
Proof. split; reflexivity. Qed.

Example upload_is_staged :
  elements (pending_updates site_staged) = ["etl"] /\
  disk_staging site_staged !! "etl" ≫= (.!! "main.py")
  = Some (mk_file 1772366400 (Raw "print('etl')")) /\
  disk_jobs site_staged = disk_jobs site.
Proof. split; [|split]; vm_compute; reflexivity. Qed.

Example half_promoted_is_live_and_staged :
  is_Some (disk_jobs site_half_promoted !! "etl") /\
  is_Some (disk_staging site_half_promoted !! "etl") /\
  elements (pending_updates site_half_promoted) = ["etl"] /\
  jobs site_half_promoted !! "etl" = None.
Proof.
  split; [|split; [|split]]; refine (bool_decide_unpack _ _); vm_compute; exact I.
Qed.

Example by_signature_takes_minutes :
  by_signature (mk_trigger Interval (<["minutes" := VInt 30]> ∅)) = None.
Proof. reflexivity. Qed.

Example by_signature_refuses_minute :
  by_signature (mk_trigger Interval (<["minute" := VInt 5]> (<["hours" := VInt 1]> ∅)))
  = Some (TypeError "got an unexpected keyword argument 'minute'").
Proof. reflexivity. Qed.

Example newlines_of_text_mode :
  Text.universal_newlines
    ("a" +:+ String Text.cr (String Text.cr (String Text.lf "b")))
  = "a" +:+ String Text.lf (String Text.lf "b").
Proof. reflexivity. Qed.


Example isdigit_takes_superscript :
  isdigit (String (ascii_of_N 178) "") = true /\ isdigit "15" = true /\
  isdigit "" = false /\ isdigit "1.5" = false.
Proof. by vm_compute. Qed.

Example int_of_leading_zeros : int_of "007" = inr 7.
Proof. reflexivity. Qed.

Example upload_with_superscript_raises :
  api_upload_job site
    (<["task" := "etl"]>
       (<["schedule_type" := "interval"]>
          (<["schedule_minutes" := String (ascii_of_N 178) ""]> ∅)))
    [mk_upload "main.py" (Raw "print('etl')")] stamp_noon
  = (site, inl (ValueError ("invalid literal for int() with base 10: '"
                            +:+ String (ascii_of_N 178) "'"))).
Proof. by vm_compute. Qed.
(** ** Frames of the registry operations *)

Section Frames.

Context {aps : Scheduler}.
Implicit Types (m : manager) (id job_id : string).

(** The trigger that [_schedule_job] hands to [add_job]. *)
Lemma schedule_job_eq m id st sc en :
  _schedule_job m id st sc en
  = let removed := set_scheduler m (delete id (scheduler m)) in
    let t := if bool_decide (st = VStr "cron") then mk_trigger Cron sc
             else mk_trigger Interval (interval_kwargs sc) in
    if en then
      match add_job_raises t with
      | Some e => (removed, Some e)
      | None => (set_scheduler m (<[id := t]> (delete id (scheduler m))), None)
      end
    else (removed, None).
Proof.
  unfold _schedule_job, add_job. destruct en; simpl; [|done].
  case_bool_decide; by destruct (add_job_raises _).
Qed.

Lemma schedule_job_frame m id st sc en :
  let m' := (_schedule_job m id st sc en).1 in
  jobs m' = jobs m /\ runs m' = runs m /\ runs_seq m' = runs_seq m /\
  disk_jobs m' = disk_jobs m /\ disk_staging m' = disk_staging m /\
  disk_files m' = disk_files m /\ pending_updates m' = pending_updates m /\
  _job_locks m' = _job_locks m /\ jobs_dir m' = jobs_dir m /\
  logs_dir m' = logs_dir m /\ log_retention_days m' = log_retention_days m.
Proof.
  rewrite schedule_job_eq. cbv zeta. destruct en; [|done].
  by destruct (add_job_raises _).
Qed.

Lemma schedule_job_jobs m id st sc en :
  jobs (_schedule_job m id st sc en).1 = jobs m.
Proof. by destruct (schedule_job_frame m id st sc en) as (-> & _). Qed.

Lemma schedule_job_other m id st sc en id' :
  id <> id' -> scheduler (_schedule_job m id st sc en).1 !! id' = scheduler m !! id'.
Proof.
  intros Hne. rewrite schedule_job_eq. cbv zeta. destruct en.
  - destruct (add_job_raises _); simpl;
      rewrite ?lookup_insert_ne, ?lookup_delete_ne; done.
  - simpl. by rewrite lookup_delete_ne.
Qed.

Lemma schedule_job_disabled m id st sc :
  scheduler (_schedule_job m id st sc false).1 !! id = None /\
  (_schedule_job m id st sc false).2 = None.
Proof. rewrite schedule_job_eq. simpl. split; [apply lookup_delete_eq|done]. Qed.

(** After [_schedule_job] an enabled job has the trigger of its
    schedule when [add_job] took it, and none when [add_job] raised. *)
Lemma schedule_job_enabled m id st sc :
  let t := if bool_decide (st = VStr "cron") then mk_trigger Cron sc
           else mk_trigger Interval (interval_kwargs sc) in
  (_schedule_job m id st sc true).2 = add_job_raises t /\
  scheduler (_schedule_job m id st sc true).1 !! id
  = match add_job_raises t with Some _ => None | None => Some t end.
Proof.
  rewrite schedule_job_eq. cbv zeta. destruct (add_job_raises _); simpl.
  - split; [done|apply lookup_delete_eq].
  - split; [done|apply lookup_insert_eq].
Qed.

Lemma register_job_new m id task mt cfg now :
  jobs m !! id = None ->
  register_job m id task mt cfg now
  = (m, Some (OperationalError "13 values for 12 columns")).
Proof. intros Hnew. unfold register_job. by rewrite Hnew. Qed.

Lemma register_job_frame m id task mt cfg now :
  let m' := (register_job m id task mt cfg now).1 in
  runs m' = runs m /\ runs_seq m' = runs_seq m /\
  disk_jobs m' = disk_jobs m /\ disk_staging m' = disk_staging m /\
  disk_files m' = disk_files m /\ pending_updates m' = pending_updates m /\
  _job_locks m' = _job_locks m /\ jobs_dir m' = jobs_dir m /\
  logs_dir m' = logs_dir m /\ log_retention_days m' = log_retention_days m.
Proof.
  unfold register_job. cbv zeta.
  destruct (jobs m !! id); [|done].
  match goal with |- context [_schedule_job ?a ?b ?c ?d ?e] =>
    destruct (schedule_job_frame a b c d e)
      as (_ & -> & -> & -> & -> & -> & -> & -> & -> & -> & ->)
  end; done.
Qed.

Lemma register_job_other m id task mt cfg now id' :
  id <> id' ->
  jobs (register_job m id task mt cfg now).1 !! id' = jobs m !! id' /\
  scheduler (register_job m id task mt cfg now).1 !! id' = scheduler m !! id'.
Proof.
  intros Hne. unfold register_job. cbv zeta.
  destruct (jobs m !! id); [|done].
  match goal with |- context [_schedule_job ?a ?b ?c ?d ?e] =>
    destruct (schedule_job_frame a b c d e) as (-> & _);
    rewrite (schedule_job_other a b c d e id' Hne)
  end; simpl; by rewrite lookup_insert_ne.
Qed.

(** The row that [register_job] leaves of a job that was in the table:
    it is written whether or not scheduling raises afterwards. *)
Lemma register_job_known m id task mt cfg now old :
  jobs m !! id = Some old ->
  let row := mk_job (j_task old) (default task (cfg_name cfg))
               (default "" (cfg_description cfg))
               (default (VStr "interval") (default ∅ (cfg_schedule cfg) !! "type"))
               (delete "type" (default ∅ (cfg_schedule cfg)))
               (default "main.py" (cfg_entry_point cfg)) (default 3600 (cfg_timeout cfg))
               (j_enabled old) mt (j_created_at old) (Clock.isoformat now) in
  let t := if bool_decide (j_schedule_type row = VStr "cron")
           then mk_trigger Cron (j_schedule_config row)
           else mk_trigger Interval (interval_kwargs (j_schedule_config row)) in
  jobs (register_job m id task mt cfg now).1 !! id = Some row /\
  (register_job m id task mt cfg now).2
  = (if j_enabled old then add_job_raises t else None) /\
  scheduler (register_job m id task mt cfg now).1 !! id
  = (if j_enabled old
     then match add_job_raises t with Some _ => None | None => Some t end
     else None).
Proof.
  intros Hold row t. unfold register_job. cbv zeta. rewrite Hold.
  rewrite schedule_job_jobs. cbn [jobs set_jobs j_enabled].
  rewrite lookup_insert_eq. split; [done|].
  destruct (j_enabled old).
  - apply schedule_job_enabled.
  - destruct (schedule_job_disabled
                (set_jobs m (<[id := row]> (jobs m))) id (j_schedule_type row)
                (j_schedule_config row)) as [Hs He].
    split; [exact He|exact Hs].
Qed.

Lemma register_job_row m id task mt cfg now old :
  jobs m !! id = Some old ->
  exists row, jobs (register_job m id task mt cfg now).1 !! id = Some row
              /\ j_yaml_mtime row = mt /\ j_enabled row = j_enabled old
              /\ j_created_at row = j_created_at old.
Proof.
  intros Hold. destruct (register_job_known m id task mt cfg now old Hold) as (Hrow & _).
  eexists. split; [exact Hrow|]. done.
Qed.

End Frames.

(** ** The scanner's loop *)

Section Scanner.

Context {aps : Scheduler}.
Implicit Types (m : manager) (id t : string) (found : gset string) (l : list string).
Variable clock : string -> Clock.datetime.

Lemma scan_one_cases m t :
  scan_one clock m t = (m, None) \/
  exists y c, manifest_seen m t = Some y /\ data y = Yaml c /\
    _needs_update m t (st_mtime y) = true /\
    scan_one clock m t = register_job m t t (st_mtime y) c (clock t).
Proof.
  unfold scan_one, manifest_seen, scan_step. destruct (is_hidden t); [by left|].
  destruct (disk_jobs m !! t ≫= _) as [y|]; [|by left].
  destruct (_needs_update m t (st_mtime y)) eqn:Hn; simpl; [|by left].
  destruct (data y) as [|c] eqn:Hd; [by left|]. right. exists y, c.
  by destruct (register_job _ _ _ _ _ _).
Qed.

Lemma scan_step_eq found m t :
  scan_step clock found m t
  = (match manifest_seen m t with Some _ => {[t]} ∪ found | None => found end,
     (scan_one clock m t).1, (scan_one clock m t).2).
Proof.
  unfold scan_one, manifest_seen, scan_step. destruct (is_hidden t); [done|].
  destruct (disk_jobs m !! t ≫= _) as [y|]; [|done].
  destruct (negb _); [done|]. destruct (data y); [done|].
  by destruct (register_job _ _ _ _ _ _).
Qed.

Lemma scan_loop_nil found m : scan_loop clock found m [] = (found, m, None).
Proof. done. Qed.

Lemma scan_loop_cons found m t l :
  scan_loop clock found m (t :: l)
  = let found' := match manifest_seen m t with
                  | Some _ => {[t]} ∪ found | None => found end in
    match (scan_one clock m t).2 with
    | Some e => (found', (scan_one clock m t).1, Some e)
    | None => scan_loop clock found' (scan_one clock m t).1 l
    end.
Proof.
  change (scan_loop clock found m (t :: l))
    with (match scan_step clock found m t with
          | (found', m', Some e) => (found', m', Some e)
          | (found', m', None) => scan_loop clock found' m' l
          end).
  rewrite scan_step_eq. cbv zeta. by destruct (scan_one clock m t).2.
Qed.

Lemma scan_one_frame m t :
  let m' := (scan_one clock m t).1 in
  runs m' = runs m /\ runs_seq m' = runs_seq m /\
  disk_jobs m' = disk_jobs m /\ disk_staging m' = disk_staging m /\
  disk_files m' = disk_files m /\ pending_updates m' = pending_updates m /\
  _job_locks m' = _job_locks m /\ jobs_dir m' = jobs_dir m /\
  logs_dir m' = logs_dir m /\ log_retention_days m' = log_retention_days m.
Proof.
  destruct (scan_one_cases m t) as [->|(y & c & _ & _ & _ & ->)]; [done|].
  apply register_job_frame.
Qed.

Lemma scan_one_other m t id :
  t <> id ->
  jobs (scan_one clock m t).1 !! id = jobs m !! id /\
  scheduler (scan_one clock m t).1 !! id = scheduler m !! id.
Proof.
  intros Hne.
  destruct (scan_one_cases m t) as [->|(y & c & _ & _ & _ & ->)]; [done|].
  by apply register_job_other.
Qed.

Lemma manifest_seen_disk m1 m2 t :
  disk_jobs m1 = disk_jobs m2 -> manifest_seen m1 t = manifest_seen m2 t.
Proof. unfold manifest_seen. by intros ->. Qed.

Lemma scan_one_eq m t :
  scan_one clock m t
  = match manifest_seen m t with
    | None => (m, None)
    | Some y =>
        if _needs_update m t (st_mtime y) then
          match data y with
          | Raw _ => (m, None)
          | Yaml c => register_job m t t (st_mtime y) c (clock t)
          end
        else (m, None)
    end.
Proof.
  unfold scan_one, manifest_seen, scan_step. destruct (is_hidden t); [done|].
  destruct (disk_jobs m !! t ≫= _) as [y|]; [|done].
  destruct (_needs_update m t (st_mtime y)); simpl; [|done].
  destruct (data y); [done|]. by destruct (register_job _ _ _ _ _ _).
Qed.

(** What a turn makes of the job it looks at depends only on the disk
    and on the row and the registration of that job. *)
Lemma scan_one_local m1 m2 id :
  disk_jobs m1 = disk_jobs m2 ->
  jobs m1 !! id = jobs m2 !! id ->
  scheduler m1 !! id = scheduler m2 !! id ->
  jobs (scan_one clock m1 id).1 !! id = jobs (scan_one clock m2 id).1 !! id /\
  scheduler (scan_one clock m1 id).1 !! id = scheduler (scan_one clock m2 id).1 !! id /\
  (scan_one clock m1 id).2 = (scan_one clock m2 id).2.
Proof.
  intros Hd Hj Hs. rewrite !scan_one_eq, (manifest_seen_disk m1 m2 id Hd).
  destruct (manifest_seen m2 id) as [y|]; [|done].
  unfold _needs_update. rewrite Hj.
  destruct (jobs m2 !! id) as [old|] eqn:Hold.
  - destruct (negb _); [|by (cbn [fst snd]; rewrite Hj, Hold, Hs)].
    destruct (data y) as [|c]; [by (cbn [fst snd]; rewrite Hj, Hold, Hs)|].
    destruct (register_job_known m1 id id (st_mtime y) c (clock id) old Hj)
      as (Hr1 & He1 & Hs1).
    destruct (register_job_known m2 id id (st_mtime y) c (clock id) old Hold)
      as (Hr2 & He2 & Hs2).
    by rewrite Hr1, Hr2, He1, He2, Hs1, Hs2.
  - destruct (data y) as [|c]; [by (cbn [fst snd]; rewrite Hj, Hold, Hs)|].
    rewrite !register_job_new by done. by (cbn [fst snd]; rewrite Hj, Hold, Hs).
Qed.

Lemma scan_loop_frame l found m :
  let m' := (scan_loop clock found m l).1.2 in
  runs m' = runs m /\ runs_seq m' = runs_seq m /\
  disk_jobs m' = disk_jobs m /\ disk_staging m' = disk_staging m /\
  disk_files m' = disk_files m /\ pending_updates m' = pending_updates m /\
  _job_locks m' = _job_locks m /\ jobs_dir m' = jobs_dir m /\
  logs_dir m' = logs_dir m /\ log_retention_days m' = log_retention_days m.
Proof.
  revert found m. induction l as [|t l IH]; intros found m; [done|].
  rewrite scan_loop_cons. cbv zeta.
  destruct (scan_one_frame m t) as (<- & <- & <- & <- & <- & <- & <- & <- & <- & <-).
  destruct (scan_one clock m t).2; [done|]. apply IH.
Qed.

(** The job ids found by the loop are those of manifests it saw; when
    it was not left by an exception, it saw every manifest. *)
Lemma scan_loop_found l found m id :
  let r := scan_loop clock found m l in
  (id ∈ r.1.1 -> id ∈ found \/ (id ∈ l /\ is_Some (manifest_seen m id))) /\
  (r.2 = None -> id ∈ found \/ (id ∈ l /\ is_Some (manifest_seen m id)) -> id ∈ r.1.1).
Proof.
  revert found m. induction l as [|t l IH]; intros found m.
  - rewrite scan_loop_nil. simpl. rewrite elem_of_nil. tauto.
  - rewrite scan_loop_cons. cbv zeta.
    set (found' := match manifest_seen m t with
                   | Some _ => {[t]} ∪ found | None => found end).
    assert (id ∈ found' <-> id ∈ found \/ (id = t /\ is_Some (manifest_seen m id))) as Hf.
    { unfold found'. destruct (manifest_seen m t) eqn:Ht.
      - rewrite elem_of_union, elem_of_singleton. split.
        + intros [->|?]; [right; split; [done|rewrite Ht; eauto]|by left].
        + intros [?|[-> _]]; [by right|by left].
      - split; [by left|]. intros [?|[-> [? Hs]]]; [done|congruence]. }
    destruct (scan_one clock m t).2 eqn:He.
    + cbn [fst snd]. split; [|done]. rewrite Hf, elem_of_cons. tauto.
    + specialize (IH found' (scan_one clock m t).1). cbv zeta in IH.
      rewrite (manifest_seen_disk (scan_one clock m t).1 m id) in IH
        by (by destruct (scan_one_frame m t) as (_ & _ & -> & _)).
      rewrite Hf, elem_of_cons in *. tauto.
Qed.

Lemma scan_loop_other l found m id :
  id ∉ l ->
  jobs (scan_loop clock found m l).1.2 !! id = jobs m !! id /\
  scheduler (scan_loop clock found m l).1.2 !! id = scheduler m !! id.
Proof.
  revert found m. induction l as [|t l IH]; intros found m Hnin; [done|].
  rewrite scan_loop_cons. cbv zeta.
  apply not_elem_of_cons in Hnin as [Hne Hnin].
  destruct (scan_one_other m t id) as [Hj Hs]; [congruence|].
  destruct (scan_one clock m t).2; [done|].
  rewrite <- Hj, <- Hs. by apply IH.
Qed.

(** The loop is left by an exception exactly when some turn raises, and
    whether a turn raises can be read off the state before the loop. *)
Lemma scan_loop_raises l found m :
  NoDup l ->
  ((scan_loop clock found m l).2 = None
   <-> forall t, t ∈ l -> (scan_one clock m t).2 = None).
Proof.
  revert found m. induction l as [|t l IH]; intros found m Hnd.
  - rewrite scan_loop_nil. split; [|done]. intros _ t Ht. by apply elem_of_nil in Ht.
  - apply NoDup_cons in Hnd as [Hnt Hnd]. rewrite scan_loop_cons. cbv zeta.
    destruct (scan_one clock m t).2 eqn:He.
    + split; [done|]. intros H. specialize (H t (list_elem_of_here _ _)). congruence.
    + rewrite IH by done. split.
      * intros H t' [->|Ht']%elem_of_cons; [done|].
        assert (t <> t') as Hne by (by intros ->).
        destruct (scan_one_other m t t' Hne) as [Hj Hs].
        destruct (scan_one_local (scan_one clock m t).1 m t') as (_ & _ & <-);
          [by destruct (scan_one_frame m t) as (_ & _ & -> & _)|done..|].
        by apply H.
      * intros H t' Ht'.
        assert (t <> t') as Hne by (by intros ->).
        destruct (scan_one_other m t t' Hne) as [Hj Hs].
        destruct (scan_one_local (scan_one clock m t).1 m t') as (_ & _ & ->);
          [by destruct (scan_one_frame m t) as (_ & _ & -> & _)|done..|].
        apply H. by right.
Qed.

(** What the loop leaves of the job [id]: what its own turn made of it,
    or, when an exception left the loop before that turn, what it was. *)
Lemma scan_loop_at l found m id :
  NoDup l -> id ∈ l ->
  let r := scan_loop clock found m l in
  let ran := jobs r.1.2 !! id = jobs (scan_one clock m id).1 !! id /\
             scheduler r.1.2 !! id = scheduler (scan_one clock m id).1 !! id in
  let same := r.2 <> None /\ jobs r.1.2 !! id = jobs m !! id /\
              scheduler r.1.2 !! id = scheduler m !! id in
  ran \/ same.
Proof.
  revert found m. induction l as [|t l IH]; intros found m Hnd Hin.
  - by apply elem_of_nil in Hin.
  - apply NoDup_cons in Hnd as [Hnt Hnd]. rewrite scan_loop_cons. cbv zeta.
    set (found' := match manifest_seen m t with
                   | Some _ => {[t]} ∪ found | None => found end).
    destruct (decide (t = id)) as [->|Hne].
    + left. destruct (scan_one clock m id).2; [done|]. by apply scan_loop_other.
    + apply elem_of_cons in Hin as [?|Hin]; [congruence|].
      destruct (scan_one_other m t id Hne) as [Hj Hs].
      destruct (scan_one clock m t).2 eqn:He.
      * right. cbn [fst snd]. done.
      * destruct (scan_one_local (scan_one clock m t).1 m id) as (Hlj & Hls & _);
          [by destruct (scan_one_frame m t) as (_ & _ & -> & _)|done..|].
        destruct (IH found' (scan_one clock m t).1 Hnd Hin) as [[H1 H2]|(H0 & H1 & H2)].
        -- left. by rewrite H1, H2.
        -- right. by rewrite H1, H2.
Qed.

End Scanner.

(** ** Removal of stale jobs *)

Section Stale.

Implicit Types (m : manager) (id t : string) (found : gset string).

Lemma stale_loop_frame l found m :
  let m' := foldl (stale_step found) m l in
  runs m' = runs m /\ runs_seq m' = runs_seq m /\
  disk_jobs m' = disk_jobs m /\ disk_staging m' = disk_staging m /\
  disk_files m' = disk_files m /\ pending_updates m' = pending_updates m /\
  _job_locks m' = _job_locks m /\ jobs_dir m' = jobs_dir m /\
  logs_dir m' = logs_dir m /\ log_retention_days m' = log_retention_days m.
Proof.
  revert m. induction l as [|t l IH]; intros m; [done|]. simpl.
  unfold stale_step at 2 4 6 8 10 12 14 16 18 20. destruct (decide (t ∈ found)); [apply IH|].
  specialize (IH (unregister_job m t)). simpl in IH. apply IH.
Qed.

Lemma stale_loop_kept l found m id :
  ~ (id ∈ l /\ id ∉ found) ->
  jobs (foldl (stale_step found) m l) !! id = jobs m !! id /\
  scheduler (foldl (stale_step found) m l) !! id = scheduler m !! id.
Proof.
  revert m. induction l as [|t l IH]; intros m Hn; [done|]. simpl.
  destruct (IH (stale_step found m t)) as [-> ->].
  { intros [? ?]. apply Hn. split; [by right|done]. }
  unfold stale_step. destruct (decide (t ∈ found)) as [|Hnf]; [done|].
  assert (t <> id). { intros ->. apply Hn. split; [by left|done]. }
  simpl. by rewrite !lookup_delete_ne.
Qed.

Lemma stale_loop_gone l found m id :
  id ∈ l -> id ∉ found ->
  jobs (foldl (stale_step found) m l) !! id = None /\
  scheduler (foldl (stale_step found) m l) !! id = None.
Proof.
  revert m. induction l as [|t l IH]; intros m Hin Hnf.
  - by apply elem_of_nil in Hin.
  - simpl. destruct (decide (id ∈ l)) as [Hl|Hl]; [by apply IH|].
    apply elem_of_cons in Hin as [->|?]; [|done].
    destruct (stale_loop_kept l found (stale_step found m t) t) as [-> ->]; [tauto|].
    unfold stale_step. destruct (decide (t ∈ found)); [done|].
    simpl. by rewrite !lookup_delete_eq.
Qed.

Lemma stale_loop_id l found m :
  (forall id, id ∈ l -> id ∈ found) -> foldl (stale_step found) m l = m.
Proof.
  revert m. induction l as [|t l IH]; intros m Hall; [done|]. simpl.
  unfold stale_step at 2. destruct (decide (t ∈ found)) as [|Hn].
  - apply IH. intros id ?. apply Hall. by right.
  - exfalso. apply Hn, Hall. by left.
Qed.

Lemma job_ids_elem m id : id ∈ (map_to_list (jobs m)).*1 <-> is_Some (jobs m !! id).
Proof.
  rewrite list_elem_of_fmap. split.
  - intros ([k v] & -> & Hin). apply elem_of_map_to_list in Hin. eauto.
  - intros [v Hv]. exists (id, v). split; [done|]. by apply elem_of_map_to_list.
Qed.

Lemma remove_stale_eq m found :
  _remove_stale_jobs m found = foldl (stale_step found) m (map_to_list (jobs m)).*1.
Proof. done. Qed.

Lemma remove_stale_jobs_lookup m found id :
  jobs (_remove_stale_jobs m found) !! id
  = if decide (id ∈ found) then jobs m !! id else None.
Proof.
  rewrite remove_stale_eq. destruct (decide (id ∈ found)) as [Hf|Hf].
  - apply stale_loop_kept. tauto.
  - destruct (jobs m !! id) as [row|] eqn:Hj.
    + apply stale_loop_gone; [|done]. apply job_ids_elem. rewrite Hj. eauto.
    + destruct (stale_loop_kept (map_to_list (jobs m)).*1 found m id) as [-> _]; [|done].
      intros [Hin _]. apply job_ids_elem in Hin. rewrite Hj in Hin. by destruct Hin.
Qed.

Lemma remove_stale_scheduler_kept m found id :
  id ∈ found \/ jobs m !! id = None ->
  scheduler (_remove_stale_jobs m found) !! id = scheduler m !! id.
Proof.
  intros H. rewrite remove_stale_eq. apply stale_loop_kept.
  intros [Hin Hnf]. apply job_ids_elem in Hin. destruct H as [?|Hj]; [done|].
  rewrite Hj in Hin. by destruct Hin.
Qed.

Lemma remove_stale_scheduler_gone m found id :
  id ∉ found -> is_Some (jobs m !! id) ->
  scheduler (_remove_stale_jobs m found) !! id = None.
Proof.
  intros Hnf Hj. rewrite remove_stale_eq. apply stale_loop_gone; [|done].
  by apply job_ids_elem.
Qed.

Lemma remove_stale_id m found :
  (forall id, is_Some (jobs m !! id) -> id ∈ found) -> _remove_stale_jobs m found = m.
Proof.
  intros H. rewrite remove_stale_eq. apply stale_loop_id.
  intros id Hin. by apply H, job_ids_elem.
Qed.

End Stale.

(** ** A whole scan *)

Section Scan.

Context {aps : Scheduler}.
Implicit Types (m : manager) (id : string).
Variable clock : string -> Clock.datetime.

Lemma scan_jobs_eq m :
  scan_jobs m clock
  = let r := scan_loop clock ∅ m (task_dirs m) in
    match r.2 with
    | Some e => (r.1.2, Some e)
    | None => (_remove_stale_jobs r.1.2 r.1.1, None)
    end.
Proof. unfold scan_jobs. by destruct (scan_loop _ _ _ _) as [[found m'] [e|]]. Qed.

Lemma scan_jobs_raised m :
  (scan_jobs m clock).2 = (scan_loop clock ∅ m (task_dirs m)).2.
Proof. rewrite scan_jobs_eq. cbv zeta. by destruct (scan_loop _ _ _ _).2. Qed.

Lemma task_dirs_elem m id : id ∈ task_dirs m <-> is_Some (disk_jobs m !! id).
Proof.
  unfold task_dirs. rewrite merge_sort_Permutation, list_elem_of_fmap. split.
  - intros ([k v] & -> & Hin). apply elem_of_map_to_list in Hin. eauto.
  - intros [v Hv]. exists (id, v). split; [done|]. by apply elem_of_map_to_list.
Qed.

Lemma task_dirs_NoDup m : NoDup (task_dirs m).
Proof. unfold task_dirs. rewrite merge_sort_Permutation. apply NoDup_fst_map_to_list. Qed.

Lemma manifest_seen_dir m id :
  is_Some (manifest_seen m id) -> is_Some (disk_jobs m !! id).
Proof.
  unfold manifest_seen. destruct (is_hidden id); [by intros [? ?]|].
  destruct (disk_jobs m !! id); [eauto|by intros [? ?]].
Qed.

Lemma scan_one_unseen m id : manifest_seen m id = None -> scan_one clock m id = (m, None).
Proof. intros Hn. by rewrite scan_one_eq, Hn. Qed.

(** A scan is left by an exception exactly when the turn of some task
    directory raises, as read off the state before the scan. *)
Lemma scan_jobs_ok m :
  (scan_jobs m clock).2 = None <-> forall id, (scan_one clock m id).2 = None.
Proof.
  rewrite scan_jobs_raised, scan_loop_raises by apply task_dirs_NoDup. split.
  - intros H id. destruct (manifest_seen m id) as [y|] eqn:Hs.
    + apply H, task_dirs_elem, manifest_seen_dir. rewrite Hs. eauto.
    + by rewrite scan_one_unseen.
  - intros H id _. apply H.
Qed.

Lemma scan_found m id :
  (scan_jobs m clock).2 = None ->
  id ∈ (scan_loop clock ∅ m (task_dirs m)).1.1 <-> is_Some (manifest_seen m id).
Proof.
  rewrite scan_jobs_raised. intros Hok.
  destruct (scan_loop_found clock (task_dirs m) ∅ m id) as [H1 H2]. split.
  - intros Hin. destruct (H1 Hin) as [H|[_ H]]; [by apply not_elem_of_empty in H|done].
  - intros H. apply H2; [done|]. right. split; [|done].
    by apply task_dirs_elem, manifest_seen_dir.
Qed.

(** What the loop of a scan that raised nothing made of the job [id]. *)
Lemma scan_loop_lookup m id :
  (scan_jobs m clock).2 = None ->
  jobs (scan_loop clock ∅ m (task_dirs m)).1.2 !! id
  = jobs (scan_one clock m id).1 !! id /\
  scheduler (scan_loop clock ∅ m (task_dirs m)).1.2 !! id
  = scheduler (scan_one clock m id).1 !! id.
Proof.
  rewrite scan_jobs_raised. intros Hok.
  destruct (decide (id ∈ task_dirs m)) as [Hin|Hin].
  - destruct (scan_loop_at clock (task_dirs m) ∅ m id (task_dirs_NoDup m) Hin)
      as [?|[? _]]; done.
  - rewrite scan_one_unseen; [by apply scan_loop_other|].
    destruct (manifest_seen m id) eqn:Hs; [|done].
    exfalso. apply Hin, task_dirs_elem, manifest_seen_dir. rewrite Hs. eauto.
Qed.

Lemma scan_jobs_frame m :
  let m' := (scan_jobs m clock).1 in
  runs m' = runs m /\ runs_seq m' = runs_seq m /\
  disk_jobs m' = disk_jobs m /\ disk_staging m' = disk_staging m /\
  disk_files m' = disk_files m /\ pending_updates m' = pending_updates m /\
  _job_locks m' = _job_locks m /\ jobs_dir m' = jobs_dir m /\
  logs_dir m' = logs_dir m /\ log_retention_days m' = log_retention_days m.
Proof.
  rewrite scan_jobs_eq. cbv zeta.
  set (r := scan_loop clock ∅ m (task_dirs m)).
  pose proof (scan_loop_frame clock (task_dirs m) ∅ m) as Hloop. fold r in Hloop.
  destruct r.2; [exact Hloop|]. cbn [fst]. rewrite remove_stale_eq.
  destruct (stale_loop_frame (map_to_list (jobs r.1.2)).*1 r.1.1 r.1.2)
    as (-> & -> & -> & -> & -> & -> & -> & -> & -> & ->).
  exact Hloop.
Qed.

(** The row of a job after a scan that raised nothing: what the loop
    made of it when its manifest was seen, no row otherwise. *)
Lemma scan_jobs_lookup m id :
  (scan_jobs m clock).2 = None ->
  jobs (scan_jobs m clock).1 !! id
  = match manifest_seen m id with
    | Some _ => jobs (scan_one clock m id).1 !! id
    | None => None
    end.
Proof.
  intros Hok. pose proof (scan_found m id Hok) as Hf.
  destruct (scan_loop_lookup m id Hok) as [Hj _].
  rewrite scan_jobs_eq in *. cbv zeta in *.
  destruct (scan_loop clock ∅ m (task_dirs m)).2; [done|]. cbn [fst].
  rewrite remove_stale_jobs_lookup, Hj.
  destruct (decide _) as [Hin|Hin]; rewrite Hf in Hin.
  - by destruct Hin as [y ->].
  - destruct (manifest_seen m id); [|done]. exfalso. eauto.
Qed.

Lemma scan_jobs_scheduler_seen m id :
  (scan_jobs m clock).2 = None -> is_Some (manifest_seen m id) ->
  scheduler (scan_jobs m clock).1 !! id = scheduler (scan_one clock m id).1 !! id.
Proof.
  intros Hok Hs. pose proof (scan_found m id Hok) as Hf.
  destruct (scan_loop_lookup m id Hok) as [_ Hsch].
  rewrite scan_jobs_eq in *. cbv zeta in *.
  destruct (scan_loop clock ∅ m (task_dirs m)).2; [done|]. cbn [fst].
  rewrite remove_stale_scheduler_kept; [done|]. left. by apply Hf.
Qed.

Lemma scan_jobs_scheduler_unseen m id :
  (scan_jobs m clock).2 = None -> manifest_seen m id = None ->
  scheduler (scan_jobs m clock).1 !! id
  = match jobs m !! id with Some _ => None | None => scheduler m !! id end.
Proof.
  intros Hok Hs. pose proof (scan_found m id Hok) as Hf.
  destruct (scan_loop_lookup m id Hok) as [Hj Hsch].
  rewrite (scan_one_unseen m id Hs) in Hj, Hsch. cbn [fst] in Hj, Hsch.
  rewrite scan_jobs_eq in *. cbv zeta in *.
  destruct (scan_loop clock ∅ m (task_dirs m)).2; [done|]. cbn [fst].
  assert (id ∉ (scan_loop clock ∅ m (task_dirs m)).1.1) as Hnf.
  { rewrite Hf, Hs. by intros [? ?]. }
  destruct (jobs m !! id) as [row|] eqn:Hrow.
  - apply remove_stale_scheduler_gone; [done|]. rewrite Hj. eauto.
  - rewrite remove_stale_scheduler_kept; [done|]. by right.
Qed.

(** What a scan, raising or not, leaves of the job [id]: what its turn
    of the loop made of it; or what it was, when an exception left the
    loop before that turn; or nothing, when the scan raised nothing and
    saw no manifest of it. *)
Lemma scan_jobs_cases m id :
  let r := scan_jobs m clock in
  (is_Some (manifest_seen m id) /\
   jobs r.1 !! id = jobs (scan_one clock m id).1 !! id /\
   scheduler r.1 !! id = scheduler (scan_one clock m id).1 !! id) \/
  (r.2 <> None /\ jobs r.1 !! id = jobs m !! id /\
   scheduler r.1 !! id = scheduler m !! id) \/
  (r.2 = None /\ manifest_seen m id = None /\ jobs r.1 !! id = None /\
   scheduler r.1 !! id
   = match jobs m !! id with Some _ => None | None => scheduler m !! id end).
Proof.
  cbv zeta. destruct (scan_jobs m clock).2 as [e|] eqn:He.
  - assert (jobs (scan_jobs m clock).1 = jobs (scan_loop clock ∅ m (task_dirs m)).1.2 /\
            scheduler (scan_jobs m clock).1
            = scheduler (scan_loop clock ∅ m (task_dirs m)).1.2) as [-> ->].
    { rewrite scan_jobs_eq in *. cbv zeta in *.
      by destruct (scan_loop clock ∅ m (task_dirs m)).2. }
    destruct (decide (id ∈ task_dirs m)) as [Hin|Hin].
    + destruct (manifest_seen m id) as [y|] eqn:Hs.
      * destruct (scan_loop_at clock (task_dirs m) ∅ m id (task_dirs_NoDup m) Hin)
          as [[H1 H2]|(_ & H1 & H2)].
        -- left. split; [eauto|done].
        -- right. left. done.
      * right. left. split; [done|].
        destruct (scan_loop_at clock (task_dirs m) ∅ m id (task_dirs_NoDup m) Hin)
          as [[H1 H2]|(_ & H1 & H2)]; [|done].
        by rewrite (scan_one_unseen m id Hs) in H1, H2.
    + right. left. split; [done|]. by apply scan_loop_other.
  - destruct (manifest_seen m id) as [y|] eqn:Hs.
    + left. split; [eauto|]. split.
      * by rewrite scan_jobs_lookup, Hs.
      * apply scan_jobs_scheduler_seen; [done|]. rewrite Hs. eauto.
    + right. right. split; [done|]. split; [done|]. split.
      * by rewrite scan_jobs_lookup, Hs.
      * by apply scan_jobs_scheduler_unseen.
Qed.

End Scan.
(** ** Claims on the scanner and the registry *)

Lemma fst_of_tagged {A B} (g : A -> B) (l : list A) :
  ((fun r => (r, g r)) <$> l).*1 = l.
Proof. induction l as [|x l IH]; [done|]. simpl. f_equal. apply IH. Qed.

Lemma get_runs_rows m job_id status limit :
  (get_runs m job_id status limit).*1
  = (let rows := merge_sort newer
                   (filter (fun r => wanted job_id status r = true) (runs m)) in
     if limit <? 0 then rows else take (Z.to_nat limit) rows).
Proof. unfold get_runs. apply fst_of_tagged. Qed.

Section ScanClaims.

Context {aps : Scheduler}.
Implicit Types (m : manager) (id : string).

Lemma scan_one_unchanged clock m id row y :
  jobs m !! id = Some row -> manifest_seen m id = Some y ->
  j_yaml_mtime row = st_mtime y -> scan_one clock m id = (m, None).
Proof.
  intros Hrow Hseen Hmt. rewrite scan_one_eq, Hseen. unfold _needs_update.
  by rewrite Hrow, Hmt, Z.eqb_refl.
Qed.

(** A turn of the loop on a manifest of a job that is not in the table
    raises, whatever the manifest says, and changes nothing. *)
Lemma scan_one_new clock m id y c :
  jobs m !! id = None -> manifest_seen m id = Some y -> data y = Yaml c ->
  scan_one clock m id = (m, Some (OperationalError "13 values for 12 columns")).
Proof.
  intros Hnew Hseen Hdata. rewrite scan_one_eq, Hseen. unfold _needs_update.
  rewrite Hnew, Hdata. by apply register_job_new.
Qed.

Lemma scan_one_raw clock m id y s :
  manifest_seen m id = Some y -> data y = Raw s -> scan_one clock m id = (m, None).
Proof.
  intros Hseen Hdata. rewrite scan_one_eq, Hseen, Hdata.
  by destruct (_needs_update _ _ _).
Qed.

Lemma scan_one_row clock m id y c :
  manifest_seen m id = Some y -> data y = Yaml c -> (scan_one clock m id).2 = None ->
  exists row, jobs (scan_one clock m id).1 !! id = Some row
              /\ j_yaml_mtime row = st_mtime y.
Proof.
  intros Hseen Hdata. rewrite scan_one_eq, Hseen, Hdata. unfold _needs_update.
  destruct (jobs m !! id) as [old|] eqn:Hold.
  - destruct (j_yaml_mtime old =? st_mtime y) eqn:Hmt; cbn [negb].
    + intros _. exists old. split; [done|]. by apply Z.eqb_eq.
    + intros _. destruct (register_job_row m id id (st_mtime y) c (clock id) old Hold)
        as (row & Hrow & Hm & _). eauto.
  - by rewrite register_job_new.
Qed.

Lemma scan_loop_fixed clock l found m :
  (forall t, t ∈ l -> scan_one clock m t = (m, None)) ->
  (scan_loop clock found m l).1.2 = m /\ (scan_loop clock found m l).2 = None.
Proof.
  revert found. induction l as [|t l IH]; intros found Hfix; [done|].
  rewrite scan_loop_cons, Hfix by (by left). cbv zeta. cbn [fst snd].
  apply IH. intros t' ?. apply Hfix. by right.
Qed.

Lemma scan_jobs_fixed clock clock' m :
  (scan_jobs m clock).2 = None ->
  scan_jobs (scan_jobs m clock).1 clock' = ((scan_jobs m clock).1, None).
Proof.
  intros Hok. set (m1 := (scan_jobs m clock).1).
  assert (disk_jobs m1 = disk_jobs m) as Hdisk by apply scan_jobs_frame.
  assert (forall t, scan_one clock' m1 t = (m1, None)) as Hfix.
  { intros t.
    destruct (scan_one_cases clock' m1 t) as [?|(y & c & Hs & Hd & Hn & _)]; [done|].
    exfalso. rewrite (manifest_seen_disk m1 m t Hdisk) in Hs.
    destruct (scan_one_row clock m t y c Hs Hd) as (row & Hrow & Hmt);
      [by apply scan_jobs_ok|].
    unfold _needs_update, m1 in Hn.
    rewrite scan_jobs_lookup, Hs, Hrow, Hmt, Z.eqb_refl in Hn by done. done. }
  assert ((scan_jobs m1 clock').2 = None) as Hok1.
  { apply scan_jobs_ok. intros id. by rewrite Hfix. }
  pose proof (fun id => scan_found clock' m1 id Hok1) as Hfound.
  rewrite (scan_jobs_eq clock' m1). cbv zeta.
  destruct (scan_loop_fixed clock' (task_dirs m1) ∅ m1) as [Hm He];
    [intros; apply Hfix|].
  rewrite He, Hm. f_equal. apply remove_stale_id. intros id Hsome.
  apply Hfound. rewrite (manifest_seen_disk m1 m id Hdisk).
  unfold m1 in Hsome. rewrite scan_jobs_lookup in Hsome by done.
  destruct (manifest_seen m id); [eauto|]. by destruct Hsome.
Qed.

(** A scan that finds the manifest of a job that is not in the table
    raises: in the turn of that job, or in an earlier one. *)
Lemma scan_jobs_new_raises clock m id y c :
  jobs m !! id = None -> manifest_seen m id = Some y -> data y = Yaml c ->
  (scan_jobs m clock).2 <> None.
Proof.
  intros Hnew Hseen Hdata Hok.
  pose proof (proj1 (scan_jobs_ok clock m) Hok id) as Hid.
  by rewrite (scan_one_new clock m id y c) in Hid.
Qed.

End ScanClaims.

(** C9 fails on the code.  A scan that raises nothing does what the
    claim says for a registered job whose manifest is absent from disk:
    it deletes the row of the job and its trigger registration, leaves
    the [runs] table as it was, and the run-history query returns the
    same rows as before, every run of the job among them when no limit
    cuts the list.  But [_remove_stale_jobs] comes after the loop over
    the task directories, and the loop is left by an exception whenever
    it meets the parsable manifest of a job that is not in the table,
    since the INSERT of [register_job] is refused by SQLite: then the
    row of the job without manifest and its registration stay.  On the
    installation with the new task directory [daily], the scan raises
    and [legacy], whose directory is gone, keeps its row and its
    trigger. *)
Theorem scan_jobs_raises_before_removing_stale_jobs :
  (forall (aps : Scheduler) m clock id row,
     jobs m !! id = Some row ->
     disk_jobs m !! id ≫= (.!! "job.yaml") = None ->
     let r := scan_jobs m clock in
     (r.2 = None -> jobs r.1 !! id = None /\ scheduler r.1 !! id = None) /\
     (r.2 <> None ->
      jobs r.1 !! id = Some row /\ scheduler r.1 !! id = scheduler m !! id) /\
     runs r.1 = runs m /\
     (forall job_id status limit,
        (get_runs r.1 job_id status limit).*1 = (get_runs m job_id status limit).*1) /\
     (forall r' limit, r' ∈ runs m -> r_job_id r' = id -> limit < 0 ->
        r' ∈ (get_runs r.1 (Some id) None limit).*1)) /\
  (forall (aps : Scheduler) m clock id y c,
     jobs m !! id = None -> manifest_seen m id = Some y -> data y = Yaml c ->
     (scan_jobs m clock).2 <> None) /\
  (let r := scan_jobs (aps := by_signature) site_with_daily clock_noon in
   jobs site_with_daily !! "legacy" = Some legacy_row /\
   disk_jobs site_with_daily !! "legacy" = None /\
   r.2 = Some (OperationalError "13 values for 12 columns") /\
   jobs r.1 !! "legacy" = Some legacy_row /\
   scheduler r.1 !! "legacy" = Some (mk_trigger Cron (<["hour" := VStr "*/2"]> ∅))).
Proof.
  split; [|split].
  - intros aps m clock id row Hrow Hdisk r.
    assert (manifest_seen m id = None) as Hseen.
    { unfold manifest_seen. by destruct (is_hidden id). }
    assert (runs r.1 = runs m) as Hruns by apply scan_jobs_frame.
    split; [|split; [|split; [done|split]]].
    + intros Hok. unfold r.
      by rewrite scan_jobs_lookup, Hseen, scan_jobs_scheduler_unseen, Hrow.
    + intros Hraised.
      destruct (scan_jobs_cases clock m id) as [([? Hs] & _)|[(_ & Hj & Hs)|(Hok & _)]].
      * congruence.
      * unfold r. by rewrite Hj, Hs.
      * done.
    + intros. by rewrite !get_runs_rows, Hruns.
    + intros r' limit Hin Hid Hlim. rewrite get_runs_rows, Hruns. simpl.
      apply Z.ltb_lt in Hlim. rewrite Hlim, merge_sort_Permutation, list_elem_of_filter.
      split; [|done]. unfold wanted, matches, given. simpl.
      destruct (Text.truthy id); [|done]. rewrite Hid. by rewrite bool_decide_eq_true_2.
  - intros aps m clock id y c. apply scan_jobs_new_raises.
  - vm_compute. repeat split; reflexivity.
Qed.

(** C8, amended: a job whose stored manifest modification time equals
    that of the manifest the scanner sees on disk is not registered
    again by a scan: its row is unchanged, the [runs] table and its id
    counter are untouched, and its trigger registration is what it was,
    whether or not the scan is left by an exception elsewhere; and a
    second scan of an unchanged disk, after one that raised nothing,
    changes nothing and raises nothing. *)
Theorem scan_jobs_skips_unchanged_manifest {aps : Scheduler} m clock :
  (forall id row y,
      jobs m !! id = Some row -> manifest_seen m id = Some y ->
      j_yaml_mtime row = st_mtime y ->
      let m' := (scan_jobs m clock).1 in
      jobs m' !! id = Some row /\ scheduler m' !! id = scheduler m !! id /\
      runs m' = runs m /\ runs_seq m' = runs_seq m) /\
  (forall clock',
      (scan_jobs m clock).2 = None ->
      scan_jobs (scan_jobs m clock).1 clock' = ((scan_jobs m clock).1, None)).
Proof.
  split; [|intros; by apply scan_jobs_fixed].
  intros id row y Hrow Hseen Hmt m'. unfold m'.
  assert (jobs (scan_jobs m clock).1 !! id = jobs m !! id /\
          scheduler (scan_jobs m clock).1 !! id = scheduler m !! id) as [-> ->].
  { destruct (scan_jobs_cases clock m id) as [(_ & Hj & Hs)|[(_ & Hj & Hs)|(_ & Hn & _)]].
    - by rewrite (scan_one_unchanged clock m id row y) in Hj, Hs.
    - done.
    - congruence. }
  split; [done|split; [done|]]. split; apply scan_jobs_frame.
Qed.

Lemma scan_jobs_skips_unchanged_manifest_witness :
  let r := scan_jobs (aps := by_signature) site clock_noon in
  jobs r.1 !! "report" = Some report_row /\
  scheduler r.1 !! "report" = scheduler site !! "report" /\
  runs r.1 = runs site /\ scan_jobs (aps := by_signature) r.1 clock_noon = (r.1, None).
Proof.
  destruct (scan_jobs_skips_unchanged_manifest (aps := by_signature) site clock_noon)
    as [Hrow Hfix].
  destruct (Hrow "report" report_row (mk_file 1700000000 (Yaml report_manifest)))
    as (Hj & Hs & Hr & _).
  - vm_compute. reflexivity.
  - vm_compute. reflexivity.
  - reflexivity.
  - split; [exact Hj|split; [exact Hs|split; [exact Hr|apply Hfix]]].
    vm_compute. reflexivity.
Defined.

(** C8 as claimed fails after a scan that was left by an exception: two
    scans of an unchanged disk are then not one scan.  The manifest of
    the registered job [report] is edited to a schedule that [add_job]
    refuses.  The first scan commits the row with the new modification
    time, raises in [_schedule_job] and never comes to
    [_remove_stale_jobs]; the second finds the manifest unchanged,
    raises nothing and removes [legacy], whose directory is gone. *)
Lemma scan_jobs_twice_differs_after_refused_trigger :
  let once := scan_jobs (aps := by_signature) site_refused_schedule clock_noon in
  let twice := scan_jobs (aps := by_signature) once.1 clock_noon in
  once.2 <> None /\ disk_jobs once.1 = disk_jobs site_refused_schedule /\
  jobs once.1 !! "legacy" = Some legacy_row /\
  twice.2 = None /\ jobs twice.1 !! "legacy" = None /\
  twice.1 <> once.1.
Proof.
  cbv zeta.
  assert (jobs (scan_jobs (aps := by_signature) site_refused_schedule clock_noon).1
            !! "legacy" = Some legacy_row) as Honce by (vm_compute; reflexivity).
  assert (jobs (scan_jobs (aps := by_signature)
                  (scan_jobs (aps := by_signature) site_refused_schedule clock_noon).1
                  clock_noon).1 !! "legacy" = None) as Htwice
    by (vm_compute; reflexivity).
  split; [vm_compute; discriminate|]. split; [apply scan_jobs_frame|].
  split; [exact Honce|]. split; [vm_compute; reflexivity|]. split; [exact Htwice|].
  intros Heq. rewrite Heq, Honce in Htwice. discriminate Htwice.
Qed.

(** C10: when [register_job] updates a job that is already registered,
    the row keeps its [enabled] flag and its [created_at], and the job
    has a trigger registration afterwards only if the stored flag is
    set; it has one then, unless [add_job] refused the new schedule and
    the call raised.  So a job that [toggle_job] disabled has no
    trigger, and a job that is disabled and has no trigger is still
    disabled and without trigger after any scan, whatever its manifest
    has become and whether or not the scan raised. *)
Theorem register_job_keeps_enabled_flag {aps : Scheduler} :
  (forall m id task mt cfg now row,
      jobs m !! id = Some row ->
      let r := register_job m id task mt cfg now in
      (exists row', jobs r.1 !! id = Some row' /\ j_enabled row' = j_enabled row
                    /\ j_created_at row' = j_created_at row) /\
      (is_Some (scheduler r.1 !! id) -> j_enabled row = true) /\
      (j_enabled row = true -> r.2 = None -> is_Some (scheduler r.1 !! id)) /\
      (j_enabled row = false -> r.2 = None)) /\
  (forall m id now row,
      jobs m !! id = Some row -> j_enabled row = true ->
      let r := toggle_job m id now in
      r.2 = inr false /\
      (exists row', jobs r.1 !! id = Some row' /\ j_enabled row' = false) /\
      scheduler r.1 !! id = None) /\
  (forall m clock id row,
      jobs m !! id = Some row -> j_enabled row = false -> scheduler m !! id = None ->
      let m' := (scan_jobs m clock).1 in
      scheduler m' !! id = None /\
      (forall row', jobs m' !! id = Some row' ->
                    j_enabled row' = false /\ j_created_at row' = j_created_at row)).
Proof.
  split; [|split].
  - intros m id task mt cfg now row Hrow r.
    destruct (register_job_known m id task mt cfg now row Hrow) as (Hr & He & Hs).
    unfold r. rewrite Hr, He, Hs. split; [eauto|].
    destruct (j_enabled row).
    + split; [done|]. split; [|done]. intros _ ->. eauto.
    + split; [by intros [? ?]|]. split; done.
  - intros m id now row Hrow Hen r. unfold r, toggle_job. rewrite Hrow, Hen.
    cbn [negb]. rewrite schedule_job_eq. cbv zeta. cbn [fst snd jobs scheduler
      set_scheduler set_jobs].
    rewrite lookup_insert_eq, lookup_delete_eq. eauto.
  - intros m clock id row Hrow Hdis Hsch m'. unfold m'.
    destruct (scan_jobs_cases clock m id)
      as [(_ & Hj & Hs)|[(_ & Hj & Hs)|(_ & _ & Hj & Hs)]].
    + rewrite Hj, Hs.
      destruct (scan_one_cases clock m id) as [->|(y' & c & _ & _ & _ & ->)].
      * split; [done|]. intros row' Hr'. cbn [fst] in Hr'.
        rewrite Hrow in Hr'. injection Hr' as <-. by split.
      * destruct (register_job_known m id id (st_mtime y') c (clock id) row Hrow)
          as (Hr1 & _ & Hs1).
        rewrite Hr1, Hs1, Hdis. split; [done|]. by intros row' [= <-].
    + rewrite Hj, Hs, Hrow. split; [done|]. by intros row' [= <-].
    + rewrite Hj, Hs, Hrow. split; [done|]. intros ? ?. done.
Qed.

Lemma register_job_keeps_enabled_flag_witness :
  let off := (toggle_job (aps := by_signature) site "report" at_noon).1 in
  let m' := (scan_jobs (aps := by_signature) (set_disk_jobs off
              (<["report" := <["job.yaml" := mk_file 1800000000 (Yaml report_manifest)]>
                               report_dir]> ∅)) clock_noon).1 in
  scheduler off !! "report" = None /\
  scheduler m' !! "report" = None /\
  (j_enabled <$> jobs m' !! "report") = Some false.
Proof.
  destruct (register_job_keeps_enabled_flag (aps := by_signature))
    as (_ & Htoggle & Hscan).
  destruct (Htoggle site "report" at_noon report_row)
    as (_ & (row' & Hrow' & Hoff) & Hnone).
  - vm_compute. reflexivity.
  - reflexivity.
  - intros off m'. split; [exact Hnone|].
    destruct (Hscan (set_disk_jobs off
                (<["report" := <["job.yaml" := mk_file 1800000000 (Yaml report_manifest)]>
                                 report_dir]> ∅)) clock_noon "report" row')
      as (Hs & Hstay).
    + exact Hrow'.
    + exact Hoff.
    + exact Hnone.
    + split; [exact Hs|]. vm_compute. reflexivity.
Defined.

(** ** Claims on staging and the updater *)

Section Updater.

Context {aps : Scheduler}.
Implicit Types (m : manager) (j id : string).

Lemma is_system_idle_spec m :
  is_system_idle m = true <-> forall j, _job_locks m !! j <> Some true.
Proof.
  unfold is_system_idle. rewrite forallb_forall. split.
  - intros H j Hj. specialize (H (j, true)). simpl in H.
    discriminate H. apply list_elem_of_In. by apply elem_of_map_to_list.
  - intros H [j b] Hin. apply list_elem_of_In, elem_of_map_to_list in Hin.
    simpl. destruct b; [|done]. by destruct (H j).
Qed.

Lemma promote_other fault m id j :
  id <> j ->
  disk_jobs (promote fault m id) !! j = disk_jobs m !! j /\
  disk_staging (promote fault m id) !! j = disk_staging m !! j /\
  (j ∈ pending_updates (promote fault m id) <-> j ∈ pending_updates m).
Proof.
  intros Hne. unfold promote.
  destruct (disk_staging m !! id) as [staged|]; simpl.
  - destruct (fault id) as [[| |]|]; simpl;
      rewrite ?lookup_insert_ne, ?lookup_delete_ne by done;
      (split; [done|split; [done|]]);
      rewrite ?elem_of_difference, ?elem_of_singleton; intuition congruence.
  - split; [done|split; [done|]].
    rewrite elem_of_difference, elem_of_singleton. intuition congruence.
Qed.

Lemma promote_loop_other fault l m j :
  j ∉ l ->
  disk_jobs (foldl (promote fault) m l) !! j = disk_jobs m !! j /\
  disk_staging (foldl (promote fault) m l) !! j = disk_staging m !! j /\
  (j ∈ pending_updates (foldl (promote fault) m l) <-> j ∈ pending_updates m).
Proof.
  revert m. induction l as [|t l IH]; intros m Hnin; [done|]. simpl.
  apply not_elem_of_cons in Hnin as [Hne Hnin].
  destruct (IH (promote fault m t) Hnin) as (-> & -> & ->).
  apply promote_other. congruence.
Qed.

Lemma promote_loop_at fault l m j staged :
  NoDup l -> j ∈ l -> disk_staging m !! j = Some staged -> fault j = None ->
  let m' := foldl (promote fault) m l in
  disk_jobs m' !! j = Some (copytree staged (default ∅ (disk_jobs m !! j))) /\
  disk_staging m' !! j = None /\ j ∉ pending_updates m'.
Proof.
  revert m. induction l as [|t l IH]; intros m Hnd Hin Hst Hok.
  - by apply elem_of_nil in Hin.
  - apply NoDup_cons in Hnd as [Hnt Hnd]. simpl.
    destruct (decide (t = j)) as [->|Hne].
    + destruct (promote_loop_other fault l (promote fault m j) j Hnt) as (-> & -> & ->).
      unfold promote. rewrite Hst, Hok. simpl.
      rewrite lookup_insert_eq, lookup_delete_eq. split; [done|split; [done|]].
      rewrite elem_of_difference, elem_of_singleton. tauto.
    + apply elem_of_cons in Hin as [?|Hin]; [congruence|].
      destruct (promote_other fault m t j Hne) as (Hj & Hs & _).
      specialize (IH (promote fault m t) Hnd Hin). simpl in IH.
      rewrite Hs, Hj in IH. by apply IH.
Qed.

Lemma copytree_lookup (src dst : bundle) name :
  copytree src dst !! name
  = match src !! name with Some f => Some f | None => dst !! name end.
Proof.
  unfold copytree. rewrite lookup_union. destruct (src !! name), (dst !! name); done.
Qed.

(** C3: while any per-job lock is held, [process_pending_updates] leaves
    the whole state as it is, so the live jobs directory, the staging
    directory and the pending set are unchanged.  When no lock is held, a
    pending identifier whose staged bundle exists, and whose promotion
    meets no file-system error, has its bundle copied over the live task
    directory (the staged files replace those of the same name, the
    other live files stay), the staged bundle is gone and the pending
    marker is cleared. *)
Theorem process_pending_updates_waits_for_idle m fault clock :
  (forall j, _job_locks m !! j = Some true ->
      process_pending_updates m fault clock = (m, None)) /\
  (forall j staged,
      (forall k, _job_locks m !! k <> Some true) ->
      j ∈ pending_updates m -> disk_staging m !! j = Some staged -> fault j = None ->
      let m' := (process_pending_updates m fault clock).1 in
      (exists live, disk_jobs m' !! j = Some live /\
         forall name, live !! name
           = match staged !! name with
             | Some f => Some f
             | None => default ∅ (disk_jobs m !! j) !! name
             end) /\
      disk_staging m' !! j = None /\ j ∉ pending_updates m').
Proof.
  split.
  - intros j Hj. unfold process_pending_updates.
    destruct (bool_decide _); [done|].
    destruct (is_system_idle m) eqn:Hidle; [|done].
    by destruct (proj1 (is_system_idle_spec m) Hidle j).
  - intros j staged Hidle Hp Hst Hok m'. unfold m', process_pending_updates.
    rewrite bool_decide_eq_false_2
      by (intros He; rewrite He in Hp; by apply not_elem_of_empty in Hp).
    rewrite (proj2 (is_system_idle_spec m) Hidle). simpl.
    set (r := foldl (promote fault) m (elements (pending_updates m))).
    destruct (scan_jobs_frame clock r) as (_ & _ & -> & -> & _ & -> & _).
    destruct (promote_loop_at fault (elements (pending_updates m)) m j staged)
      as (Hj & Hs & Hpe); [apply NoDup_elements|by apply elem_of_elements|done..|].
    split; [|done]. eexists. split; [exact Hj|]. intros name. apply copytree_lookup.
Qed.

End Updater.

Lemma process_pending_updates_waits_for_idle_witness :
  let busy := set_job_locks site_staged (<["report" := true]> ∅) in
  let m' := (process_pending_updates (aps := by_signature) site_staged (fun _ => None)
               clock_noon).1 in
  process_pending_updates (aps := by_signature) busy (fun _ => None) clock_noon
  = (busy, None) /\
  is_Some (disk_jobs m' !! "etl") /\ disk_staging m' !! "etl" = None /\
  "etl" ∉ pending_updates m'.
Proof.
  intros busy m'. split.
  - apply (proj1 (process_pending_updates_waits_for_idle (aps := by_signature) busy
                    (fun _ => None) clock_noon) "report").
    vm_compute. reflexivity.
  - destruct (proj2 (process_pending_updates_waits_for_idle (aps := by_signature)
                       site_staged (fun _ => None) clock_noon) "etl"
                (<["main.py" := mk_file 1772366400 (Raw "print('etl')")]>
                   (<["job.yaml" := mk_file 1772366400
                        (Yaml (mk_manifest (Some "ETL") None None None None))]> ∅)))
      as ((live & Hlive & _) & Hs & Hp).
    + intros k. replace (_job_locks site_staged) with (∅ : gmap string bool)
        by (vm_compute; reflexivity).
      rewrite lookup_empty. discriminate.
    + refine (bool_decide_unpack _ _). vm_compute. exact I.
    + vm_compute. reflexivity.
    + reflexivity.
    + split; [|split; [exact Hs|exact Hp]]. unfold m'. rewrite Hlive. eauto.
Defined.

(** C5 as the code has it: [save_job_files] raises a validation error,
    and leaves the whole state as it is, when the sanitized task name is
    empty, and when it names an existing live job directory while no
    bundle of that name is staged. *)
Theorem save_job_files_rejects_live_name m task files job_config stamp :
  (sanitize task = "" ->
     save_job_files m task files job_config stamp
     = (m, inl (ValueError "Invalid task name"))) /\
  (is_Some (disk_jobs m !! sanitize task) -> disk_staging m !! sanitize task = None ->
     exists msg, save_job_files m task files job_config stamp = (m, inl (ValueError msg))).
Proof.
  unfold save_job_files. split.
  - intros ->. done.
  - intros Hlive Hst. destruct (Text.truthy (sanitize task)); simpl; [|eauto].
    rewrite bool_decide_eq_true_2 by done.
    rewrite bool_decide_eq_false_2 by (rewrite Hst; by intros [? ?]). simpl. eauto.
Qed.

Lemma save_job_files_rejects_live_name_witness :
  save_job_files site "!!" etl_upload None stamp_noon
  = (site, inl (ValueError "Invalid task name")) /\
  exists msg, save_job_files site "re/port" etl_upload None stamp_noon
              = (site, inl (ValueError msg)).
Proof.
  split.
  - apply (proj1 (save_job_files_rejects_live_name site "!!" etl_upload None stamp_noon)).
    reflexivity.
  - apply (proj2 (save_job_files_rejects_live_name site "re/port" etl_upload None
                    stamp_noon)).
    + refine (bool_decide_unpack _ _). vm_compute. exact I.
    + vm_compute. reflexivity.
Defined.

(** C5 as stated fails: [etl] names a live job directory of
    [site_half_promoted], yet an upload under that name is accepted,
    replaces the staged bundle and returns the identifier. *)
Lemma save_job_files_accepts_live_name_when_staged :
  is_Some (disk_jobs site_half_promoted !! sanitize "etl") /\
  exists m', save_job_files site_half_promoted "etl"
               [mk_upload "other.py" (Raw "pass")] None stamp_noon = (m', inr "etl")
             /\ disk_staging m' <> disk_staging site_half_promoted.
Proof.
  split.
  - refine (bool_decide_unpack _ _). vm_compute. exact I.
  - exists (save_job_files site_half_promoted "etl"
              [mk_upload "other.py" (Raw "pass")] None stamp_noon).1.
    split; [vm_compute; reflexivity|].
    intros Heq. apply (f_equal (fun s => bool_decide (is_Some (s !! "etl" ≫= (.!! "other.py")))))
      in Heq.
    vm_compute in Heq. discriminate Heq.
Qed.

(** ** Claims on runs *)

Section Runs.

Context {aps : Scheduler}.
Implicit Types (m : manager) (r : run).

Lemma take_prefix n s :
  exists rest, s = Text.take n s +:+ rest
               /\ String.length (Text.take n s) = Nat.min n (String.length s).
Proof.
  unfold Text.take. revert n. induction s as [|c s IH]; intros [|n]; simpl.
  - by exists "".
  - by exists "".
  - by exists (String c s).
  - destruct (IH n) as (rest & Hs & Hl). exists rest.
    split; [|by rewrite Hl].
    change (String c s = String c (String.substring 0 n s +:+ rest)). by f_equal.
Qed.

Lemma outcome_status m job_id row now result :
  let '(status, _, _, _) := outcome m job_id row now result in
  status = "success" \/ status = "failed" \/ status = "timeout".
Proof.
  destruct result as [rc out err| |]; simpl; [destruct (rc =? 0)|..]; tauto.
Qed.

Lemma finalize_closed run_id status fin d rc em r :
  run_closed r -> run_closed (finalize run_id status fin d rc em r).
Proof.
  unfold finalize. destruct (r_id r =? run_id); [|done].
  intros _ _. simpl. eauto.
Qed.

Lemma mark_stale_closed now r : run_closed r -> run_closed (mark_stale now r).
Proof.
  unfold mark_stale. case_bool_decide; [|done]. intros _ _. simpl. eauto.
Qed.

Lemma running_closed r : r_status r = "running" -> run_closed r.
Proof. intros H [H'|[H'|H']]; rewrite H in H'; discriminate. Qed.

Lemma run_job_finish_runs m id row run_id now result fin :
  exists status rc em,
    runs (_run_job_finish m id row run_id now result fin)
    = finalize run_id status (Clock.isoformat fin) (Clock.duration_seconds now fin) rc em
      <$> runs m.
Proof.
  unfold _run_job_finish. destruct (outcome m id row now result) as [[[st rc] em] log].
  simpl. eauto.
Qed.

Lemma run_job_closed m id now result fin :
  Forall run_closed (runs m) -> Forall run_closed (runs (_run_job m id now result fin)).
Proof.
  intros Hall. unfold _run_job. destruct (jobs m !! id) as [row|]; [|done].
  destruct (negb (j_enabled row)); [done|]. simpl.
  match goal with |- context [_run_job_finish ?a ?b ?c ?d ?e ?f ?g] =>
    destruct (run_job_finish_runs a b c d e f g) as (st & rc & em & ->) end.
  simpl. apply Forall_fmap, Forall_app. split.
  - eapply Forall_impl; [exact Hall|]. intros r. apply finalize_closed.
  - apply Forall_singleton. simpl. by apply finalize_closed, running_closed.
Qed.

Lemma promote_loop_runs fault l m : runs (foldl (promote fault) m l) = runs m.
Proof.
  revert m. induction l as [|t l IH]; intros m; [done|]. simpl. rewrite IH.
  unfold promote. destruct (disk_staging m !! t); [|done].
  by destruct (fault t) as [[| |]|].
Qed.

Lemma step_closed m m' :
  step m m' -> Forall run_closed (runs m) -> Forall run_closed (runs m').
Proof.
  intros Hstep Hall. destruct Hstep.
  - by destruct (scan_jobs_frame clock m) as (-> & _).
  - unfold toggle_job. destruct (jobs m !! id); [|done].
    match goal with |- context [_schedule_job ?a ?b ?c ?d ?e] =>
      pose proof (schedule_job_frame a b c d e) as (_ & Hr & _);
      destruct (_schedule_job a b c d e) as [m' [e'|]] end; cbn [fst] in *;
      by rewrite Hr.
  - unfold execute_job. destruct (bool_decide _).
    + unfold _get_job_lock. by destruct (_job_locks m !! id).
    + simpl. apply run_job_closed. simpl.
      unfold _get_job_lock. by destruct (_job_locks m !! id).
  - unfold execute_job_launched in H. destruct (bool_decide _); [done|].
    simpl in H. destruct (jobs _ !! id) as [row|] eqn:Hj; [|done].
    destruct (negb (j_enabled row)); [done|]. injection H as <-. simpl.
    apply Forall_app. split.
    + unfold _get_job_lock. by destruct (_job_locks m !! id).
    + apply Forall_singleton. by apply running_closed.
  - change (Forall run_closed
              (runs (_run_job_finish m id row run_id now result finished_at))).
    destruct (run_job_finish_runs m id row run_id now result finished_at)
      as (st & rc & em & ->).
    apply Forall_fmap. eapply Forall_impl; [exact Hall|]. intros r. apply finalize_closed.
  - simpl. apply Forall_fmap. eapply Forall_impl; [exact Hall|].
    intros r. apply mark_stale_closed.
  - simpl. apply Forall_forall. intros r Hin.
    apply list_elem_of_filter in Hin as [_ Hin]. by apply (proj1 (Forall_forall _ _) Hall).
  - unfold save_job_files. destruct (negb _); [done|]. destruct (_ && _); [done|].
    destruct (save_files _ _ _ _ _) as [[staged hy] [e|]]; done.
  - unfold process_pending_updates. destruct (bool_decide _); [done|].
    destruct (negb _); [done|].
    destruct (scan_jobs_frame clock
                (foldl (promote fault) m (elements (pending_updates m)))) as (-> & _).
    by rewrite promote_loop_runs.
  - done.
Qed.

End Runs.

Section RunClaims.

Implicit Types (m : manager) (r : run).

Lemma run_job_last m id row now result fin :
  jobs m !! id = Some row -> j_enabled row = true ->
  exists status rc em log,
    outcome (_run_job_insert m id row now).1 id row now result = (status, rc, em, log) /\
    last (runs (_run_job m id now result fin))
    = Some (mk_run (runs_seq m + 1) id status (Clock.isoformat now)
              (Some (Clock.isoformat fin)) (Some (Clock.duration_seconds now fin))
              rc (Some (relative_log_path row now)) em).
Proof.
  intros Hrow Hen. unfold _run_job. rewrite Hrow, Hen. cbn [negb].
  unfold _run_job_finish.
  destruct (_run_job_insert m id row now) as [m1 run_id] eqn:Hins.
  unfold _run_job_insert in Hins. injection Hins as <- <-. cbn [fst].
  match goal with |- context [outcome ?a ?b ?c ?d ?e] =>
    destruct (outcome a b c d e) as [[[st rc] em] log] end.
  exists st, rc, em, log. split; [done|]. simpl.
  rewrite fmap_last, last_snoc. simpl. unfold finalize. simpl. by rewrite Z.eqb_refl.
Qed.

(** C6: after the subprocess has exited, the finalized run (the row the
    call inserted, which is the last of the table) has status [success]
    exactly when the exit code is zero; otherwise its status is [failed]
    and its error message is the first 500 characters of the captured
    stderr, or of stdout when stderr is empty. *)
Theorem run_job_status_follows_exit_code m job_id row now rc stdout stderr fin :
  jobs m !! job_id = Some row -> j_enabled row = true ->
  exists r,
    last (runs (_run_job m job_id now (Completed rc stdout stderr) fin)) = Some r /\
    r_id r = runs_seq m + 1 /\ r_job_id r = job_id /\ r_return_code r = Some rc /\
    (r_status r = "success" <-> rc = 0) /\
    (rc = 0 -> r_error_message r = None) /\
    (rc <> 0 ->
       r_status r = "failed" /\
       r_error_message r
       = Some (Text.take 500 (if Text.truthy stderr then stderr else stdout))).
Proof.
  intros Hrow Hen.
  destruct (run_job_last m job_id row now (Completed rc stdout stderr) fin Hrow Hen)
    as (st & rc' & em & log & Hout & Hlast).
  eexists. split; [exact Hlast|]. simpl. simpl in Hout.
  destruct (rc =? 0) eqn:Hrc; injection Hout as <- <- <- _.
  - apply Z.eqb_eq in Hrc. repeat split; try done; intros; congruence.
  - apply Z.eqb_neq in Hrc. repeat split; try done; try (intros; congruence).
    unfold Text.or_else. destruct (Text.truthy stderr); [done|]. by destruct stdout.
Qed.

Lemma run_job_status_follows_exit_code_witness :
  exists r,
    last (runs (_run_job site "report" at_noon (Completed 2 "partial" "Traceback") at_one))
    = Some r /\ r_status r = "failed" /\ r_error_message r = Some "Traceback".
Proof.
  destruct (run_job_status_follows_exit_code site "report" report_row at_noon
              2 "partial" "Traceback" at_one) as (r & Hl & _ & _ & _ & _ & _ & Hf).
  - vm_compute. reflexivity.
  - reflexivity.
  - exists r. split; [exact Hl|]. apply Hf. lia.
Defined.

(** C1 as the code has it: in every state an installation reaches from
    an empty [runs] table, a run in a terminal state has a finish
    timestamp, and it has a duration too unless startup recovery closed
    it.  Recovery turns a [running] row into [failed] with the fixed
    message and the finish timestamp of the start, and leaves the
    duration column as it was; the row that [_run_job] finalizes is
    terminal with both a finish timestamp and a duration. *)
Theorem terminal_runs_have_finish_timestamp {aps : Scheduler} m0 m :
  (runs m0 = [] -> rtc step m0 m ->
   forall r, r ∈ runs m -> terminal r ->
     is_Some (r_finished_at r) /\
     (is_Some (r_duration_seconds r)
      \/ r_error_message r = Some "System restarted while running")) /\
  (forall now r, r_status r = "running" ->
     let r' := mark_stale now r in
     r_status r' = "failed" /\ r_finished_at r' = Some (Clock.isoformat now) /\
     r_error_message r' = Some "System restarted while running" /\
     r_duration_seconds r' = r_duration_seconds r) /\
  (forall id row now result fin,
     jobs m !! id = Some row -> j_enabled row = true ->
     exists r, last (runs (_run_job m id now result fin)) = Some r /\ terminal r /\
               is_Some (r_finished_at r) /\ is_Some (r_duration_seconds r)).
Proof.
  split; [|split].
  - intros Hempty Hreach.
    assert (Forall run_closed (runs m)) as Hall.
    { assert (Forall run_closed (runs m0)) as H0 by (rewrite Hempty; constructor).
      clear Hempty. induction Hreach as [|x y z Hstep _ IH]; [done|].
      apply IH. by apply (step_closed x y). }
    intros r Hin Hterm. by apply (proj1 (Forall_forall _ _) Hall r Hin).
  - intros now r Hrun. unfold mark_stale. by rewrite bool_decide_eq_true_2.
  - intros id row now result fin Hrow Hen.
    destruct (run_job_last m id row now result fin Hrow Hen)
      as (st & rc & em & log & Hout & Hlast).
    eexists. split; [exact Hlast|]. simpl.
    pose proof (outcome_status (_run_job_insert m id row now).1 id row now result) as Hst.
    rewrite Hout in Hst. split; [exact Hst|]. split; eauto.
Qed.

Lemma terminal_runs_have_finish_timestamp_witness :
  let launched := default site_new (execute_job_launched site_new "report" at_noon) in
  let r := mk_run 1 "report" "failed" "2026-03-01T12:00:00" (Some "2026-03-01T13:00:00")
             None None (Some "report/20260301_120000.log")
             (Some "System restarted while running") in
  runs (JobManager_init launched at_one) = [r] /\
  is_Some (r_finished_at r) /\
  (is_Some (r_duration_seconds r)
   \/ r_error_message r = Some "System restarted while running").
Proof.
  intros launched r. split; [reflexivity|].
  apply (proj1 (terminal_runs_have_finish_timestamp (aps := by_signature) site_new
                  (JobManager_init launched at_one))).
  - reflexivity.
  - apply (rtc_l _ _ launched).
    + apply (step_launch _ "report" at_noon). vm_compute. reflexivity.
    + apply (rtc_l _ _ (JobManager_init launched at_one)); [apply step_start|apply rtc_refl].
  - apply list_elem_of_here.
  - right. left. reflexivity.
Defined.

(** C1 as stated fails: after [report] was launched and the process was
    started again, its run is [failed], closed by recovery with a finish
    timestamp, and its duration is null. *)
Lemma recovery_leaves_duration_null :
  rtc (step (aps := by_signature)) site site_restarted /\
  exists r, r ∈ runs site_restarted /\ terminal r /\
    r_error_message r = Some "System restarted while running" /\
    is_Some (r_finished_at r) /\ r_duration_seconds r = None.
Proof.
  split.
  - apply (rtc_l _ _ site_launched).
    + apply (step_launch _ "report" at_noon). vm_compute. reflexivity.
    + apply (rtc_l _ _ site_restarted); [apply step_start|apply rtc_refl].
  - exists (mk_run 2 "report" "failed" "2026-03-01T12:00:00" (Some "2026-03-01T13:00:00")
              None None (Some "report/20260301_120000.log")
              (Some "System restarted while running")).
    split; [|split; [right; by left|split; [done|split; [by eexists|done]]]].
    apply list_elem_of_In. vm_compute. right. by left.
Qed.

End RunClaims.

(** ** Claims on triggers and on log reading *)

Lemma interval_kwargs_exact (schedule_config : gmap string value) :
  is_Some (schedule_config !! "seconds") \/ is_Some (schedule_config !! "minutes")
  \/ is_Some (schedule_config !! "hours") ->
  interval_kwargs schedule_config = schedule_config.
Proof.
  intros H. unfold interval_kwargs.
  repeat case_bool_decide; simpl; try done.
  destruct H as [[? H]|[[? H]|[? H]]]; congruence.
Qed.

Lemma interval_kwargs_default (schedule_config : gmap string value) :
  schedule_config !! "seconds" = None -> schedule_config !! "minutes" = None ->
  schedule_config !! "hours" = None ->
  interval_kwargs schedule_config = <["hours" := VInt 1]> schedule_config.
Proof. intros H1 H2 H3. unfold interval_kwargs. by rewrite !bool_decide_eq_true_2. Qed.

(** C4 fails on the code: for an interval schedule that gives only
    [days], [_schedule_job] adds [hours=1] to the arguments of the
    trigger.  When the manifest of the registered job [report] is edited
    to a schedule of one day, the next scan registers a trigger that
    fires every 25 hours (90000 s) where the manifest configures 24
    hours (86400 s); and so for any job and any schedule without
    [seconds], [minutes] and [hours] that [add_job] takes.  The
    configured arguments are registered as they are when [seconds],
    [minutes] or [hours] is among them. *)
Theorem interval_days_only_gets_hourly_default :
  let schedule_config : gmap string value := <["days" := VInt 1]> ∅ in
  let edited :=
    set_disk_jobs site
      (<["report" := <["job.yaml" := mk_file 1772366400 (Yaml daily_manifest)]>
                       report_dir]> ∅) in
  let r := scan_jobs (aps := by_signature) edited clock_noon in
  r.2 = None /\
  scheduler r.1 !! "report"
  = Some (mk_trigger Interval (<["hours" := VInt 1]> schedule_config)) /\
  (interval_period <$> (t_kwargs <$> scheduler r.1 !! "report")) = Some 90000 /\
  interval_period schedule_config = 86400 /\
  (forall (aps : Scheduler) m id cfg,
      cfg !! "seconds" = None -> cfg !! "minutes" = None -> cfg !! "hours" = None ->
      add_job_raises (mk_trigger Interval (<["hours" := VInt 1]> cfg)) = None ->
      _schedule_job m id (VStr "interval") cfg true
      = (set_scheduler m (<[id := mk_trigger Interval (<["hours" := VInt 1]> cfg)]>
                            (delete id (scheduler m))), None)) /\
  (forall (aps : Scheduler) m id cfg,
      is_Some (cfg !! "seconds") \/ is_Some (cfg !! "minutes") \/ is_Some (cfg !! "hours") ->
      add_job_raises (mk_trigger Interval cfg) = None ->
      _schedule_job m id (VStr "interval") cfg true
      = (set_scheduler m (<[id := mk_trigger Interval cfg]> (delete id (scheduler m))),
         None)).
Proof.
  split; [vm_compute; reflexivity|]. split; [vm_compute; reflexivity|].
  split; [vm_compute; reflexivity|]. split; [vm_compute; reflexivity|]. split.
  - intros aps m id cfg H1 H2 H3 Hok. rewrite schedule_job_eq. cbv zeta.
    rewrite bool_decide_eq_false_2 by discriminate.
    by rewrite interval_kwargs_default, Hok.
  - intros aps m id cfg H Hok. rewrite schedule_job_eq. cbv zeta.
    rewrite bool_decide_eq_false_2 by discriminate.
    by rewrite interval_kwargs_exact, Hok.
Qed.

Lemma get_log_content_rejected m log_path :
  Text.startswith (Path.to_str (Path.resolve (logs_dir m)))
    (Path.to_str (Path.resolve (Path.joinpath (logs_dir m) log_path))) = false ->
  get_log_content m log_path = None.
Proof. intros H. unfold get_log_content. by rewrite H. Qed.

(** C2 fails on the code: the test of [get_log_content] compares texts,
    not path parts, so a file of the directory [logs-archive] next to
    the logs root [logs] passes it.  Both the relative path with [..]
    and the absolute path resolve outside the logs root, and both get
    the content of the file back; a path such as [../../etc/passwd],
    whose resolved text does not start with the text of the logs root,
    gets [None]. *)
Theorem get_log_content_reads_sibling_directory :
  let m := site_with_archive in
  let root := Path.resolve (logs_dir m) in
  ~ Path.inside root (Path.resolve (Path.joinpath (logs_dir m) "../logs-archive/keys.txt")) /\
  get_log_content m "../logs-archive/keys.txt" = Some "secret" /\
  ~ Path.inside root (Path.resolve (Path.joinpath (logs_dir m) "/srv/app/logs-archive/keys.txt")) /\
  get_log_content m "/srv/app/logs-archive/keys.txt" = Some "secret" /\
  get_log_content m "../../etc/passwd" = None.
Proof.
  assert (~ ["srv"; "app"; "logs"] `prefix_of` ["srv"; "app"; "logs-archive"; "keys.txt"])
    as Hout.
  { intros [k Hk]. simpl in Hk. discriminate Hk. }
  split; [exact Hout|]. split; [vm_compute; reflexivity|].
  split; [exact Hout|]. split; vm_compute; reflexivity.
Qed.

(** ** The order of ISO texts is the order of time *)

Section IsoOrder.

Import Clock.

Lemma ltb_cons_same c a b : Text.ltb (String c a) (String c b) = Text.ltb a b.
Proof. simpl. by rewrite N.ltb_irrefl, N.eqb_refl. Qed.

Lemma append_assoc (a b c : string) : (a +:+ b) +:+ c = a +:+ (b +:+ c).
Proof.
  induction a as [|x a IH]; [done|].
  change (String x ((a +:+ b) +:+ c) = String x (a +:+ b +:+ c)). by rewrite IH.
Qed.

Lemma append_nil_r (a : string) : a +:+ "" = a.
Proof.
  induction a as [|x a IH]; [done|].
  change (String x (a +:+ "") = String x a). by rewrite IH.
Qed.

Lemma digit_code d : 0 <= d < 10 -> N_of_ascii (digit d) = (48 + Z.to_N d)%N.
Proof.
  intros Hd. unfold digit. apply N_ascii_embedding. lia.
Qed.

Lemma ltb_digit d e s t :
  0 <= d < 10 -> 0 <= e < 10 ->
  Text.ltb (String (digit d) s) (String (digit e) t)
  = if d <? e then true else if d =? e then Text.ltb s t else false.
Proof.
  intros Hd He. cbn [Text.ltb]. rewrite !digit_code by done.
  destruct (d <? e) eqn:Hlt.
  - apply Z.ltb_lt in Hlt. rewrite (proj2 (N.ltb_lt _ _)) by lia. done.
  - apply Z.ltb_ge in Hlt. rewrite (proj2 (N.ltb_ge _ _)) by lia.
    destruct (d =? e) eqn:Heq.
    + apply Z.eqb_eq in Heq. rewrite (proj2 (N.eqb_eq _ _)) by lia. done.
    + apply Z.eqb_neq in Heq. rewrite (proj2 (N.eqb_neq _ _)) by lia. done.
Qed.

Lemma ltb_pad w : forall a b s t,
  0 <= a < 10 ^ Z.of_nat w -> 0 <= b < 10 ^ Z.of_nat w ->
  Text.ltb (pad w a +:+ s) (pad w b +:+ t)
  = if a <? b then true else if a =? b then Text.ltb s t else false.
Proof.
  induction w as [|w IH]; intros a b s t Ha Hb.
  - change (10 ^ Z.of_nat 0) with 1 in *. assert (a = 0) as -> by lia.
    assert (b = 0) as -> by lia. done.
  - rewrite Nat2Z.inj_succ, Z.pow_succ_r in Ha, Hb by lia.
    cbn [pad]. rewrite !append_assoc.
    change (String (digit (a mod 10)) "" +:+ s) with (String (digit (a mod 10)) s).
    change (String (digit (b mod 10)) "" +:+ t) with (String (digit (b mod 10)) t).
    rewrite IH by (split; [apply Z.div_pos; lia|apply Z.div_lt_upper_bound; lia]).
    rewrite ltb_digit by (apply Z.mod_pos_bound; lia).
    pose proof (Z.div_mod a 10 ltac:(lia)) as Hdma.
    pose proof (Z.div_mod b 10 ltac:(lia)) as Hdmb.
    pose proof (Z.mod_pos_bound a 10 ltac:(lia)).
    pose proof (Z.mod_pos_bound b 10 ltac:(lia)).
    repeat match goal with
           | |- context [?x <? ?y] => destruct (Z.ltb_spec x y)
           | |- context [?x =? ?y] => destruct (Z.eqb_spec x y)
           end; try done; lia.
Qed.

Lemma ltb_fraction a b :
  0 <= a <= 999999 -> 0 <= b <= 999999 ->
  Text.ltb (if a =? 0 then "" else "." +:+ pad 6 a) (if b =? 0 then "" else "." +:+ pad 6 b)
  = if a <? b then true else false.
Proof.
  intros Ha Hb. destruct (Z.eqb_spec a 0) as [->|Hna], (Z.eqb_spec b 0) as [->|Hnb].
  - done.
  - rewrite (proj2 (Z.ltb_lt 0 b)) by lia. done.
  - rewrite (proj2 (Z.ltb_ge a 0)) by lia. done.
  - change ("." +:+ pad 6 a) with (String "." (pad 6 a)).
    change ("." +:+ pad 6 b) with (String "." (pad 6 b)).
    rewrite ltb_cons_same, <- (append_nil_r (pad 6 a)), <- (append_nil_r (pad 6 b)).
    rewrite ltb_pad by (change (10 ^ Z.of_nat 6) with 1000000; lia).
    destruct (a <? b); [done|]. by destruct (a =? b).
Qed.

(** For datetimes in range, [isoformat] keeps the order. *)
Lemma isoformat_ltb a b :
  datetime_ok a -> datetime_ok b ->
  Text.ltb (isoformat a) (isoformat b) = dt_ltb a b.
Proof.
  intros (Hy & Hmo & Hd & Hh & Hmi & Hs & Hus) (Hy' & Hmo' & Hd' & Hh' & Hmi' & Hs' & Hus').
  unfold isoformat, dt_ltb, fields. cbn [lex_ltb].
  rewrite ltb_pad by (change (10 ^ Z.of_nat 4) with 10000; lia).
  destruct (year a <? year b); [done|]. destruct (year a =? year b); [|done].
  change ("-" +:+ ?x) with (String "-" x). rewrite ltb_cons_same.
  rewrite ltb_pad by (change (10 ^ Z.of_nat 2) with 100; lia).
  destruct (month a <? month b); [done|]. destruct (month a =? month b); [|done].
  change ("-" +:+ ?x) with (String "-" x). rewrite ltb_cons_same.
  rewrite ltb_pad by (change (10 ^ Z.of_nat 2) with 100; lia).
  destruct (day a <? day b); [done|]. destruct (day a =? day b); [|done].
  change ("T" +:+ ?x) with (String "T" x). rewrite ltb_cons_same.
  rewrite ltb_pad by (change (10 ^ Z.of_nat 2) with 100; lia).
  destruct (hour a <? hour b); [done|]. destruct (hour a =? hour b); [|done].
  change (":" +:+ ?x) with (String ":" x). rewrite ltb_cons_same.
  rewrite ltb_pad by (change (10 ^ Z.of_nat 2) with 100; lia).
  destruct (minute a <? minute b); [done|]. destruct (minute a =? minute b); [|done].
  change (":" +:+ ?x) with (String ":" x). rewrite ltb_cons_same.
  rewrite ltb_pad by (change (10 ^ Z.of_nat 2) with 100; lia).
  destruct (second a <? second b); [done|]. destruct (second a =? second b); [|done].
  rewrite ltb_fraction by done.
  destruct (microsecond a <? microsecond b); [done|]. by destruct (microsecond a =? microsecond b).
Qed.

End IsoOrder.

(** ** Claim on retention *)

Section Retention.

Implicit Types (m : manager) (r : run) (l : list run) (p : list string)
  (fails : list string -> bool).

Lemma ltb_irrefl s : Text.ltb s s = false.
Proof. induction s as [|c s IH]; [done|]. by rewrite ltb_cons_same. Qed.

Lemma unlink_log_eq m fails (files : gmap (list string) string) r :
  unlink_log m fails files r
  = match log_target m r with
    | None => files
    | Some f =>
        match files !! f with
        | None => files
        | Some _ => if fails f then files else delete f files
        end
    end.
Proof. unfold unlink_log, log_target. by destruct (given (r_log_path r)). Qed.

Lemma unlink_log_none m fails (files : gmap (list string) string) r p :
  files !! p = None -> unlink_log m fails files r !! p = None.
Proof.
  intros Hp. rewrite unlink_log_eq. destruct (log_target m r) as [f|]; [|done].
  destruct (files !! f); [|done]. destruct (fails f); [done|].
  apply lookup_delete_None. by right.
Qed.

Lemma unlink_loop_none m fails l (files : gmap (list string) string) p :
  files !! p = None -> foldl (unlink_log m fails) files l !! p = None.
Proof.
  revert files. induction l as [|r l IH]; intros files Hp; [done|].
  simpl. by apply IH, unlink_log_none.
Qed.

Lemma unlink_loop_kept m fails l (files : gmap (list string) string) p :
  (forall r, r ∈ l -> log_target m r <> Some p) \/ fails p = true ->
  foldl (unlink_log m fails) files l !! p = files !! p.
Proof.
  revert files. induction l as [|r l IH]; intros files Hk; [done|].
  simpl. rewrite IH.
  - rewrite unlink_log_eq. destruct (log_target m r) as [f|] eqn:Hf; [|done].
    destruct (files !! f); [|done]. destruct (fails f) eqn:Hu; [done|].
    rewrite lookup_delete_ne; [done|]. intros ->.
    destruct Hk as [Hk|Hk]; [|congruence]. apply (Hk r); [by left|done].
  - destruct Hk as [Hk|Hk]; [left|by right]. intros r' ?. apply Hk. by right.
Qed.

Lemma unlink_loop_gone m fails l (files : gmap (list string) string) r p :
  r ∈ l -> log_target m r = Some p -> fails p = false ->
  foldl (unlink_log m fails) files l !! p = None.
Proof.
  revert files. induction l as [|r' l IH]; intros files Hin Ht Hu.
  - by apply elem_of_nil in Hin.
  - simpl. apply elem_of_cons in Hin as [<-|Hin]; [|by apply IH].
    apply unlink_loop_none. rewrite unlink_log_eq, Ht.
    destruct (files !! p) eqn:Hp; [|done]. rewrite Hu. apply lookup_delete_eq.
Qed.

(** C7: retention cleanup keeps exactly the runs whose start timestamp
    is not strictly older than the cutoff, in the order of the stored
    ISO texts and so, for timestamps in range, in the order of time; a
    run that started exactly at the cutoff is kept.  The log file of a
    deleted run is removed, unless [unlink] fails for it: then the file
    stays, the loop goes on, and the rows are deleted all the same.  No
    other file is touched. *)
Theorem cleanup_old_logs_deletes_strictly_older m now unlink_fails :
  let c := cutoff m now in
  let m' := cleanup_old_logs m now unlink_fails in
  (forall r, r ∈ runs m' <->
             r ∈ runs m /\ Text.ltb (r_started_at r) (Clock.isoformat c) = false) /\
  (forall r d, r ∈ runs m -> r_started_at r = Clock.isoformat d ->
               Clock.datetime_ok d -> Clock.datetime_ok c ->
               (r ∈ runs m' <-> Clock.dt_ltb d c = false)) /\
  (forall r, r ∈ runs m -> r_started_at r = Clock.isoformat c -> r ∈ runs m') /\
  (forall r p, r ∈ runs m -> Text.ltb (r_started_at r) (Clock.isoformat c) = true ->
               log_target m r = Some p ->
               disk_files m' !! p = if unlink_fails p then disk_files m !! p else None) /\
  (forall p, (forall r, r ∈ runs m ->
                        Text.ltb (r_started_at r) (Clock.isoformat c) = true ->
                        log_target m r <> Some p) ->
             disk_files m' !! p = disk_files m !! p) /\
  runs m' = runs (cleanup_old_logs m now (fun _ => false)).
Proof.
  intros c m'.
  assert (forall r, r ∈ runs m' <->
             r ∈ runs m /\ Text.ltb (r_started_at r) (Clock.isoformat c) = false) as Hrows.
  { intros r. unfold m', cleanup_old_logs. simpl. rewrite list_elem_of_filter.
    unfold is_old. fold c. tauto. }
  split; [exact Hrows|]. split; [|split; [|split; [|split]]].
  - intros r d Hin Hd Hok Hokc. rewrite Hrows, Hd, isoformat_ltb by done. tauto.
  - intros r Hin Hc. apply Hrows. split; [done|]. rewrite Hc. apply ltb_irrefl.
  - intros r p Hin Hold Ht. unfold m', cleanup_old_logs. simpl. fold c.
    destruct (unlink_fails p) eqn:Hu.
    + apply unlink_loop_kept. by right.
    + apply (unlink_loop_gone _ _ _ _ r); [|done..].
      apply list_elem_of_filter. by split.
  - intros p Hnone. unfold m', cleanup_old_logs. simpl. fold c.
    apply unlink_loop_kept. left. intros r Hin.
    apply list_elem_of_filter in Hin as [Hold Hin]. by apply Hnone.
  - done.
Qed.

Lemma cleanup_old_logs_deletes_strictly_older_witness :
  legacy_run ∈ runs (cleanup_old_logs site at_boundary (fun _ => false)) /\
  disk_files (cleanup_old_logs site past_boundary (fun _ => false))
    !! ["srv"; "app"; "logs"; "legacy"; "20260227_020000.log"] = None /\
  disk_files (cleanup_old_logs site past_boundary (fun _ => true))
    !! ["srv"; "app"; "logs"; "legacy"; "20260227_020000.log"]
  = Some "=== Job: legacy ===" /\
  runs (cleanup_old_logs site past_boundary (fun _ => true)) = [].
Proof.
  split; [|split; [|split]].
  - apply (proj1 (proj2 (proj2 (cleanup_old_logs_deletes_strictly_older
                                  site at_boundary (fun _ => false))))).
    + apply list_elem_of_here.
    + reflexivity.
  - apply (proj1 (proj2 (proj2 (proj2 (cleanup_old_logs_deletes_strictly_older
                                         site past_boundary (fun _ => false)))))
             legacy_run).
    + apply list_elem_of_here.
    + reflexivity.
    + reflexivity.
  - apply (proj1 (proj2 (proj2 (proj2 (cleanup_old_logs_deletes_strictly_older
                                         site past_boundary (fun _ => true)))))
             legacy_run).
    + apply list_elem_of_here.
    + reflexivity.
    + reflexivity.
  - reflexivity.
Defined.

End Retention.

(** * Further properties of the code *)

(** ** What each operation leaves alone *)

Section MoreFrames.

Implicit Types (m : manager) (id : string).

Lemma get_job_lock_frame m id :
  let m' := _get_job_lock m id in
  jobs m' = jobs m /\ scheduler m' = scheduler m /\ runs m' = runs m /\
  runs_seq m' = runs_seq m /\ disk_jobs m' = disk_jobs m /\
  disk_staging m' = disk_staging m /\ disk_files m' = disk_files m /\
  pending_updates m' = pending_updates m.
Proof. unfold _get_job_lock. by destruct (_job_locks m !! id). Qed.

Lemma run_job_finish_frame m id row run_id now result fin :
  let m' := _run_job_finish m id row run_id now result fin in
  jobs m' = jobs m /\ scheduler m' = scheduler m /\ runs_seq m' = runs_seq m /\
  disk_jobs m' = disk_jobs m /\ disk_staging m' = disk_staging m /\
  pending_updates m' = pending_updates m /\ _job_locks m' = _job_locks m.
Proof.
  unfold _run_job_finish. by destruct (outcome m id row now result) as [[[? ?] ?] ?].
Qed.

Lemma run_job_frame m id now result fin :
  let m' := _run_job m id now result fin in
  jobs m' = jobs m /\ scheduler m' = scheduler m /\
  disk_jobs m' = disk_jobs m /\ disk_staging m' = disk_staging m /\
  pending_updates m' = pending_updates m /\ _job_locks m' = _job_locks m.
Proof.
  unfold _run_job. destruct (jobs m !! id) as [row|]; [|done].
  destruct (negb (j_enabled row)); [done|]. cbn [_run_job_insert].
  match goal with |- context [_run_job_finish ?a ?b ?c ?d ?e ?f ?g] =>
    destruct (run_job_finish_frame a b c d e f g) as (-> & -> & _ & -> & -> & -> & ->) end.
  done.
Qed.

Lemma execute_job_frame m id now result fin :
  let m' := execute_job m id now result fin in
  jobs m' = jobs m /\ scheduler m' = scheduler m /\
  disk_jobs m' = disk_jobs m /\ disk_staging m' = disk_staging m /\
  pending_updates m' = pending_updates m.
Proof.
  unfold execute_job.
  destruct (get_job_lock_frame m id) as (Hj & Hs & _ & _ & Hd & Hst & _ & Hp).
  destruct (bool_decide _); [done|]. cbn [jobs scheduler disk_jobs disk_staging
    pending_updates set_job_locks].
  match goal with |- context [_run_job ?a ?b ?c ?d ?e] =>
    destruct (run_job_frame a b c d e) as (-> & -> & -> & -> & -> & _) end.
  done.
Qed.

Lemma execute_job_launched_frame m id now m' :
  execute_job_launched m id now = Some m' ->
  jobs m' = jobs m /\ scheduler m' = scheduler m /\
  disk_jobs m' = disk_jobs m /\ disk_staging m' = disk_staging m /\
  pending_updates m' = pending_updates m.
Proof.
  unfold execute_job_launched.
  destruct (get_job_lock_frame m id) as (Hj & Hs & _ & _ & Hd & Hst & _ & Hp).
  destruct (bool_decide _); [done|]. cbn [jobs set_job_locks].
  destruct (jobs (_get_job_lock m id) !! id) as [row|]; [|done].
  destruct (negb (j_enabled row)); [done|]. by intros [= <-].
Qed.

Lemma cleanup_old_logs_frame m now fails :
  let m' := cleanup_old_logs m now fails in
  jobs m' = jobs m /\ scheduler m' = scheduler m /\ runs_seq m' = runs_seq m /\
  disk_jobs m' = disk_jobs m /\ disk_staging m' = disk_staging m /\
  pending_updates m' = pending_updates m /\ _job_locks m' = _job_locks m /\
  log_retention_days m' = log_retention_days m /\ logs_dir m' = logs_dir m.
Proof. done. Qed.

Lemma save_job_files_frame m task files job_config stamp :
  let m' := (save_job_files m task files job_config stamp).1 in
  jobs m' = jobs m /\ scheduler m' = scheduler m /\ runs m' = runs m /\
  runs_seq m' = runs_seq m /\ disk_jobs m' = disk_jobs m /\
  disk_files m' = disk_files m /\ _job_locks m' = _job_locks m.
Proof.
  unfold save_job_files. destruct (negb _); [done|]. destruct (_ && _); [done|].
  destruct (save_files _ _ _ _ _) as [[staged hy] [e|]]; done.
Qed.

Lemma promote_frame fault m id :
  let m' := promote fault m id in
  jobs m' = jobs m /\ scheduler m' = scheduler m /\ runs m' = runs m /\
  runs_seq m' = runs_seq m /\ disk_files m' = disk_files m /\
  _job_locks m' = _job_locks m.
Proof.
  unfold promote. destruct (disk_staging m !! id); [|done].
  by destruct (fault id) as [[| |]|].
Qed.

Lemma promote_loop_frame fault l m :
  let m' := foldl (promote fault) m l in
  jobs m' = jobs m /\ scheduler m' = scheduler m /\ runs m' = runs m /\
  runs_seq m' = runs_seq m /\ disk_files m' = disk_files m /\
  _job_locks m' = _job_locks m.
Proof.
  revert m. induction l as [|t l IH]; intros m; [done|]. simpl.
  destruct (IH (promote fault m t)) as (-> & -> & -> & -> & -> & ->).
  apply promote_frame.
Qed.

End MoreFrames.

(** ** The scheduler and the table of jobs *)

Section Triggers.

Context {aps : Scheduler}.
Implicit Types (m : manager) (id : string).

Lemma schedule_job_at m id row :
  scheduler (_schedule_job m id (j_schedule_type row) (j_schedule_config row)
               (j_enabled row)).1 !! id
  = (if j_enabled row
     then match add_job_raises (trigger_of row) with
          | Some _ => None
          | None => Some (trigger_of row)
          end
     else None) /\
  (_schedule_job m id (j_schedule_type row) (j_schedule_config row) (j_enabled row)).2
  = (if j_enabled row then add_job_raises (trigger_of row) else None).
Proof.
  destruct (j_enabled row).
  - destruct (schedule_job_enabled m id (j_schedule_type row) (j_schedule_config row))
      as [He Hs]. by rewrite He, Hs.
  - destruct (schedule_job_disabled m id (j_schedule_type row) (j_schedule_config row))
      as [Hs He]. by rewrite He, Hs.
Qed.

(** What [toggle_job] makes of a job of the table: the flag is flipped
    in the row whether or not scheduling raises afterwards. *)
Lemma toggle_job_at m id now row :
  jobs m !! id = Some row ->
  let row' := mk_job (j_task row) (j_name row) (j_description row)
                (j_schedule_type row) (j_schedule_config row) (j_entry_point row)
                (j_timeout row) (negb (j_enabled row)) (j_yaml_mtime row)
                (j_created_at row) (Clock.isoformat now) in
  (toggle_job m id now).2
  = (if j_enabled row then inr false
     else match add_job_raises (trigger_of row) with
          | Some e => inl e
          | None => inr true
          end) /\
  jobs (toggle_job m id now).1 = <[id := row']> (jobs m) /\
  scheduler (toggle_job m id now).1 !! id
  = (if j_enabled row then None
     else match add_job_raises (trigger_of row) with
          | Some _ => None
          | None => Some (trigger_of row)
          end) /\
  (forall id', id <> id' ->
     scheduler (toggle_job m id now).1 !! id' = scheduler m !! id').
Proof.
  intros Hrow row'. unfold toggle_job. rewrite Hrow.
  pose proof (schedule_job_at (set_jobs m (<[id := row']> (jobs m))) id row') as [Hs He].
  pose proof (schedule_job_jobs (set_jobs m (<[id := row']> (jobs m))) id
                (j_schedule_type row) (j_schedule_config row) (negb (j_enabled row)))
    as Hj.
  pose proof (fun id' => schedule_job_other (set_jobs m (<[id := row']> (jobs m))) id
                (j_schedule_type row) (j_schedule_config row) (negb (j_enabled row)) id')
    as Ho.
  change (trigger_of row') with (trigger_of row) in Hs, He.
  cbn [j_enabled j_schedule_type j_schedule_config row'] in Hs, He.
  destruct (_schedule_job _ _ _ _ _) as [m' raised]. cbn [fst snd] in *.
  subst raised.
  destruct (j_enabled row); cbn [negb] in *;
    [|destruct (add_job_raises (trigger_of row))]; cbn [fst snd];
    rewrite Hs, Hj; (split; [done|split; [done|split; [done|exact Ho]]]).
Qed.

Lemma toggle_job_frame m id now :
  let m' := (toggle_job m id now).1 in
  runs m' = runs m /\ runs_seq m' = runs_seq m /\ disk_jobs m' = disk_jobs m /\
  disk_staging m' = disk_staging m /\ disk_files m' = disk_files m /\
  pending_updates m' = pending_updates m /\ _job_locks m' = _job_locks m.
Proof.
  unfold toggle_job. destruct (jobs m !! id); [|done].
  match goal with |- context [_schedule_job ?a ?b ?c ?d ?e] =>
    pose proof (schedule_job_frame a b c d e)
      as (_ & H1 & H2 & H3 & H4 & H5 & H6 & H7 & _);
    destruct (_schedule_job a b c d e) as [m' [e'|]] end;
    cbn [fst] in *; by rewrite H1, H2, H3, H4, H5, H6, H7.
Qed.

Lemma scan_jobs_sound m clock :
  triggers_sound m -> triggers_sound (scan_jobs m clock).1.
Proof.
  intros Hm id t Ht.
  destruct (scan_jobs_cases clock m id)
    as [(_ & Hj & Hs)|[(_ & Hj & Hs)|(_ & _ & Hj & Hs)]]; rewrite Hj; rewrite Hs in Ht.
  - destruct (scan_one_cases clock m id) as [Heq|(y' & c & _ & _ & _ & Heq)];
      rewrite Heq in Ht |- *.
    + by apply Hm.
    + destruct (jobs m !! id) as [old|] eqn:Hold.
      * destruct (register_job_known m id id (st_mtime y') c (clock id) old Hold)
          as (Hrow & _ & Hsch).
        rewrite Hsch in Ht. rewrite Hrow. eexists. split; [done|].
        cbn [j_enabled]. destruct (j_enabled old); [|done].
        split; [done|]. destruct (add_job_raises _); [done|]. by injection Ht as <-.
      * rewrite register_job_new in Ht |- * by done. cbn [fst] in *.
        destruct (Hm id t Ht) as (row & Hr & _). congruence.
  - by apply Hm.
  - destruct (jobs m !! id) as [row|] eqn:Hrow; [done|].
    destruct (Hm id t Ht) as (row & Hr & _). congruence.
Qed.

Lemma step_sound m m' : step m m' -> triggers_sound m -> triggers_sound m'.
Proof.
  intros Hstep Hm. destruct Hstep.
  - by apply scan_jobs_sound.
  - destruct (jobs m !! id) as [row|] eqn:Hrow.
    + destruct (toggle_job_at m id now row Hrow) as (_ & Hj & Hs & Ho).
      intros id' t Ht. rewrite Hj. destruct (decide (id = id')) as [<-|Hne].
      * rewrite Hs in Ht. rewrite lookup_insert_eq. eexists. split; [done|].
        cbn [j_enabled]. destruct (j_enabled row); [done|].
        split; [done|]. destruct (add_job_raises _); [done|]. by injection Ht as <-.
      * rewrite Ho in Ht by done. rewrite lookup_insert_ne by done. by apply Hm.
    + unfold toggle_job. by rewrite Hrow.
  - destruct (execute_job_frame m id now result finished_at) as (Hj & Hs & _).
    intros id' t. rewrite Hj, Hs. apply Hm.
  - destruct (execute_job_launched_frame m id now m' H) as (Hj & Hs & _).
    intros id' t. rewrite Hj, Hs. apply Hm.
  - destruct (run_job_finish_frame m id row run_id now result finished_at)
      as (Hj & Hs & _).
    intros id' t. cbn [jobs scheduler set_job_locks]. unfold m'. rewrite Hj, Hs. apply Hm.
  - intros id' t Ht. simpl in Ht. by rewrite lookup_empty in Ht.
  - apply Hm.
  - destruct (save_job_files_frame m task files job_config stamp) as (Hj & Hs & _).
    intros id' t. rewrite Hj, Hs. apply Hm.
  - unfold process_pending_updates. destruct (bool_decide _); [done|].
    destruct (negb _); [done|]. apply scan_jobs_sound.
    destruct (promote_loop_frame fault (elements (pending_updates m)) m) as (Hj & Hs & _).
    intros id' t. rewrite Hj, Hs. apply Hm.
  - apply Hm.
Qed.

End Triggers.

(** X1: in every state an installation reaches from one where it holds,
    the scheduler holds a registration only for a job that has a row in
    the table and is enabled, and the registration is the trigger the
    stored schedule of the row describes. *)
Theorem scheduler_holds_only_enabled_jobs {aps : Scheduler} m0 m :
  triggers_sound m0 -> rtc step m0 m ->
  forall id t, scheduler m !! id = Some t ->
    exists row, jobs m !! id = Some row /\ j_enabled row = true /\ t = trigger_of row.
Proof.
  intros H0 Hreach. induction Hreach as [|x y z Hstep _ IH]; [done|].
  apply IH. by apply (step_sound x y).
Qed.

Lemma scheduler_holds_only_enabled_jobs_witness :
  let m := (toggle_job (aps := by_signature)
              (toggle_job (aps := by_signature) site_stopped "report" at_noon).1
              "report" at_one).1 in
  exists row, jobs m !! "report" = Some row /\ j_enabled row = true /\
    mk_trigger Interval (<["minutes" := VInt 30]> ∅) = trigger_of row.
Proof.
  intros m.
  apply (scheduler_holds_only_enabled_jobs (aps := by_signature) site_stopped m).
  - intros id t Ht. simpl in Ht. by rewrite lookup_empty in Ht.
  - apply (rtc_l _ _ (toggle_job (aps := by_signature) site_stopped "report" at_noon).1);
      [apply step_toggle|].
    apply (rtc_l _ _ m); [apply step_toggle|apply rtc_refl].
  - vm_compute. reflexivity.
Defined.

(** ** What a scan does with the manifests it sees *)

Section ScanMore.

Context {aps : Scheduler}.
Implicit Types (m : manager) (id : string).

(** A scan never deletes a row when it is left by an exception, and a
    job that has no row gets none in a turn that raises. *)
Lemma scan_jobs_raised_keeps m clock id :
  (scan_jobs m clock).2 <> None -> is_Some (jobs m !! id) ->
  is_Some (jobs (scan_jobs m clock).1 !! id).
Proof.
  intros Hraised [old Hold].
  destruct (scan_jobs_cases clock m id)
    as [(_ & Hj & _)|[(_ & Hj & _)|(Hok & _)]]; [| |done]; rewrite Hj.
  - destruct (scan_one_cases clock m id) as [->|(y & c & _ & _ & _ & ->)]; [eauto|].
    destruct (register_job_row m id id (st_mtime y) c (clock id) old Hold)
      as (row & -> & _). eauto.
  - eauto.
Qed.

Lemma scan_jobs_new m clock id y c :
  jobs m !! id = None -> manifest_seen m id = Some y -> data y = Yaml c ->
  let r := scan_jobs m clock in
  r.2 <> None /\ jobs r.1 !! id = None /\ scheduler r.1 !! id = scheduler m !! id.
Proof.
  intros Hnew Hseen Hdata r.
  pose proof (scan_jobs_new_raises clock m id y c Hnew Hseen Hdata) as Hraised.
  split; [done|].
  destruct (scan_jobs_cases clock m id)
    as [(_ & Hj & Hs)|[(_ & Hj & Hs)|(Hok & _)]]; [| |done]; unfold r; rewrite Hj, Hs.
  - by rewrite (scan_one_new clock m id y c).
  - done.
Qed.

End ScanMore.

(** X2: a scan cannot register a new job.  For a job that is not in the
    table [register_job] raises the error of SQLite, whatever the
    manifest says, and changes nothing.  So a scan that sees the
    parsable manifest of such a job is left by an exception: the job
    gets no row and no registration, no job of the table loses its row
    (the jobs whose manifests are gone are not removed), and the runs
    and the disk are as before. *)
Theorem scan_jobs_cannot_register_new_manifest {aps : Scheduler} m clock id y c :
  jobs m !! id = None -> manifest_seen m id = Some y -> data y = Yaml c ->
  let r := scan_jobs m clock in
  (forall task mt cfg now,
     register_job m id task mt cfg now
     = (m, Some (OperationalError "13 values for 12 columns"))) /\
  r.2 <> None /\
  jobs r.1 !! id = None /\ scheduler r.1 !! id = scheduler m !! id /\
  (forall id', is_Some (jobs m !! id') -> is_Some (jobs r.1 !! id')) /\
  runs r.1 = runs m /\ disk_jobs r.1 = disk_jobs m.
Proof.
  intros Hnew Hseen Hdata r.
  destruct (scan_jobs_new m clock id y c Hnew Hseen Hdata) as (Hraised & Hj & Hs).
  split; [intros; by apply register_job_new|].
  split; [done|]. split; [done|]. split; [done|].
  split; [intros id'; by apply scan_jobs_raised_keeps|].
  split; apply scan_jobs_frame.
Qed.

Lemma scan_jobs_cannot_register_new_manifest_witness :
  let r := scan_jobs (aps := by_signature) site_with_daily clock_noon in
  r.2 <> None /\ jobs r.1 !! "daily" = None /\ is_Some (jobs r.1 !! "legacy").
Proof.
  destruct (scan_jobs_cannot_register_new_manifest (aps := by_signature) site_with_daily
              clock_noon "daily" (mk_file 1772000000 (Yaml daily_manifest)) daily_manifest)
    as (_ & Hraised & Hj & _ & Hkeep & _); [vm_compute; reflexivity..|].
  split; [exact Hraised|]. split; [exact Hj|]. apply Hkeep.
  refine (bool_decide_unpack _ _). vm_compute. exact I.
Defined.

(** X3: a manifest that does not parse is skipped: the row of the job
    and its trigger registration are what they were before the scan (a
    job that was never registered stays unregistered), and the [runs]
    table is untouched. *)
Theorem scan_jobs_skips_unparsable_manifest {aps : Scheduler} m clock id y s :
  manifest_seen m id = Some y -> data y = Raw s ->
  jobs (scan_jobs m clock).1 !! id = jobs m !! id /\
  scheduler (scan_jobs m clock).1 !! id = scheduler m !! id /\
  runs (scan_jobs m clock).1 = runs m.
Proof.
  intros Hseen Hdata.
  assert (jobs (scan_jobs m clock).1 !! id = jobs m !! id /\
          scheduler (scan_jobs m clock).1 !! id = scheduler m !! id) as [-> ->].
  { destruct (scan_jobs_cases clock m id) as [(_ & Hj & Hs)|[(_ & Hj & Hs)|(_ & Hn & _)]].
    - by rewrite (scan_one_raw clock m id y s) in Hj, Hs.
    - done.
    - congruence. }
  split; [done|split; [done|]]. apply scan_jobs_frame.
Qed.

Lemma scan_jobs_skips_unparsable_manifest_witness :
  let r := scan_jobs (aps := by_signature) site_broken_manifest clock_noon in
  jobs r.1 !! "report" = Some report_row /\ is_Some (scheduler r.1 !! "report").
Proof.
  destruct (scan_jobs_skips_unparsable_manifest (aps := by_signature) site_broken_manifest
              clock_noon "report" (mk_file 1772000000 (Raw "name: [")) "name: [")
    as (Hj & Hs & _); [vm_compute; reflexivity..|].
  cbv zeta. rewrite Hj, Hs. split; [reflexivity|].
  refine (bool_decide_unpack _ _). vm_compute. exact I.
Defined.

(** X4: after a scan that raised nothing the table mirrors the disk:
    every job of the table has a manifest the scanner sees, and every
    manifest it sees and can parse has a row that carries the
    modification time of the manifest; that row was in the table
    before the scan, for a scan that raises nothing has met no new
    job. *)
Theorem scan_jobs_mirrors_disk {aps : Scheduler} m clock :
  (scan_jobs m clock).2 = None ->
  let m' := (scan_jobs m clock).1 in
  (forall id, is_Some (jobs m' !! id) -> is_Some (manifest_seen m' id)) /\
  (forall id y c, manifest_seen m id = Some y -> data y = Yaml c ->
     is_Some (jobs m !! id) /\
     exists row, jobs m' !! id = Some row /\ j_yaml_mtime row = st_mtime y).
Proof.
  intros Hok m'. split.
  - intros id Hsome. unfold m' in *.
    rewrite (manifest_seen_disk (scan_jobs m clock).1 m id) by apply scan_jobs_frame.
    rewrite scan_jobs_lookup in Hsome by done.
    destruct (manifest_seen m id); [eauto|done].
  - intros id y c Hseen Hdata. split.
    + destruct (jobs m !! id) eqn:Hj; [eauto|].
      by destruct (scan_jobs_new_raises clock m id y c).
    + unfold m'. rewrite scan_jobs_lookup, Hseen by done.
      apply (scan_one_row clock m id y c); [done..|]. by apply scan_jobs_ok.
Qed.

Lemma scan_jobs_mirrors_disk_witness :
  let m' := (scan_jobs (aps := by_signature) site clock_noon).1 in
  (forall id, is_Some (jobs m' !! id) -> is_Some (manifest_seen m' id)) /\
  exists row, jobs m' !! "report" = Some row /\ j_yaml_mtime row = 1700000000.
Proof.
  destruct (scan_jobs_mirrors_disk (aps := by_signature) site clock_noon) as [Hall Hrow].
  - vm_compute. reflexivity.
  - split; [exact Hall|].
    destruct (Hrow "report" (mk_file 1700000000 (Yaml report_manifest)) report_manifest)
      as [_ H]; [vm_compute; reflexivity..|]. exact H.
Defined.

(** X5: at the start of the application, a job that is in the table
    with the modification time its manifest still has is left as it is
    by the first scan, and the fresh scheduler gets no registration for
    it: [create_app] registers triggers only for manifests that are new
    or changed. *)
Theorem create_app_leaves_unchanged_job_without_trigger {aps : Scheduler}
    m scan_interval cleanup_hours now clock id row y :
  jobs m !! id = Some row -> manifest_seen m id = Some y ->
  j_yaml_mtime row = st_mtime y -> id ∉ system_ids ->
  let m' := (create_app m scan_interval cleanup_hours now clock).1 in
  jobs m' !! id = Some row /\ scheduler m' !! id = None.
Proof.
  intros Hrow Hseen Hmt Hsys m'. unfold m', create_app.
  set (m1 := set_scheduler (JobManager_init m now) _).
  assert (manifest_seen m1 id = Some y) as Hseen1 by done.
  assert (jobs m1 !! id = Some row) as Hrow1 by done.
  assert (jobs (scan_jobs m1 clock).1 !! id = jobs m1 !! id /\
          scheduler (scan_jobs m1 clock).1 !! id = scheduler m1 !! id) as [-> ->].
  { destruct (scan_jobs_cases clock m1 id) as [(_ & Hj & Hs)|[(_ & Hj & Hs)|(_ & Hn & _)]].
    - by rewrite (scan_one_unchanged clock m1 id row y) in Hj, Hs.
    - done.
    - congruence. }
  split; [done|]. unfold m1, system_jobs. cbn [scheduler set_scheduler].
  unfold system_ids in Hsys.
  rewrite !lookup_insert_ne.
  - simpl. apply lookup_empty.
  - intros <-. apply Hsys. rewrite !elem_of_cons. tauto.
  - intros <-. apply Hsys. rewrite !elem_of_cons. tauto.
  - intros <-. apply Hsys. rewrite !elem_of_cons. tauto.
Qed.

Lemma create_app_leaves_unchanged_job_without_trigger_witness :
  let m' := (create_app (aps := by_signature) site 60 24 at_one clock_noon).1 in
  jobs m' !! "report" = Some report_row /\ scheduler m' !! "report" = None.
Proof.
  apply (create_app_leaves_unchanged_job_without_trigger (aps := by_signature)
           site 60 24 at_one clock_noon
           "report" report_row (mk_file 1700000000 (Yaml report_manifest))).
  - vm_compute. reflexivity.
  - vm_compute. reflexivity.
  - reflexivity.
  - unfold system_ids. rewrite !elem_of_cons, elem_of_nil. intuition discriminate.
Defined.

(** ** Enabling, disabling and running a job *)

Section Running.

Implicit Types (m : manager) (id : string) (r : run).

(** X6: [toggle_job] on a job that is not in the table changes nothing
    and answers [False].  On a job of the table it flips the [enabled]
    flag, and the UPDATE is committed before the scheduler is touched:
    the other columns but [updated_at] stay and no other job is touched.
    Disabling removes the trigger and answers [False].  Enabling
    registers the trigger of the stored schedule and answers [True] when
    [add_job] takes it; when [add_job] refuses it the call raises, and
    the job is left enabled in the table without a trigger.  Toggling
    twice gives back the first flag. *)
Theorem toggle_job_flips_enabled {aps : Scheduler} :
  (forall m id now, jobs m !! id = None -> toggle_job m id now = (m, inr false)) /\
  (forall m id now row, jobs m !! id = Some row ->
     let r := toggle_job m id now in
     r.2 = (if j_enabled row then inr false
            else match add_job_raises (trigger_of row) with
                 | Some e => inl e
                 | None => inr true
                 end) /\
     jobs r.1 !! id
     = Some (mk_job (j_task row) (j_name row) (j_description row) (j_schedule_type row)
               (j_schedule_config row) (j_entry_point row) (j_timeout row)
               (negb (j_enabled row)) (j_yaml_mtime row) (j_created_at row)
               (Clock.isoformat now)) /\
     scheduler r.1 !! id
     = (if j_enabled row then None
        else match add_job_raises (trigger_of row) with
             | Some _ => None
             | None => Some (trigger_of row)
             end) /\
     (forall id', id <> id' ->
        jobs r.1 !! id' = jobs m !! id' /\ scheduler r.1 !! id' = scheduler m !! id') /\
     runs r.1 = runs m) /\
  (forall m id now now' row, jobs m !! id = Some row ->
     j_enabled <$> jobs (toggle_job (toggle_job m id now).1 id now').1 !! id
     = Some (j_enabled row)).
Proof.
  assert (forall m id now row, jobs m !! id = Some row ->
     jobs (toggle_job m id now).1 !! id
     = Some (mk_job (j_task row) (j_name row) (j_description row) (j_schedule_type row)
               (j_schedule_config row) (j_entry_point row) (j_timeout row)
               (negb (j_enabled row)) (j_yaml_mtime row) (j_created_at row)
               (Clock.isoformat now))) as Hflip.
  { intros m id now row Hrow.
    destruct (toggle_job_at m id now row Hrow) as (_ & -> & _).
    apply lookup_insert_eq. }
  split; [|split].
  - intros m id now Hnone. unfold toggle_job. by rewrite Hnone.
  - intros m id now row Hrow r.
    destruct (toggle_job_at m id now row Hrow) as (Hb & Hj & Hs & Ho).
    split; [done|]. split; [by apply Hflip|]. split; [done|]. split.
    + intros id' Hne. unfold r. rewrite Hj, lookup_insert_ne by done.
      split; [done|by apply Ho].
    + apply toggle_job_frame.
  - intros m id now now' row Hrow.
    rewrite (Hflip _ id now' _ (Hflip m id now row Hrow)). simpl.
    by rewrite negb_involutive.
Qed.

Lemma finalize_other run_id status fin d rc em r :
  r_id r <> run_id -> finalize run_id status fin d rc em r = r.
Proof. intros Hne. unfold finalize. by rewrite (proj2 (Z.eqb_neq _ _) Hne). Qed.

Lemma finalize_old_rows run_id status fin d rc em (l : list run) :
  Forall (fun r => r_id r < run_id) l ->
  finalize run_id status fin d rc em <$> l = l.
Proof.
  induction 1 as [|r l Hr _ IH]; [done|].
  rewrite fmap_cons, IH, finalize_other; [done|lia].
Qed.

Lemma run_job_runs m id row now result fin :
  jobs m !! id = Some row -> j_enabled row = true ->
  Forall (fun r => r_id r <= runs_seq m) (runs m) ->
  exists status rc em log,
    outcome (_run_job_insert m id row now).1 id row now result = (status, rc, em, log) /\
    runs (_run_job m id now result fin)
    = runs m ++ [mk_run (runs_seq m + 1) id status (Clock.isoformat now)
                   (Some (Clock.isoformat fin)) (Some (Clock.duration_seconds now fin))
                   rc (Some (relative_log_path row now)) em] /\
    runs_seq (_run_job m id now result fin) = runs_seq m + 1 /\
    disk_files (_run_job m id now result fin)
    = <[log_file m row now := log]> (disk_files m).
Proof.
  intros Hrow Hen Hids. unfold _run_job. rewrite Hrow, Hen. cbn [negb].
  unfold _run_job_finish.
  destruct (_run_job_insert m id row now) as [m1 run_id] eqn:Hins.
  unfold _run_job_insert in Hins. injection Hins as <- <-. cbn [fst].
  match goal with |- context [outcome ?a ?b ?c ?d ?e] =>
    destruct (outcome a b c d e) as [[[st rc] em] log] end.
  exists st, rc, em, log. split; [done|]. simpl. split; [|done].
  rewrite fmap_app, finalize_old_rows.
  - simpl. unfold finalize. simpl. by rewrite Z.eqb_refl.
  - eapply Forall_impl; [exact Hids|]. simpl. intros; lia.
Qed.

(** X7: [execute_job] on a job whose lock is held returns without any
    change.  Otherwise the lock of the job is free again when it
    returns and no other lock is touched; for a job that is unknown or
    disabled the [runs] table and the files stay as they are; for an
    enabled job, in a table whose identifiers do not exceed the
    AUTOINCREMENT counter, exactly one row is appended: it carries the
    next identifier, the job, a terminal status, and the rows before it
    are unchanged. *)
Theorem execute_job_runs_at_most_once m id now result fin :
  (_job_locks m !! id = Some true -> execute_job m id now result fin = m) /\
  (_job_locks m !! id <> Some true ->
   let m' := execute_job m id now result fin in
   _job_locks m' !! id = Some false /\
   (forall id', id <> id' -> _job_locks m' !! id' = _job_locks m !! id') /\
   ((jobs m !! id = None \/ j_enabled <$> jobs m !! id = Some false) ->
    runs m' = runs m /\ disk_files m' = disk_files m) /\
   (j_enabled <$> jobs m !! id = Some true ->
    Forall (fun r => r_id r <= runs_seq m) (runs m) ->
    exists r, runs m' = runs m ++ [r] /\ r_id r = runs_seq m + 1 /\
              r_job_id r = id /\ terminal r /\ runs_seq m' = runs_seq m + 1)).
Proof.
  split.
  - intros Hheld. unfold execute_job, _get_job_lock. rewrite Hheld.
    by rewrite bool_decide_eq_true_2.
  - intros Hfree m'. unfold m', execute_job.
    assert (_job_locks (_get_job_lock m id) !! id <> Some true) as Hfree0.
    { unfold _get_job_lock. destruct (_job_locks m !! id) eqn:Hl; [by rewrite Hl|].
      simpl. by rewrite lookup_insert_eq. }
    rewrite bool_decide_eq_false_2 by done.
    set (m1 := set_job_locks (_get_job_lock m id)
                 (<[id := true]> (_job_locks (_get_job_lock m id)))).
    destruct (run_job_frame m1 id now result fin) as (_ & _ & _ & _ & _ & Hlocks).
    destruct (get_job_lock_frame m id) as (Hj & _ & Hr & Hseq & _ & _ & Hf & _).
    assert (jobs m1 = jobs m) as Hj1 by exact Hj.
    assert (runs m1 = runs m) as Hr1 by exact Hr.
    assert (runs_seq m1 = runs_seq m) as Hs1 by exact Hseq.
    assert (disk_files m1 = disk_files m) as Hf1 by exact Hf.
    cbn [_job_locks runs disk_files runs_seq set_job_locks].
    split; [apply lookup_insert_eq|]. split; [|split].
    + intros id' Hne. rewrite lookup_insert_ne, Hlocks by done. unfold m1.
      cbn [_job_locks set_job_locks]. rewrite lookup_insert_ne by done.
      unfold _get_job_lock. destruct (_job_locks m !! id) eqn:Hl; [done|].
      simpl. by rewrite lookup_insert_ne.
    + intros Hno. unfold _run_job. rewrite Hj1.
      destruct (jobs m !! id) as [row|]; [|done].
      destruct Hno as [?|Hdis]; [done|]. injection Hdis as ->. done.
    + intros Hen Hids. destruct (jobs m !! id) as [row|] eqn:Hrow; [|done].
      injection Hen as Hen.
      destruct (run_job_runs m1 id row now result fin) as (st & rc & em & log & Hout & -> & -> & _).
      { by rewrite Hj1. } { done. } { by rewrite Hr1, Hs1. }
      rewrite Hr1, Hs1. eexists. split; [done|]. simpl.
      pose proof (outcome_status (_run_job_insert m1 id row now).1 id row now result) as Hst.
      rewrite Hout in Hst. done.
Qed.

Lemma execute_job_runs_at_most_once_witness :
  let busy := set_job_locks site (<["report" := true]> ∅) in
  execute_job busy "report" at_noon (Completed 0 "" "") at_one = busy /\
  exists r, runs (execute_job site "report" at_noon (Completed 0 "" "") at_one)
            = [legacy_run; r] /\ r_id r = 2 /\ terminal r.
Proof.
  intros busy. split.
  - apply (proj1 (execute_job_runs_at_most_once busy "report" at_noon
                    (Completed 0 "" "") at_one)).
    vm_compute. reflexivity.
  - destruct (proj2 (execute_job_runs_at_most_once site "report" at_noon
                       (Completed 0 "" "") at_one)) as (_ & _ & _ & Hrun).
    + vm_compute. discriminate.
    + destruct Hrun as (r & Hr & Hid & _ & Ht & _).
      * vm_compute. reflexivity.
      * repeat constructor. simpl. lia.
      * exists r. split; [exact Hr|split; [exact Hid|exact Ht]].
Defined.

(** X8: the run that [_run_job] finalizes after a timeout has status
    [timeout], no return code, and the message that names the timeout
    of the job; after any other exception it has status [failed], no
    return code, and the first 500 characters of the text of the
    exception.  The message of a failed run is never longer than 500
    characters. *)
Theorem run_job_records_timeout_and_errors m id row now fin :
  jobs m !! id = Some row -> j_enabled row = true ->
  (forall stdout stderr, exists r,
      last (runs (_run_job m id now (TimeoutExpired stdout stderr) fin)) = Some r /\
      r_status r = "timeout" /\ r_return_code r = None /\
      r_error_message r
      = Some ("Timed out after " +:+ pretty (j_timeout row) +:+ " seconds")) /\
  (forall msg, exists r,
      last (runs (_run_job m id now (OtherError msg) fin)) = Some r /\
      r_status r = "failed" /\ r_return_code r = None /\
      r_error_message r = Some (Text.take 500 msg)) /\
  (forall result r text,
      last (runs (_run_job m id now result fin)) = Some r ->
      r_status r = "failed" -> r_error_message r = Some text ->
      (String.length text <= 500)%nat).
Proof.
  intros Hrow Hen. split; [|split].
  - intros out err.
    destruct (run_job_last m id row now (TimeoutExpired out err) fin Hrow Hen)
      as (st & rc & em & log & Hout & Hlast).
    simpl in Hout. injection Hout as <- <- <- _. eexists. split; [exact Hlast|done].
  - intros msg.
    destruct (run_job_last m id row now (OtherError msg) fin Hrow Hen)
      as (st & rc & em & log & Hout & Hlast).
    simpl in Hout. injection Hout as <- <- <- _. eexists. split; [exact Hlast|done].
  - intros result r text Hlast Hst Hem.
    destruct (run_job_last m id row now result fin Hrow Hen)
      as (st & rc & em & log & Hout & Hlast').
    rewrite Hlast' in Hlast. injection Hlast as <-. simpl in Hst, Hem. subst st em.
    destruct result as [code out err| |msg]; simpl in Hout.
    + destruct (code =? 0); [done|]. injection Hout as _ <- _.
      destruct (take_prefix 500 (Text.or_else err (Text.or_else out ""))) as (? & _ & ->).
      lia.
    + done.
    + injection Hout as _ <- _.
      destruct (take_prefix 500 msg) as (? & _ & ->). lia.
Qed.

Lemma run_job_records_timeout_and_errors_witness :
  exists r,
    last (runs (_run_job site "report" at_noon (TimeoutExpired None None) at_one)) = Some r /\
    r_status r = "timeout" /\
    r_error_message r = Some "Timed out after 600 seconds".
Proof.
  destruct (proj1 (run_job_records_timeout_and_errors site "report" report_row
                     at_noon at_one ltac:(vm_compute; reflexivity) eq_refl) None None)
    as (r & Hl & Hs & _ & Hm).
  exists r. split; [exact Hl|split; [exact Hs|]]. rewrite Hm. vm_compute. reflexivity.
Defined.

End Running.

Lemma toggle_job_flips_enabled_witness :
  let off := toggle_job (aps := by_signature) site "report" at_noon in
  off.2 = inr false /\ scheduler off.1 !! "report" = None /\
  (toggle_job (aps := by_signature) off.1 "report" at_one).2 = inr true.
Proof.
  destruct (toggle_job_flips_enabled (aps := by_signature)) as (_ & Hone & _).
  destruct (Hone site "report" at_noon report_row) as (Hb & Hj & Hs & _);
    [vm_compute; reflexivity|].
  destruct (Hone _ "report" at_one _ Hj) as (Hb2 & _).
  split; [exact Hb|split; [exact Hs|exact Hb2]].
Defined.


(** ** The identifiers of the runs *)

Section RunIds.

Context {aps : Scheduler}.
Implicit Types (m : manager) (r : run) (l : list run).

Lemma ids_ok_same m m' :
  runs m' = runs m -> runs_seq m' = runs_seq m -> run_ids_ok m -> run_ids_ok m'.
Proof. unfold run_ids_ok. by intros -> ->. Qed.

Lemma ids_ok_map (f : run -> run) m m' :
  (forall r, r_id (f r) = r_id r) ->
  runs m' = f <$> runs m -> runs_seq m' = runs_seq m -> run_ids_ok m -> run_ids_ok m'.
Proof.
  intros Hf Hr Hs [Hsorted Hle]. unfold run_ids_ok. rewrite Hr, Hs. split.
  - rewrite <- list_fmap_compose.
    rewrite (list_fmap_ext (r_id ∘ f) r_id (runs m)); [done|]. intros. apply Hf.
  - apply Forall_fmap. eapply Forall_impl; [exact Hle|]. intros r. simpl. by rewrite Hf.
Qed.

Lemma ids_ok_snoc m m' r :
  runs m' = runs m ++ [r] -> r_id r = runs_seq m + 1 -> runs_seq m' = runs_seq m + 1 ->
  run_ids_ok m -> run_ids_ok m'.
Proof.
  intros Hr Hid Hs [Hsorted Hle]. unfold run_ids_ok. rewrite Hr, Hs, fmap_app. split.
  - apply StronglySorted_app_2; [|done|repeat constructor].
    intros x1 x2 Hx1 Hx2. apply list_elem_of_fmap in Hx1 as (r1 & -> & Hin).
    apply list_elem_of_singleton in Hx2 as ->. simpl. rewrite Hid.
    pose proof (proj1 (Forall_forall _ _) Hle r1 Hin). simpl in *. lia.
  - apply Forall_app. split.
    + eapply Forall_impl; [exact Hle|]. simpl. intros; lia.
    + apply Forall_singleton. lia.
Qed.

Lemma sorted_ids_filter (P : run -> Prop) `{!forall r, Decision (P r)} l :
  StronglySorted Z.lt (r_id <$> l) -> StronglySorted Z.lt (r_id <$> filter P l).
Proof.
  induction l as [|r l IH]; [done|]. rewrite fmap_cons, StronglySorted_cons.
  intros [Hall Hs]. rewrite filter_cons. destruct (decide (P r)); [|by apply IH].
  rewrite fmap_cons, StronglySorted_cons. split; [|by apply IH].
  apply Forall_forall. intros x Hx. apply list_elem_of_fmap in Hx as (r' & -> & Hin).
  apply list_elem_of_filter in Hin as [_ Hin].
  apply (proj1 (Forall_forall _ _) Hall). by apply list_elem_of_fmap_2.
Qed.

Lemma run_job_ids_ok m id now result fin :
  run_ids_ok m -> run_ids_ok (_run_job m id now result fin).
Proof.
  intros Hok. destruct (jobs m !! id) as [row|] eqn:Hrow.
  - destruct (j_enabled row) eqn:Hen.
    + destruct (run_job_runs m id row now result fin Hrow Hen (proj2 Hok))
        as (st & rc & em & log & _ & Hr & Hs & _).
      by eapply ids_ok_snoc.
    + unfold _run_job. by rewrite Hrow, Hen.
  - unfold _run_job. by rewrite Hrow.
Qed.

Lemma step_ids_ok m m' : step m m' -> run_ids_ok m -> run_ids_ok m'.
Proof.
  intros Hstep Hok. destruct Hstep.
  - eapply ids_ok_same; [..|exact Hok]; apply scan_jobs_frame.
  - eapply ids_ok_same; [..|exact Hok]; apply toggle_job_frame.
  - unfold execute_job. destruct (bool_decide _).
    + eapply ids_ok_same; [..|exact Hok]; apply get_job_lock_frame.
    + set (m1 := set_job_locks (_get_job_lock m id)
                   (<[id := true]> (_job_locks (_get_job_lock m id)))).
      apply (ids_ok_same (_run_job m1 id now result finished_at)); [done..|].
      apply run_job_ids_ok.
      eapply (ids_ok_same m); [..|exact Hok]; apply (get_job_lock_frame m id).
  - unfold execute_job_launched in H. destruct (bool_decide _); [done|].
    cbn [jobs set_job_locks] in H.
    destruct (jobs (_get_job_lock m id) !! id) as [row|]; [|done].
    destruct (negb (j_enabled row)); [done|]. injection H as <-.
    eapply (ids_ok_snoc m); [..|exact Hok]; cbn [fst _run_job_insert runs runs_seq
      set_runs set_runs_seq set_job_locks].
    + by destruct (get_job_lock_frame m id) as (_ & _ & -> & _).
    + simpl. by destruct (get_job_lock_frame m id) as (_ & _ & _ & -> & _).
    + by destruct (get_job_lock_frame m id) as (_ & _ & _ & -> & _).
  - destruct (run_job_finish_runs m id row run_id now result finished_at)
      as (st & rc & em & Hr).
    eapply (ids_ok_map (finalize run_id st (Clock.isoformat finished_at)
                          (Clock.duration_seconds now finished_at) rc em) m);
      [..|exact Hok].
    + intros r. unfold finalize. by destruct (r_id r =? run_id).
    + exact Hr.
    + apply (run_job_finish_frame m id row run_id now result finished_at).
  - eapply (ids_ok_map (mark_stale now) m); [..|exact Hok]; [|done..].
    intros r. unfold mark_stale. by case_bool_decide.
  - destruct Hok as [Hsorted Hle]. split.
    + by apply sorted_ids_filter.
    + apply Forall_forall. intros r Hin. apply list_elem_of_filter in Hin as [_ Hin].
      by apply (proj1 (Forall_forall _ _) Hle).
  - eapply ids_ok_same; [..|exact Hok]; apply save_job_files_frame.
  - unfold process_pending_updates. destruct (bool_decide _); [done|].
    destruct (negb _); [done|].
    eapply ids_ok_same; [apply scan_jobs_frame..|].
    eapply ids_ok_same; [..|exact Hok]; apply promote_loop_frame.
  - done.
Qed.

End RunIds.

(** X9: in every state an installation reaches from an empty [runs]
    table, the identifiers of the runs grow strictly along the table,
    so no two runs share an identifier, and none exceeds the counter
    that hands out the next one. *)
Theorem run_ids_are_unique_and_growing {aps : Scheduler} m0 m :
  runs m0 = [] -> rtc step m0 m ->
  StronglySorted Z.lt (r_id <$> runs m) /\ NoDup (r_id <$> runs m) /\
  Forall (fun r => r_id r <= runs_seq m) (runs m).
Proof.
  intros Hempty Hreach.
  assert (run_ids_ok m) as [Hs Hle].
  { assert (run_ids_ok m0) as H0.
    { unfold run_ids_ok. rewrite Hempty. split; constructor. }
    clear Hempty. induction Hreach as [|x y z Hstep _ IH]; [done|].
    apply IH. by apply (step_ids_ok x y). }
  split; [done|split; [|done]].
  clear Hle. induction (r_id <$> runs m) as [|x l IH]; [constructor|].
  apply StronglySorted_cons in Hs as [Hall Hs]. constructor; [|by apply IH].
  intros Hin. pose proof (proj1 (Forall_forall _ _) Hall x Hin). lia.
Qed.

Lemma run_ids_are_unique_and_growing_witness :
  let m := execute_job (execute_job site_new "report" at_noon (Completed 0 "" "") at_one)
             "legacy" at_one (OtherError "no uv") at_one in
  r_id <$> runs m = [1; 2] /\ NoDup (r_id <$> runs m).
Proof.
  intros m. split; [vm_compute; reflexivity|].
  apply (run_ids_are_unique_and_growing (aps := by_signature) site_new m).
  - reflexivity.
  - apply (rtc_l _ _ (execute_job site_new "report" at_noon (Completed 0 "" "") at_one));
      [apply step_execute|].
    apply (rtc_l _ _ m); [apply step_execute|apply rtc_refl].
Defined.

(** ** The queries of the dashboard *)

#[local] Instance newer_trans : Transitive newer.
Proof. intros a b c. unfold newer. lia. Qed.

#[local] Instance newer_total : Total newer.
Proof. intros a b. unfold newer. lia. Qed.

Section Queries.

Implicit Types (m : manager) (r : run) (l : list run).

Lemma wanted_spec job_id status r :
  wanted job_id status r = true <->
  (forall j, job_id = Some j -> j <> "" -> r_job_id r = j) /\
  (forall s, status = Some s -> s <> "" -> r_status r = s).
Proof.
  assert (forall (x : option string) (v : string),
            matches x v = true <-> (forall j, x = Some j -> j <> "" -> v = j)) as Hm.
  { intros x v. unfold matches, given. destruct x as [j|]; [|by split].
    destruct j as [|c j]; simpl.
    - split; [|done]. intros _ j' [= <-] Hne. done.
    - rewrite bool_decide_eq_true. split.
      + by intros -> j' [= <-] _.
      + intros H. by apply H. }
  unfold wanted. rewrite andb_true_iff, !Hm. done.
Qed.

(** X10: [get_runs] answers rows of the [runs] table that meet the
    filters given (an absent or empty filter lets every row through),
    newest first by identifier, each with the name of its job, or none
    when the job is no longer in the table.  With a limit that is not
    negative it answers at most that many rows; with a negative limit,
    or one the matching rows do not exceed, it answers every matching
    row. *)
Theorem get_runs_answers_newest_matching_rows m job_id status limit :
  let answer := get_runs m job_id status limit in
  StronglySorted newer answer.*1 /\
  (forall r name, (r, name) ∈ answer ->
     r ∈ runs m /\ wanted job_id status r = true /\
     name = (j_name <$> jobs m !! r_job_id r)) /\
  (0 <= limit -> (length answer <= Z.to_nat limit)%nat) /\
  (limit < 0 \/
   (length (filter (fun r => wanted job_id status r = true) (runs m)) <= Z.to_nat limit)%nat ->
   forall r, r ∈ runs m -> wanted job_id status r = true -> r ∈ answer.*1).
Proof.
  intros answer.
  set (sorted := merge_sort newer (filter (fun r => wanted job_id status r = true) (runs m))).
  assert (StronglySorted newer sorted) as Hsorted by apply (StronglySorted_merge_sort _).
  assert (forall r, r ∈ sorted <-> r ∈ runs m /\ wanted job_id status r = true) as Hin.
  { intros r. unfold sorted. rewrite merge_sort_Permutation, list_elem_of_filter. tauto. }
  assert (answer.*1 = if limit <? 0 then sorted else take (Z.to_nat limit) sorted) as Hrows.
  { apply get_runs_rows. }
  split; [|split; [|split]].
  - rewrite Hrows. destruct (limit <? 0); [done|].
    apply (StronglySorted_app_1_l _ _ (drop (Z.to_nat limit) sorted)).
    by rewrite take_drop.
  - intros r name Hr.
    assert (r ∈ answer.*1) as Hr1 by (by apply (list_elem_of_fmap_2 fst _ (r, name))).
    unfold answer, get_runs in Hr. apply list_elem_of_fmap in Hr as (r' & [= -> ->] & _).
    rewrite Hrows in Hr1.
    assert (r' ∈ sorted) as Hs.
    { destruct (limit <? 0); [done|]. apply elem_of_take in Hr1 as (i & Hi & _).
      by eapply list_elem_of_lookup_2. }
    apply Hin in Hs. tauto.
  - intros Hlim. rewrite <- (length_fmap fst), Hrows.
    rewrite (proj2 (Z.ltb_ge _ _) Hlim), length_take. lia.
  - intros Hall r Hr Hw. rewrite Hrows.
    assert (r ∈ sorted) as Hs by (by apply Hin).
    destruct (Z.ltb_spec limit 0) as [|Hge]; [done|].
    destruct Hall as [?|Hlen]; [lia|].
    rewrite take_ge; [done|]. unfold sorted. by rewrite merge_sort_Permutation.
Qed.

Lemma get_runs_answers_newest_matching_rows_witness :
  legacy_run ∈ (get_runs site (Some "legacy") (Some "") 50).*1.
Proof.
  apply (proj2 (proj2 (proj2 (get_runs_answers_newest_matching_rows site
                                (Some "legacy") (Some "") 50)))).
  - right. vm_compute. lia.
  - apply list_elem_of_here.
  - reflexivity.
Defined.

Lemma running_count_idle m : running_count m = 0%nat <-> is_system_idle m = true.
Proof.
  unfold running_count, is_system_idle.
  induction (map_to_list (_job_locks m)) as [|[k b] l IH]; [done|].
  rewrite filter_cons. destruct b; simpl.
  - split; [lia|done].
  - exact IH.
Qed.

(** X11: [get_system_status] reports [running] exactly when some lock
    is held, [updating] exactly when no lock is held and an update is
    pending, and [idle] otherwise; the pending count is the size of the
    pending set.  [process_pending_updates] changes the state only in a
    state reported as [updating]. *)
Theorem get_system_status_reports_locks_and_pending {aps : Scheduler} m :
  let '(status, running, pending) := get_system_status m in
  (status = "running" <-> exists id, _job_locks m !! id = Some true) /\
  (status = "updating" <->
     (forall id, _job_locks m !! id <> Some true) /\ pending_updates m <> ∅) /\
  (status = "idle" <->
     (forall id, _job_locks m !! id <> Some true) /\ pending_updates m = ∅) /\
  (running = 0%nat <-> forall id, _job_locks m !! id <> Some true) /\
  pending = size (pending_updates m) /\
  (status <> "updating" ->
   forall fault clock, process_pending_updates m fault clock = (m, None)).
Proof.
  unfold get_system_status.
  pose proof (running_count_idle m) as Hrc.
  pose proof (is_system_idle_spec m) as Hidle.
  assert ((exists id, _job_locks m !! id = Some true) <-> is_system_idle m = false) as Hbusy.
  { split.
    - intros [id Hid]. destruct (is_system_idle m) eqn:Hi; [|done].
      by destruct (proj1 Hidle eq_refl id).
    - intros Hi. unfold is_system_idle in Hi.
      assert (exists kv, kv ∈ map_to_list (_job_locks m) /\ kv.2 = true) as ([k b] & Hin & Hb).
      { induction (map_to_list (_job_locks m)) as [|[k b] l IH]; [done|].
        simpl in Hi. destruct b; simpl in Hi.
        - exists (k, true). split; [by left|done].
        - destruct (IH Hi) as (kv & Hin & Hb). exists kv. split; [by right|done]. }
      simpl in Hb. subst b. exists k. by apply elem_of_map_to_list. }
  destruct (Nat.ltb_spec 0 (running_count m)) as [Hpos|Hzero].
  - assert (is_system_idle m = false) as Hi.
    { apply not_true_iff_false. intros Hi. apply (proj2 Hrc) in Hi. lia. }
    assert (~ forall id, _job_locks m !! id <> Some true) as Hn.
    { intros H. apply Hidle in H. congruence. }
    split; [by rewrite Hbusy|]. split; [split; [done|tauto]|].
    split; [split; [done|tauto]|]. split; [split; [lia|tauto]|]. split; [done|].
    intros _ fault clock. unfold process_pending_updates.
    destruct (bool_decide _); [done|]. by rewrite Hi.
  - assert (is_system_idle m = true) as Hi by (apply Hrc; lia).
    assert (forall id, _job_locks m !! id <> Some true) as Hfree by (by apply Hidle).
    assert (~ exists id, _job_locks m !! id = Some true) as Hnb.
    { rewrite Hbusy. congruence. }
    case_bool_decide as Hp.
    + split; [split; [done|tauto]|]. split; [split; [done|tauto]|].
      split; [tauto|]. split; [split; [done|lia]|]. split; [done|].
      intros _ fault clock. unfold process_pending_updates.
      by rewrite bool_decide_eq_true_2.
    + split; [split; [done|tauto]|]. split; [tauto|].
      split; [split; [done|tauto]|]. split; [split; [done|lia]|]. split; [done|]. done.
Qed.

End Queries.

Section JobList.

Implicit Types (m : manager) (r : run).

Lemma text_ltb_trichotomy a : forall b,
  (Text.ltb a b = true /\ Text.ltb b a = false) \/ (a = b /\ Text.ltb a b = false)
  \/ (Text.ltb a b = false /\ Text.ltb b a = true).
Proof.
  induction a as [|x a IH]; intros [|y b]; simpl; [tauto..|].
  destruct (N.ltb_spec (N_of_ascii x) (N_of_ascii y)),
           (N.ltb_spec (N_of_ascii y) (N_of_ascii x)),
           (N.eqb_spec (N_of_ascii x) (N_of_ascii y)),
           (N.eqb_spec (N_of_ascii y) (N_of_ascii x)); try lia; try tauto.
  assert (x = y) as -> by (rewrite <- (ascii_N_embedding x), <- (ascii_N_embedding y);
                           congruence).
  destruct (IH b) as [?|[[-> ?]|?]]; tauto.
Qed.

Lemma text_ltb_trans a : forall b c,
  Text.ltb a b = true -> Text.ltb b c = true -> Text.ltb a c = true.
Proof.
  induction a as [|x a IH]; intros [|y b] [|z c]; simpl; try done.
  destruct (N.ltb_spec (N_of_ascii x) (N_of_ascii y)),
           (N.ltb_spec (N_of_ascii y) (N_of_ascii z)),
           (N.ltb_spec (N_of_ascii x) (N_of_ascii z)),
           (N.eqb_spec (N_of_ascii x) (N_of_ascii y)),
           (N.eqb_spec (N_of_ascii y) (N_of_ascii z)),
           (N.eqb_spec (N_of_ascii x) (N_of_ascii z)); try lia; try done.
  apply IH.
Qed.

#[local] Instance by_task_total : Total by_task.
Proof.
  intros a b. unfold by_task, Text.leb.
  destruct (text_ltb_trichotomy (j_task a.2) (j_task b.2)) as [[-> ->]|[[_ ->]|[-> ->]]];
    simpl; tauto.
Qed.

#[local] Instance by_task_trans : Transitive by_task.
Proof.
  intros a b c. unfold by_task, Text.leb. rewrite !negb_true_iff.
  intros Hba Hcb. destruct (Text.ltb (j_task c.2) (j_task a.2)) eqn:Hca; [|done].
  destruct (text_ltb_trichotomy (j_task b.2) (j_task c.2)) as [[Hbc _]|[[Heq _]|[_ Hcb']]].
  - pose proof (text_ltb_trans _ _ _ Hbc Hca). congruence.
  - rewrite <- Heq in Hca. congruence.
  - congruence.
Qed.

Lemma latest_run_spec m id :
  match latest_run m id with
  | Some r => r ∈ runs m /\ r_job_id r = id /\
              forall r', r' ∈ runs m -> r_job_id r' = id -> r_id r' <= r_id r
  | None => forall r', r' ∈ runs m -> r_job_id r' <> id
  end.
Proof.
  unfold latest_run.
  set (mine := filter (fun r => r_job_id r = id) (runs m)).
  assert (forall r, r ∈ merge_sort newer mine <-> r ∈ runs m /\ r_job_id r = id) as Hin.
  { intros r. unfold mine. rewrite merge_sort_Permutation, list_elem_of_filter. tauto. }
  pose proof (StronglySorted_merge_sort newer mine) as Hsorted.
  destruct (merge_sort newer mine) as [|r tl]; simpl.
  - intros r' Hr' Hid. assert (r' ∈ @nil run) as Hnil by (by apply Hin).
    by apply elem_of_nil in Hnil.
  - destruct (proj1 (Hin r) ltac:(by left)) as [Hr Hid].
    split; [done|split; [done|]]. intros r' Hr' Hid'.
    assert (r' ∈ r :: tl) as Hmem by (by apply Hin).
    apply StronglySorted_cons in Hsorted as [Hall _].
    apply elem_of_cons in Hmem as [->|Hmem]; [lia|].
    apply (proj1 (Forall_forall _ _) Hall r' Hmem).
Qed.

(** X12: [get_jobs] answers one entry for every job of the table, with
    its row, in the order of the task names.  The entry shows the status,
    the start and the duration of the run of the job with the greatest
    identifier, or nothing when the job never ran, and [-] as next run
    time when the scheduler holds no registration for the job. *)
Theorem get_jobs_lists_every_job_with_its_latest_run m next_run_time :
  let answer := get_jobs m next_run_time in
  (fun s => (s_id s, s_row s)) <$> answer ≡ₚ map_to_list (jobs m) /\
  StronglySorted (fun a b => Text.leb (j_task (s_row a)) (j_task (s_row b)) = true) answer /\
  (forall s, s ∈ answer ->
     jobs m !! s_id s = Some (s_row s) /\
     (scheduler m !! s_id s = None -> s_next_run s = "-") /\
     match latest_run m (s_id s) with
     | Some r =>
         s_last_status s = Some (r_status r) /\ s_last_run s = Some (r_started_at r) /\
         s_last_duration s = r_duration_seconds r /\
         r ∈ runs m /\ r_job_id r = s_id s /\
         forall r', r' ∈ runs m -> r_job_id r' = s_id s -> r_id r' <= r_id r
     | None =>
         s_last_status s = None /\ s_last_run s = None /\ s_last_duration s = None /\
         forall r', r' ∈ runs m -> r_job_id r' <> s_id s
     end).
Proof.
  intros answer. unfold answer, get_jobs. split; [|split].
  - rewrite <- list_fmap_compose.
    rewrite (list_fmap_ext _ id (merge_sort by_task (map_to_list (jobs m)))).
    + by rewrite list_fmap_id, merge_sort_Permutation.
    + by intros ? [k v] ?.
  - apply (StronglySorted_fmap _ by_task); [by intros [? ?] [? ?]|].
    apply (StronglySorted_merge_sort _).
  - intros s Hs. apply list_elem_of_fmap in Hs as ([k row] & -> & Hin).
    rewrite merge_sort_Permutation in Hin. apply elem_of_map_to_list in Hin.
    cbn [s_id s_row s_next_run s_last_status s_last_run s_last_duration fst snd].
    split; [done|]. split; [by intros ->|].
    pose proof (latest_run_spec m k) as Hl.
    destruct (latest_run m k) as [r|]; simpl; tauto.
Qed.

End JobList.

(** ** Failure count, retention and recovery *)

Section Housekeeping.

Implicit Types (m : manager) (r : run) (l : list run).

Lemma outcome_ends_badly m id row now result :
  let '(status, _, _, _) := outcome m id row now result in
  bool_decide (status = "failed") || bool_decide (status = "timeout") = ends_badly result.
Proof. destruct result as [rc out err| |]; simpl; [by destruct (rc =? 0)|done..]. Qed.

(** X13: [get_failure_count] never exceeds the number of runs.  A run
    of an enabled job raises the count measured at [now] by one when it
    ends failed or timed out and started less than a day before [now],
    and leaves it as it was otherwise: a success, or a run that started
    a day before [now] or earlier, does not count. *)
Theorem get_failure_count_counts_recent_failures m now :
  (get_failure_count m now <= length (runs m))%nat /\
  (forall id row started result fin,
     jobs m !! id = Some row -> j_enabled row = true ->
     Forall (fun r => r_id r <= runs_seq m) (runs m) ->
     Clock.datetime_ok started -> Clock.datetime_ok (Clock.minus_days now 1) ->
     get_failure_count (_run_job m id started result fin) now
     = (get_failure_count m now
        + if ends_badly result && Clock.dt_ltb (Clock.minus_days now 1) started
          then 1 else 0)%nat).
Proof.
  split.
  - unfold get_failure_count. apply length_filter.
  - intros id row started result fin Hrow Hen Hids Hok Hokc.
    destruct (run_job_runs m id row started result fin Hrow Hen Hids)
      as (st & rc & em & log & Hout & Hr & _).
    unfold get_failure_count. rewrite Hr, filter_app, length_app. f_equal.
    rewrite filter_cons, filter_nil. unfold is_recent_failure. cbn [r_status r_started_at].
    pose proof (outcome_ends_badly (_run_job_insert m id row started).1 id row started result)
      as Hbad.
    rewrite Hout in Hbad. rewrite Hbad, isoformat_ltb by done.
    by destruct (ends_badly result && _).
Qed.

Lemma get_failure_count_counts_recent_failures_witness :
  get_failure_count (_run_job site "report" at_noon (Completed 1 "" "boom") at_one) at_one
  = 1%nat.
Proof.
  rewrite (proj2 (get_failure_count_counts_recent_failures site at_one)
             "report" report_row at_noon (Completed 1 "" "boom") at_one).
  - reflexivity.
  - vm_compute. reflexivity.
  - reflexivity.
  - repeat constructor. simpl. lia.
  - vm_compute. intuition discriminate.
  - vm_compute. intuition discriminate.
Defined.

Lemma filter_kept_twice (P : run -> Prop) `{!forall r, Decision (P r)} l :
  filter P (filter P l) = filter P l.
Proof.
  induction l as [|r l IH]; [done|]. rewrite filter_cons.
  destruct (decide (P r)) as [Hp|Hp]; [|done].
  by rewrite filter_cons, decide_True, IH.
Qed.

Lemma filter_old_of_kept c l :
  filter (fun r => is_old c r = true) (filter (fun r => is_old c r = false) l) = [].
Proof.
  induction l as [|r l IH]; [done|]. rewrite filter_cons.
  destruct (decide (is_old c r = false)) as [Hp|Hp]; [|done].
  rewrite filter_cons, decide_False, IH; [done|congruence].
Qed.

(** X14: retention cleanup changes nothing but the [runs] table and the
    files: the jobs, the scheduler, the jobs directory, the staging
    area, the pending set and the locks stay.  The rows it keeps are a
    sublist of the table, in the same order, and running it again at the
    same time changes nothing more. *)
Theorem cleanup_old_logs_is_idempotent m now fails :
  let m' := cleanup_old_logs m now fails in
  cleanup_old_logs m' now fails = m' /\
  sublist (runs m') (runs m) /\
  jobs m' = jobs m /\ scheduler m' = scheduler m /\ disk_jobs m' = disk_jobs m /\
  disk_staging m' = disk_staging m /\ pending_updates m' = pending_updates m /\
  _job_locks m' = _job_locks m /\ runs_seq m' = runs_seq m.
Proof.
  intros m'. split; [|split; [apply sublist_filter|done]].
  unfold m', cleanup_old_logs, cutoff.
  cbn [runs disk_files log_retention_days set_runs set_disk_files].
  rewrite filter_old_of_kept, filter_kept_twice. done.
Qed.


End Housekeeping.

(** ** Names and paths *)

Section Names.

Lemma split_go_no_sep c s : forall cur,
  has_char c s = false -> Text.split_go c cur s = [String.rev_app cur s].
Proof.
  induction s as [|x s IH]; intros cur Hs; [done|]. simpl in *.
  apply orb_false_iff in Hs as [Hx Hs]. rewrite Hx. by rewrite IH.
Qed.

Lemma split_go_sep c a b : forall cur,
  has_char c a = false ->
  Text.split_go c cur (a +:+ String c b) = String.rev_app cur a :: Text.split_go c "" b.
Proof.
  induction a as [|x a IH]; intros cur Ha.
  - change ("" +:+ String c b) with (String c b). simpl. by rewrite Ascii.eqb_refl.
  - change (String x a +:+ String c b) with (String x (a +:+ String c b)).
    simpl in *. apply orb_false_iff in Ha as [Hx Ha]. rewrite Hx. by rewrite IH.
Qed.

Lemma parts_plain s : plain_name s -> Path.parts s = [s].
Proof.
  intros (Hne & Hdot & _ & Hslash). unfold Path.parts, Text.split.
  rewrite split_go_no_sep by done. simpl.
  rewrite filter_cons, decide_True by done. done.
Qed.

Lemma has_char_app c a b : has_char c (a +:+ b) = has_char c a || has_char c b.
Proof.
  induction a as [|x a IH]; [done|].
  change (String x a +:+ b) with (String x (a +:+ b)). simpl. by rewrite IH, orb_assoc.
Qed.

Lemma all_chars_filter keep s : all_chars keep (Text.filter keep s) = true.
Proof.
  induction s as [|x s IH]; [done|]. simpl. destruct (keep x) eqn:Hk; [|done].
  simpl. by rewrite Hk.
Qed.

Lemma filter_all_chars keep s : all_chars keep s = true -> Text.filter keep s = s.
Proof.
  induction s as [|x s IH]; [done|]. simpl. intros [Hk Hs]%andb_true_iff.
  by rewrite Hk, IH.
Qed.

Lemma all_chars_has_char keep c s :
  keep c = false -> all_chars keep s = true -> has_char c s = false.
Proof.
  intros Hc. induction s as [|x s IH]; [done|]. simpl. intros [Hk Hs]%andb_true_iff.
  rewrite IH by done. destruct (Ascii.eqb_spec x c) as [->|]; [congruence|done].
Qed.

(** X16: the sanitized task name holds only letters, digits, hyphens
    and underscores; a name that holds nothing else is left as it is, so
    sanitizing twice is sanitizing once.  A sanitized name that is not
    empty is a single path part, neither [.] nor [..], so the staged and
    the live directory of an upload lie directly under their parents,
    and it is not a hidden name, so the scanner does not skip it. *)
Theorem sanitize_gives_a_plain_visible_name task :
  all_chars keep_char (sanitize task) = true /\
  (all_chars keep_char task = true -> sanitize task = task) /\
  sanitize (sanitize task) = sanitize task /\
  (sanitize task <> "" ->
   plain_name (sanitize task) /\ Path.parts (sanitize task) = [sanitize task] /\
   Path.is_absolute (sanitize task) = false /\ is_hidden (sanitize task) = false).
Proof.
  assert (all_chars keep_char (sanitize task) = true) as Hall
    by apply all_chars_filter.
  split; [done|]. split; [apply filter_all_chars|]. split; [by apply filter_all_chars|].
  intros Hne.
  assert (has_char "/" (sanitize task) = false) as Hslash
    by (by apply (all_chars_has_char keep_char)).
  assert (has_char "." (sanitize task) = false) as Hdot
    by (by apply (all_chars_has_char keep_char)).
  assert (plain_name (sanitize task)) as Hplain.
  { split; [done|]. split; [|split; [|done]]; intros Heq; by rewrite Heq in Hdot. }
  split; [done|]. split; [by apply parts_plain|].
  unfold Path.is_absolute, is_hidden.
  clear Hall Hplain. destruct (sanitize task) as [|c s]; [done|].
  cbn [has_char] in Hslash, Hdot.
  apply orb_false_iff in Hslash as [Hs _]. apply orb_false_iff in Hdot as [Hd _].
  cbn [Text.startswith].
  rewrite (Ascii.eqb_sym "/"%char c), Hs, (Ascii.eqb_sym "."%char c), Hd. done.
Qed.

Lemma sanitize_gives_a_plain_visible_name_witness :
  sanitize "../.staging/x y" = "stagingxy" /\ Path.parts (sanitize "../.staging/x y") = ["stagingxy"].
Proof.
  split; [reflexivity|].
  apply (proj2 (proj2 (proj2 (sanitize_gives_a_plain_visible_name "../.staging/x y")))).
  discriminate.
Defined.

End Names.

(** ** Reading back the log of a run *)

Section LogRoundTrip.

Implicit Types (m : manager).

Lemma resolve_go_snoc x ps : forall seen,
  x <> ".." -> Path.resolve_go seen (ps ++ [x]) = Path.resolve_go seen ps ++ [x].
Proof.
  induction ps as [|p ps IH]; intros seen Hx; simpl.
  - by rewrite bool_decide_eq_false_2.
  - case_bool_decide; by rewrite IH.
Qed.

Lemma resolve_snoc x ps : x <> ".." -> Path.resolve (ps ++ [x]) = Path.resolve ps ++ [x].
Proof. apply resolve_go_snoc. Qed.

Lemma startswith_app p x : Text.startswith p (p +:+ x) = true.
Proof.
  induction p as [|c p IH]; [done|].
  change (String c p +:+ x) with (String c (p +:+ x)). simpl. by rewrite Ascii.eqb_refl.
Qed.

Lemma startswith_app_same p a b :
  Text.startswith (p +:+ a) (p +:+ b) = Text.startswith a b.
Proof.
  induction p as [|c p IH]; [done|].
  change (String c p +:+ a) with (String c (p +:+ a)).
  change (String c p +:+ b) with (String c (p +:+ b)). simpl. by rewrite Ascii.eqb_refl.
Qed.

Lemma startswith_join sep (root more : list string) :
  Text.startswith (Text.join sep root) (Text.join sep (root ++ more)) = true.
Proof.
  induction root as [|p root IH]; [done|].
  destruct root as [|p' root].
  - destruct more as [|q more]; simpl.
    + rewrite <- (append_nil_r p) at 2. apply startswith_app.
    + apply startswith_app.
  - change (Text.join sep (p :: p' :: root)) with (p +:+ sep +:+ Text.join sep (p' :: root)).
    change (Text.join sep ((p :: p' :: root) ++ more))
      with (p +:+ sep +:+ Text.join sep ((p' :: root) ++ more)).
    by rewrite !startswith_app_same.
Qed.

Lemma startswith_to_str (root more : list string) :
  Text.startswith (Path.to_str root) (Path.to_str (root ++ more)) = true.
Proof. unfold Path.to_str. rewrite startswith_app_same. apply startswith_join. Qed.

Lemma pad_no_char c w : forall n,
  (N_of_ascii c < 48)%N -> has_char c (Clock.pad w n) = false.
Proof.
  induction w as [|w IH]; intros n Hc; [done|].
  cbn [Clock.pad]. rewrite has_char_app, IH by done. simpl.
  destruct (Ascii.eqb_spec (Clock.digit (n mod 10)) c) as [<-|]; [|done].
  rewrite digit_code in Hc by (apply Z.mod_pos_bound; lia). lia.
Qed.

Lemma log_filename_plain now : plain_name (log_filename now).
Proof.
  split; [|split; [|split]].
  - unfold log_filename, Clock.strftime_compact. cbv [Clock.pad String.append]. discriminate.
  - unfold log_filename, Clock.strftime_compact. cbv [Clock.pad String.append]. discriminate.
  - unfold log_filename, Clock.strftime_compact. cbv [Clock.pad String.append]. discriminate.
  - unfold log_filename, Clock.strftime_compact.
    rewrite !has_char_app, !pad_no_char by (vm_compute; reflexivity). reflexivity.
Qed.

Lemma plain_name_relative (task : string) :
  plain_name task -> Path.is_absolute task = false.
Proof.
  intros (Hne & _ & _ & Hslash). destruct task as [|c task]; [done|].
  unfold Path.is_absolute. cbn [Text.startswith]. cbn [has_char] in Hslash.
  apply orb_false_iff in Hslash as [Hc _]. by rewrite (Ascii.eqb_sym "/"%char c), Hc.
Qed.

Lemma parts_of_relative_log_path (task file : string) :
  plain_name task -> plain_name file ->
  Path.parts (Text.join "/" [task; file]) = [task; file] /\
  Path.is_absolute (Text.join "/" [task; file]) = false.
Proof.
  intros Htask Hfile. pose proof (plain_name_relative task Htask) as Hrel.
  destruct Htask as (Hne & Hdot & _ & Hslash). destruct Hfile as (Hne' & Hdot' & _ & Hslash').
  split.
  - unfold Path.parts, Text.split.
    change (Text.join "/" [task; file]) with (task +:+ String "/" file).
    rewrite split_go_sep, split_go_no_sep by done. simpl.
    rewrite filter_cons, decide_True by done.
    rewrite filter_cons, decide_True by done. done.
  - change (Text.join "/" [task; file]) with (task +:+ String "/" file).
    destruct task as [|c task]; [done|].
    change (String c task +:+ String "/" file) with (String c (task +:+ String "/" file)).
    exact Hrel.
Qed.

Lemma run_job_files m id row now result fin :
  jobs m !! id = Some row -> j_enabled row = true ->
  disk_files (_run_job m id now result fin)
  = <[log_file m row now := (outcome m id row now result).2]> (disk_files m) /\
  logs_dir (_run_job m id now result fin) = logs_dir m.
Proof.
  intros Hrow Hen. unfold _run_job. rewrite Hrow, Hen. cbn [negb].
  unfold _run_job_finish, _run_job_insert. cbn [fst].
  match goal with |- context [outcome ?a id row now result] =>
    assert (outcome a id row now result = outcome m id row now result) as ->
      by (by destruct result) end.
  by destruct (outcome m id row now result) as [[[st rc] em] log].
Qed.

Lemma universal_newlines_id s :
  has_char Text.cr s = false -> Text.universal_newlines s = s.
Proof.
  induction s as [|c s IH]; [done|]. cbn [has_char Text.universal_newlines].
  intros [Hc Hs]%orb_false_iff. rewrite Hc. by rewrite IH.
Qed.

(** X17: the log of a run can be read back through the path kept in its
    row: for a job whose task is the name of a directory, after
    [_run_job] the row of the run carries a relative log path, and
    [get_log_content] on that path answers the text that the run wrote
    to its log file, as reading in text mode gives it: with one line
    feed for every carriage return, alone or before a line feed.  A text
    without carriage return is read back as it was written. *)
Theorem run_log_can_be_read_back m id row now result fin :
  jobs m !! id = Some row -> j_enabled row = true -> plain_name (j_task row) ->
  let m' := _run_job m id now result fin in
  let text := (outcome m id row now result).2 in
  (r_log_path <$> last (runs m')) = Some (Some (relative_log_path row now)) /\
  get_log_content m' (relative_log_path row now)
  = Some (Text.universal_newlines text) /\
  (has_char Text.cr text = false ->
   get_log_content m' (relative_log_path row now) = Some text).
Proof.
  intros Hrow Hen Htask m' text.
  cut ((r_log_path <$> last (runs m')) = Some (Some (relative_log_path row now)) /\
       get_log_content m' (relative_log_path row now)
       = Some (Text.universal_newlines text)).
  { intros [H1 H2]. split; [done|]. split; [done|].
    intros Hcr. by rewrite H2, universal_newlines_id. }
  split.
  - destruct (run_job_last m id row now result fin Hrow Hen)
      as (st & rc & em & log & _ & Hlast).
    unfold m'. by rewrite Hlast.
  - destruct (run_job_files m id row now result fin Hrow Hen) as [Hfiles Hlogs].
    pose proof (log_filename_plain now) as Hfile.
    unfold get_log_content, m'. rewrite Hfiles, Hlogs.
    unfold relative_log_path, log_file. rewrite (parts_plain _ Htask).
    change ([j_task row] ++ [log_filename now]) with [j_task row; log_filename now].
    destruct (parts_of_relative_log_path _ _ Htask Hfile) as [Hparts Habs].
    unfold Path.joinpath.
    rewrite Habs, (plain_name_relative _ Htask), Hparts, (parts_plain _ Htask).
    replace (logs_dir m ++ [j_task row; log_filename now])
      with ((logs_dir m ++ [j_task row]) ++ [log_filename now]) by (by rewrite <- app_assoc).
    rewrite lookup_insert_eq.
    rewrite !resolve_snoc by (first [apply Hfile | apply Htask]).
    rewrite <- app_assoc, startswith_to_str. done.
Qed.

Lemma run_log_can_be_read_back_witness :
  exists text,
    get_log_content (_run_job site "report" at_noon (OtherError "no uv") at_one)
      "report/20260301_120000.log" = Some text /\
    Text.startswith "=== Job: report ===" text = true.
Proof.
  eexists. split.
  - apply (run_log_can_be_read_back site "report" report_row at_noon
             (OtherError "no uv") at_one).
    + vm_compute. reflexivity.
    + reflexivity.
    + vm_compute. intuition discriminate.
    + vm_compute. reflexivity.
  - vm_compute. reflexivity.
Defined.

End LogRoundTrip.

(** ** Uploads *)

Section Uploads.

Implicit Types (m : manager) (f g : upload) (files : list upload) (staged : bundle).

Lemma truthy_spec (s : string) : Text.truthy s = true <-> s <> "".
Proof. by destruct s. Qed.

Lemma save_files_other sp stamp files : forall staged0 hy0 staged hy e n,
  save_files sp stamp staged0 hy0 files = (staged, hy, e) ->
  (forall f, f ∈ files -> filename f <> "" -> Path.name (filename f) <> n) ->
  staged !! n = staged0 !! n.
Proof.
  induction files as [|f files IH]; intros staged0 hy0 staged hy e n Hsave Hno.
  - by injection Hsave as <- _ _.
  - simpl in Hsave. destruct (Text.truthy (filename f)) eqn:Ht; simpl in Hsave.
    + destruct (_ || _); [by injection Hsave as <- _ _|].
      rewrite (IH _ _ _ _ _ n Hsave) by (intros g ?; apply Hno; by right).
      apply lookup_insert_ne. apply Hno; [by left|]. by apply truthy_spec.
    + apply (IH _ _ _ _ _ n Hsave). intros g ?. apply Hno. by right.
Qed.

Lemma save_files_ok sp stamp files : forall staged0 hy0 staged hy,
  save_files sp stamp staged0 hy0 files = (staged, hy, None) ->
  (forall n, is_Some (staged !! n) <->
     is_Some (staged0 !! n)
     \/ exists f, f ∈ files /\ filename f <> "" /\ Path.name (filename f) = n) /\
  (forall pre f post, files = pre ++ f :: post -> filename f <> "" ->
     (forall g, g ∈ post -> filename g <> "" ->
                Path.name (filename g) <> Path.name (filename f)) ->
     staged !! Path.name (filename f)
     = Some (mk_file (stamp (Path.name (filename f))) (payload f))) /\
  (hy = true <->
     hy0 = true
     \/ exists f, f ∈ files /\ filename f <> "" /\ Path.name (filename f) = "job.yaml").
Proof.
  induction files as [|f files IH]; intros staged0 hy0 staged hy Hsave.
  - injection Hsave as <- <-. split; [|split].
    + intros n. split; [by left|]. intros [?|(f & Hf & _)]; [done|].
      by apply elem_of_nil in Hf.
    + intros [|? ?] f post Heq; discriminate Heq.
    + split; [by left|]. intros [?|(f & Hf & _)]; [done|]. by apply elem_of_nil in Hf.
  - simpl in Hsave. destruct (Text.truthy (filename f)) eqn:Ht; simpl in Hsave.
    + destruct (_ || _) eqn:Hbad; [done|].
      pose proof (proj1 (truthy_spec _) Ht) as Hne.
      destruct (IH _ _ _ _ Hsave) as (Hdom & Hlast & Hyaml). split; [|split].
      * intros n. rewrite Hdom. rewrite lookup_insert_is_Some'. split.
        -- intros [[<-|?]|(g & Hg & Hgn & Hgb)].
           ++ right. exists f. split; [by left|done].
           ++ by left.
           ++ right. exists g. split; [by right|done].
        -- intros [?|(g & Hg & Hgn & Hgb)]; [by left; right|].
           apply elem_of_cons in Hg as [->|Hg]; [left; by left|].
           right. exists g. done.
      * intros pre f' post Heq Hne' Hpost. destruct pre as [|p pre].
        -- injection Heq as <- <-.
           rewrite (save_files_other _ _ _ _ _ _ _ _ _ Hsave) by done.
           apply lookup_insert_eq.
        -- injection Heq as <- ->. by apply (Hlast pre f' post).
      * rewrite Hyaml, orb_true_iff, bool_decide_eq_true. split.
        -- intros [[?|Hj]|(g & Hg & Hgn & Hgb)].
           ++ by left.
           ++ right. exists f. split; [by left|done].
           ++ right. exists g. split; [by right|done].
        -- intros [?|(g & Hg & Hgn & Hgb)]; [left; by left|].
           apply elem_of_cons in Hg as [->|Hg]; [left; by right|].
           right. exists g. done.
    + assert (filename f = "") as Hempty by (by destruct (filename f)).
      destruct (IH _ _ _ _ Hsave) as (Hdom & Hlast & Hyaml). split; [|split].
      * intros n. rewrite Hdom. split.
        -- intros [?|(g & Hg & Hgn & Hgb)]; [by left|].
           right. exists g. split; [by right|done].
        -- intros [?|(g & Hg & Hgn & Hgb)]; [by left|].
           apply elem_of_cons in Hg as [->|Hg]; [done|]. right. exists g. done.
      * intros pre f' post Heq Hne' Hpost. destruct pre as [|p pre].
        -- injection Heq as <- <-. done.
        -- injection Heq as <- ->. by apply (Hlast pre f' post).
      * rewrite Hyaml. split.
        -- intros [?|(g & Hg & Hgn & Hgb)]; [by left|].
           right. exists g. split; [by right|done].
        -- intros [?|(g & Hg & Hgn & Hgb)]; [by left|].
           apply elem_of_cons in Hg as [->|Hg]; [done|]. right. exists g. done.
Qed.

End Uploads.

Section Staging.

Implicit Types (m : manager) (f g : upload) (files : list upload) (staged : bundle).

Lemma save_job_files_success m task files job_config stamp m' id :
  save_job_files m task files job_config stamp = (m', inr id) ->
  id = sanitize task /\ id <> "" /\
  pending_updates m' = {[id]} ∪ pending_updates m /\
  (forall id', id' <> id -> disk_staging m' !! id' = disk_staging m !! id') /\
  exists staged, disk_staging m' !! id = Some staged /\
    (forall n, is_Some (staged !! n) <->
       (exists f, f ∈ files /\ filename f <> "" /\ Path.name (filename f) = n)
       \/ (n = "job.yaml" /\ is_Some (config_given job_config))) /\
    (forall pre f post, files = pre ++ f :: post -> filename f <> "" ->
       (forall g, g ∈ post -> filename g <> "" ->
                  Path.name (filename g) <> Path.name (filename f)) ->
       staged !! Path.name (filename f)
       = Some (mk_file (stamp (Path.name (filename f))) (payload f))) /\
    (forall c, config_given job_config = Some c ->
       (forall f, f ∈ files -> filename f <> "" -> Path.name (filename f) <> "job.yaml") ->
       staged !! "job.yaml" = Some (mk_file (stamp "job.yaml") (Yaml c))).
Proof.
  unfold save_job_files. destruct (Text.truthy (sanitize task)) eqn:Ht; [|done].
  cbn [negb]. destruct (_ && _); [done|].
  destruct (save_files _ _ _ _ _) as [[staged hy] [e|]] eqn:Hsave; [done|].
  intros [= <- <-]. cbn [pending_updates disk_staging set_pending_updates set_disk_staging].
  destruct (save_files_ok _ _ _ _ _ _ _ Hsave) as (Hdom & Hlast & Hyaml).
  split; [done|]. split; [by apply truthy_spec|]. split; [done|].
  split; [intros id' Hne; by rewrite lookup_insert_ne|].
  rewrite lookup_insert_eq. eexists. split; [done|].
  assert (forall n, is_Some (staged !! n) <->
            exists f, f ∈ files /\ filename f <> "" /\ Path.name (filename f) = n) as Hdom'.
  { intros n. rewrite Hdom, lookup_empty. split; [|by right].
    intros [[? ?]|?]; done. }
  assert (hy = true <->
            exists f, f ∈ files /\ filename f <> "" /\ Path.name (filename f) = "job.yaml")
    as Hyaml'.
  { rewrite Hyaml. split; [|by right]. intros [?|?]; done. }
  destruct (config_given job_config) as [c|] eqn:Hcfg.
  - destruct hy.
    + split; [|split].
      * intros n. rewrite Hdom'. split; [by left|]. intros [?|[-> _]]; [done|].
        by apply Hyaml'.
      * done.
      * intros c' _ Hno. destruct (proj1 Hyaml' eq_refl) as (f & Hf & Hfn & Hfb).
        by destruct (Hno f Hf Hfn).
    + split; [|split].
      * intros n. rewrite lookup_insert_is_Some', Hdom'. split.
        -- intros [<-|?]; [right; eauto|by left].
        -- intros [?|[-> _]]; [by right|by left].
      * intros pre f post Heq Hne Hpost. rewrite lookup_insert_ne; [by eapply Hlast|].
        intros Heq'. assert (false = true) as Hc; [|discriminate Hc]. apply Hyaml'.
        exists f. split; [|done]. rewrite Heq. apply elem_of_app. right. by left.
      * intros c' [= <-] _. apply lookup_insert_eq.
  - split; [|split; [done|done]].
    intros n. rewrite Hdom'. split; [by left|]. intros [?|[_ [? ?]]]; done.
Qed.

(** X18: an upload that [save_job_files] accepts answers the sanitized
    task name, which is not empty, and adds it to the pending set.  The
    bundle staged under that name replaces any bundle staged before: it
    holds one file for every uploaded file with a file name, under the
    last part of that name, with the content of the last upload of that
    name; and a generated [job.yaml] with the configuration given, when
    one is given and no uploaded file is called [job.yaml].  No other
    staged bundle changes. *)
Theorem save_job_files_stages_the_upload m task files job_config stamp m' id :
  save_job_files m task files job_config stamp = (m', inr id) ->
  id = sanitize task /\ id <> "" /\
  pending_updates m' = {[id]} ∪ pending_updates m /\
  (forall id', id' <> id -> disk_staging m' !! id' = disk_staging m !! id') /\
  exists staged, disk_staging m' !! id = Some staged /\
    (forall n, is_Some (staged !! n) <->
       (exists f, f ∈ files /\ filename f <> "" /\ Path.name (filename f) = n)
       \/ (n = "job.yaml" /\ is_Some (config_given job_config))) /\
    (forall pre f post, files = pre ++ f :: post -> filename f <> "" ->
       (forall g, g ∈ post -> filename g <> "" ->
                  Path.name (filename g) <> Path.name (filename f)) ->
       staged !! Path.name (filename f)
       = Some (mk_file (stamp (Path.name (filename f))) (payload f))) /\
    (forall c, config_given job_config = Some c ->
       (forall f, f ∈ files -> filename f <> "" -> Path.name (filename f) <> "job.yaml") ->
       staged !! "job.yaml" = Some (mk_file (stamp "job.yaml") (Yaml c))).
Proof. apply save_job_files_success. Qed.

Lemma save_job_files_stages_the_upload_witness :
  exists staged, disk_staging site_staged !! "etl" = Some staged /\
    staged !! "main.py" = Some (mk_file 1772366400 (Raw "print('etl')")).
Proof.
  destruct (save_job_files_stages_the_upload site "etl" etl_upload None stamp_noon
              site_staged "etl") as (_ & _ & _ & _ & staged & Hst & _ & Hlast & _).
  - vm_compute. reflexivity.
  - exists staged. split; [exact Hst|].
    apply (Hlast [] (mk_upload "main.py" (Raw "print('etl')"))
             [mk_upload "job.yaml" (Yaml (mk_manifest (Some "ETL") None None None None))]).
    + reflexivity.
    + discriminate.
    + intros g Hg _. apply list_elem_of_singleton in Hg as ->. vm_compute. discriminate.
Defined.



End Staging.


(** ** From the staging area to the live directory *)

Section Promotion.

Context {aps : Scheduler}.
Implicit Types (m : manager) (j id : string).

Lemma sanitize_not_hidden task : is_hidden (sanitize task) = false.
Proof.
  pose proof (all_chars_filter keep_char task) as Hall. fold (sanitize task) in Hall.
  pose proof (all_chars_has_char keep_char "." (sanitize task) eq_refl Hall) as Hdot.
  unfold is_hidden. destruct (sanitize task) as [|c s]; [done|].
  cbn [has_char] in Hdot. apply orb_false_iff in Hdot as [Hd _].
  cbn [Text.startswith]. by rewrite (Ascii.eqb_sym "."%char c), Hd.
Qed.

Lemma staged_goes_live m task files job_config stamp m1 id fault clock :
  save_job_files m task files job_config stamp = (m1, inr id) ->
  disk_jobs m !! id = None ->
  (forall k, _job_locks m !! k <> Some true) ->
  fault id = None ->
  let r := process_pending_updates m1 fault clock in
  disk_jobs r.1 !! id = disk_staging m1 !! id /\ is_Some (disk_jobs r.1 !! id) /\
  disk_staging r.1 !! id = None /\ (id ∉ pending_updates r.1) /\
  (forall y c, (disk_staging m1 !! id) ≫= (.!! "job.yaml") = Some y -> data y = Yaml c ->
     jobs m !! id = None ->
     r.2 <> None /\ jobs r.1 !! id = None /\ scheduler r.1 !! id = scheduler m !! id).
Proof.
  intros Hsave Hnew Hidle Hok r.
  destruct (save_job_files_success _ _ _ _ _ _ _ Hsave)
    as (Hid & Hne & Hpend & _ & staged & Hst & _).
  pose proof (save_job_files_frame m task files job_config stamp) as Hframe.
  rewrite Hsave in Hframe. cbn [fst] in Hframe.
  destruct Hframe as (Hj & Hs & _ & _ & Hd & _ & Hl).
  assert (id ∈ pending_updates m1) as Hin.
  { rewrite Hpend. apply elem_of_union. left. by apply elem_of_singleton. }
  unfold r, process_pending_updates.
  rewrite bool_decide_eq_false_2
    by (intros He; rewrite He in Hin; by apply not_elem_of_empty in Hin).
  rewrite (proj2 (is_system_idle_spec m1)) by (by rewrite Hl). cbn [negb].
  set (p := foldl (promote fault) m1 (elements (pending_updates m1))).
  destruct (promote_loop_at fault (elements (pending_updates m1)) m1 id staged)
    as (Hlive & Hgone & Hnp); [apply NoDup_elements|by apply elem_of_elements|done..|].
  fold p in Hlive, Hgone, Hnp. rewrite Hd, Hnew in Hlive. cbn [default] in Hlive.
  unfold copytree in Hlive. rewrite (right_id_L ∅ (∪)) in Hlive.
  destruct (scan_jobs_frame clock p) as (_ & _ & Hdj & Hds & _ & Hpp & _).
  rewrite Hdj, Hds, Hpp, Hlive, Hst.
  split; [done|]. split; [eauto|]. split; [done|]. split; [done|].
  intros y c Hy Hdata Hjob. simpl in Hy.
  assert (manifest_seen p id = Some y) as Hseen.
  { unfold manifest_seen. rewrite Hid, sanitize_not_hidden, <- Hid, Hlive. exact Hy. }
  destruct (promote_loop_frame fault (elements (pending_updates m1)) m1) as (Hjp & Hsp & _).
  fold p in Hjp, Hsp.
  assert (jobs p !! id = None) as Hjr by (by rewrite Hjp, Hj).
  destruct (scan_jobs_new p clock id y c Hjr Hseen Hdata) as (Hraised & Hrow & Hsch).
  split; [done|]. split; [done|]. by rewrite Hsch, Hsp, Hs.
Qed.

Lemma promote_local fault m1 m2 j :
  disk_staging m1 !! j = disk_staging m2 !! j ->
  disk_jobs m1 !! j = disk_jobs m2 !! j ->
  (j ∈ pending_updates m1 <-> j ∈ pending_updates m2) ->
  disk_jobs (promote fault m1 j) !! j = disk_jobs (promote fault m2 j) !! j /\
  disk_staging (promote fault m1 j) !! j = disk_staging (promote fault m2 j) !! j /\
  (j ∈ pending_updates (promote fault m1 j) <-> j ∈ pending_updates (promote fault m2 j)).
Proof.
  intros Hs Hd Hp. unfold promote. rewrite Hs, Hd.
  destruct (disk_staging m2 !! j) as [staged|] eqn:E; [destruct (fault j) as [[| |]|]|];
    simpl; rewrite ?lookup_insert_eq, ?lookup_delete_eq, ?elem_of_difference,
             ?elem_of_singleton, ?Hs, ?Hd, ?E; tauto.
Qed.

Lemma promote_loop_once fault l m j :
  NoDup l -> j ∈ l ->
  disk_jobs (foldl (promote fault) m l) !! j = disk_jobs (promote fault m j) !! j /\
  disk_staging (foldl (promote fault) m l) !! j = disk_staging (promote fault m j) !! j /\
  (j ∈ pending_updates (foldl (promote fault) m l)
   <-> j ∈ pending_updates (promote fault m j)).
Proof.
  revert m. induction l as [|t l IH]; intros m Hnd Hin.
  - by apply elem_of_nil in Hin.
  - apply NoDup_cons in Hnd as [Hnt Hnd]. simpl.
    destruct (decide (t = j)) as [->|Hne].
    + by apply promote_loop_other.
    + apply elem_of_cons in Hin as [?|Hin]; [congruence|].
      destruct (IH (promote fault m t) Hnd Hin) as (-> & -> & ->).
      destruct (promote_other fault m t j Hne) as (Hd & Hs & Hp).
      by apply promote_local.
Qed.

End Promotion.

(** X20: staging a task under a name that has no live directory and
    then running the updater while no job runs, with no file-system
    error, makes the live directory of the task hold exactly the staged
    bundle; the staged bundle is gone and the task is no longer pending.
    When the bundle has a manifest that parses and the name was not in
    the table, the rescan at the end cannot register the job: the
    updater is left by the exception of [register_job], and the job has
    no row and no trigger registration of its own. *)
Theorem staged_upload_goes_live_unregistered {aps : Scheduler}
    m task files job_config stamp m1 id fault clock :
  save_job_files m task files job_config stamp = (m1, inr id) ->
  disk_jobs m !! id = None ->
  (forall k, _job_locks m !! k <> Some true) ->
  fault id = None ->
  let r := process_pending_updates m1 fault clock in
  disk_jobs r.1 !! id = disk_staging m1 !! id /\ is_Some (disk_jobs r.1 !! id) /\
  disk_staging r.1 !! id = None /\ (id ∉ pending_updates r.1) /\
  (forall y c, (disk_staging m1 !! id) ≫= (.!! "job.yaml") = Some y -> data y = Yaml c ->
     jobs m !! id = None ->
     r.2 <> None /\ jobs r.1 !! id = None /\ scheduler r.1 !! id = scheduler m !! id).
Proof.
  intros Hsave Hnew Hidle Hok.
  exact (staged_goes_live _ _ _ _ _ _ _ fault clock Hsave Hnew Hidle Hok).
Qed.

Lemma staged_upload_goes_live_unregistered_witness :
  let r := process_pending_updates (aps := by_signature) site_staged (fun _ => None)
             clock_noon in
  is_Some (disk_jobs r.1 !! "etl") /\ r.2 <> None /\ jobs r.1 !! "etl" = None.
Proof.
  destruct (staged_upload_goes_live_unregistered (aps := by_signature) site "etl" etl_upload None
              stamp_noon site_staged "etl" (fun _ => None) clock_noon)
    as (_ & Hlive & _ & _ & Hreg).
  - vm_compute. reflexivity.
  - vm_compute. reflexivity.
  - intros k. change (_job_locks site) with (∅ : gmap string bool).
    rewrite lookup_empty. discriminate.
  - reflexivity.
  - split; [exact Hlive|].
    destruct (Hreg (mk_file 1772366400 (Yaml (mk_manifest (Some "ETL") None None None None)))
                (mk_manifest (Some "ETL") None None None None))
      as (Hraised & Hrow & _).
    + vm_compute. reflexivity.
    + reflexivity.
    + vm_compute. reflexivity.
    + split; [exact Hraised|exact Hrow].
Defined.

(** X21: when no job runs, a pending identifier whose staged bundle is
    missing is cleared and its live directory is left alone.  One whose
    promotion meets a file-system error stays pending with a staged
    bundle, to be tried again; when the error is at [mkdir], nothing of
    it has changed.  An identifier that is not pending is not touched
    at all: neither its live directory nor a bundle staged under its
    name. *)
Theorem process_pending_updates_retries_failed_promotions {aps : Scheduler}
    m fault clock :
  (forall k, _job_locks m !! k <> Some true) ->
  let m' := (process_pending_updates m fault clock).1 in
  (forall j, j ∈ pending_updates m -> disk_staging m !! j = None ->
     (j ∉ pending_updates m') /\ disk_jobs m' !! j = disk_jobs m !! j /\
     disk_staging m' !! j = None) /\
  (forall j staged e, j ∈ pending_updates m -> disk_staging m !! j = Some staged ->
     fault j = Some e ->
     j ∈ pending_updates m' /\ is_Some (disk_staging m' !! j) /\
     (e = MkdirFails ->
      disk_jobs m' !! j = disk_jobs m !! j /\ disk_staging m' !! j = Some staged)) /\
  (forall j, j ∉ pending_updates m ->
     (j ∉ pending_updates m') /\ disk_jobs m' !! j = disk_jobs m !! j /\
     disk_staging m' !! j = disk_staging m !! j).
Proof.
  intros Hidle m'. unfold m', process_pending_updates.
  case_bool_decide as Hempty.
  { split; [|split].
    - intros j Hj. rewrite Hempty in Hj. by apply not_elem_of_empty in Hj.
    - intros j staged e Hj. rewrite Hempty in Hj. by apply not_elem_of_empty in Hj.
    - done. }
  rewrite (proj2 (is_system_idle_spec m) Hidle). cbn [negb].
  set (l := elements (pending_updates m)).
  destruct (scan_jobs_frame clock (foldl (promote fault) m l))
    as (_ & _ & -> & -> & _ & -> & _).
  split; [|split].
  - intros j Hj Hst.
    destruct (promote_loop_once fault l m j) as (-> & -> & ->);
      [apply NoDup_elements|by apply elem_of_elements|].
    unfold promote. rewrite Hst. simpl.
    rewrite elem_of_difference, elem_of_singleton. tauto.
  - intros j staged e Hj Hst He.
    destruct (promote_loop_once fault l m j) as (-> & -> & ->);
      [apply NoDup_elements|by apply elem_of_elements|].
    unfold promote. rewrite Hst, He.
    destruct e; simpl; rewrite ?lookup_insert_eq;
      (split; [done|]); (split; [eauto|]); done.
  - intros j Hj.
    destruct (promote_loop_other fault l m j) as (-> & -> & ->);
      [unfold l; by rewrite elem_of_elements|done].
Qed.

Lemma process_pending_updates_retries_failed_promotions_witness :
  "etl" ∈ pending_updates site_half_promoted /\
  is_Some (disk_staging site_half_promoted !! "etl").
Proof.
  destruct (proj1 (proj2 (process_pending_updates_retries_failed_promotions
                            (aps := by_signature) site_staged rmtree_fault clock_noon
                            ltac:(intros k; change (_job_locks site_staged)
                                    with (∅ : gmap string bool);
                                  rewrite lookup_empty; discriminate)))
              "etl"
              (<["main.py" := mk_file 1772366400 (Raw "print('etl')")]>
                 (<["job.yaml" := mk_file 1772366400
                      (Yaml (mk_manifest (Some "ETL") None None None None))]> ∅))
              (RmtreeFails ∅))
    as (Hp & Hs & _).
  - refine (bool_decide_unpack _ _). vm_compute. exact I.
  - vm_compute. reflexivity.
  - reflexivity.
  - split; [exact Hp|exact Hs].
Defined.

(** ** Editing a manifest in place *)

Section Config.

Context {aps : Scheduler}.
Implicit Types (m : manager) (task : string) (dir : bundle).

Lemma update_job_config_eq m task new_config stamp clock dir :
  disk_jobs m !! task = Some dir ->
  let c := manifest_update (current_config dir) new_config in
  let r := scan_jobs
             (set_disk_jobs m
                (<[task := <["job.yaml" := mk_file stamp (Yaml c)]> dir]> (disk_jobs m)))
             clock in
  update_job_config m task new_config stamp false clock
  = (r.1, bool_decide (r.2 = None)).
Proof.
  intros Hdir. cbv zeta. unfold update_job_config. rewrite Hdir.
  by destruct (scan_jobs _ clock) as [m' [e|]].
Qed.

Lemma update_job_config_rescan m task new_config stamp clock dir :
  disk_jobs m !! task = Some dir -> is_hidden task = false ->
  let c := manifest_update (current_config dir) new_config in
  let m0 := set_disk_jobs m
              (<[task := <["job.yaml" := mk_file stamp (Yaml c)]> dir]> (disk_jobs m)) in
  let r := scan_jobs m0 clock in
  let fresh old row :=
    j_enabled row = j_enabled old /\ j_created_at row = j_created_at old /\
    j_yaml_mtime row = stamp /\
    j_name row = default task (cfg_name c) /\
    j_description row = default "" (cfg_description c) /\
    j_schedule_type row = default (VStr "interval") (default ∅ (cfg_schedule c) !! "type") /\
    j_schedule_config row = delete "type" (default ∅ (cfg_schedule c)) /\
    j_entry_point row = default "main.py" (cfg_entry_point c) /\
    j_timeout row = default 3600 (cfg_timeout c) in
  match jobs m !! task with
  | None =>
      r.2 <> None /\ jobs r.1 !! task = None /\ scheduler r.1 !! task = scheduler m !! task
  | Some old =>
      if j_yaml_mtime old =? stamp then
        jobs r.1 !! task = Some old /\ scheduler r.1 !! task = scheduler m !! task
      else
        (r.2 <> None /\ jobs r.1 !! task = Some old /\
         scheduler r.1 !! task = scheduler m !! task) \/
        (exists row, jobs r.1 !! task = Some row /\ fresh old row /\
           scheduler r.1 !! task
           = (if j_enabled old
              then match add_job_raises (trigger_of row) with
                   | Some _ => None
                   | None => Some (trigger_of row)
                   end
              else None) /\
           (r.2 = None ->
            scheduler r.1 !! task
            = if j_enabled old then Some (trigger_of row) else None))
  end.
Proof.
  intros Hdir Hvis c m0 r fresh.
  set (y := mk_file stamp (Yaml c)).
  assert (manifest_seen m0 task = Some y) as Hseen.
  { unfold manifest_seen. rewrite Hvis. unfold m0. cbn [disk_jobs set_disk_jobs].
    rewrite lookup_insert_eq. simpl. by rewrite lookup_insert_eq. }
  assert (data y = Yaml c) as Hdata by done.
  change (jobs m !! task) with (jobs m0 !! task).
  change (scheduler m !! task) with (scheduler m0 !! task).
  destruct (jobs m0 !! task) as [old|] eqn:Hold.
  - destruct (j_yaml_mtime old =? stamp) eqn:Hmt.
    + apply Z.eqb_eq in Hmt.
      destruct (scan_jobs_cases clock m0 task)
        as [(_ & Hj & Hs)|[(_ & Hj & Hs)|(_ & Hno & _)]]; [| |congruence];
        fold r in Hj, Hs; rewrite Hj, Hs; [|done].
      by rewrite (scan_one_unchanged clock m0 task old y Hold Hseen Hmt).
    + destruct (scan_jobs_cases clock m0 task)
        as [(_ & Hj & Hs)|[(Hr & Hj & Hs)|(_ & Hno & _)]]; [| |congruence];
        fold r in Hj, Hs; [right|left; by rewrite Hj, Hs, Hold].
      assert (scan_one clock m0 task
              = register_job m0 task task stamp c (clock task)) as Hone.
      { rewrite scan_one_eq, Hseen. unfold _needs_update. rewrite Hold.
        change (st_mtime y) with stamp. by rewrite Hmt. }
      rewrite Hone in Hj, Hs.
      destruct (register_job_known m0 task task stamp c (clock task) old Hold)
        as (Hrow & Hraise & Hsch).
      eexists. split; [by rewrite Hj|]. split; [done|].
      split; [by rewrite Hs|].
      intros Hok. rewrite Hs, Hsch.
      pose proof (proj1 (scan_jobs_ok clock m0) Hok task) as Hnone.
      rewrite Hone, Hraise in Hnone. destruct (j_enabled old); [|done].
      by rewrite Hnone.
  - exact (scan_jobs_new m0 clock task y c Hold Hseen Hdata).
Qed.

End Config.

(** X22: [update_job_config] on an existing, visible task directory
    leaves in it a manifest that parses: the new configuration laid over
    the one that was there (over nothing when the manifest was missing
    or did not parse); the other directories and the run history are as
    before.  The rescan is inside the [try]: the answer is [True]
    exactly when the rescan raised nothing.  For a job the table does
    not have the rescan raises: the answer is [False], with the manifest
    written, and the job is still not registered.  For a job it has,
    when the rewritten file has the very modification time the table
    recorded the row is left as it is; otherwise either the rescan was
    left by an exception before it came to the job, and row and
    registration are as before, or the row keeps its enabled flag and
    creation time and takes name, schedule, script and timeout from the
    merged manifest, and the job has the trigger of the new schedule
    exactly when it is enabled and [add_job] took the trigger, which is
    so whenever the answer is [True].  When the file cannot be opened for
    writing the answer is [False] and nothing changes. *)
Theorem update_job_config_merges_and_rescans {aps : Scheduler}
    m task new_config stamp clock dir :
  disk_jobs m !! task = Some dir -> is_hidden task = false ->
  let c := manifest_update (current_config dir) new_config in
  let res := update_job_config m task new_config stamp false clock in
  let fresh old row :=
    j_enabled row = j_enabled old /\ j_created_at row = j_created_at old /\
    j_yaml_mtime row = stamp /\
    j_name row = default task (cfg_name c) /\
    j_description row = default "" (cfg_description c) /\
    j_schedule_type row = default (VStr "interval") (default ∅ (cfg_schedule c) !! "type") /\
    j_schedule_config row = delete "type" (default ∅ (cfg_schedule c)) /\
    j_entry_point row = default "main.py" (cfg_entry_point c) /\
    j_timeout row = default 3600 (cfg_timeout c) in
  update_job_config m task new_config stamp true clock = (m, false) /\
  (res.2 = true <->
   (scan_jobs
      (set_disk_jobs m
         (<[task := <["job.yaml" := mk_file stamp (Yaml c)]> dir]> (disk_jobs m)))
      clock).2 = None) /\
  disk_jobs res.1 !! task = Some (<["job.yaml" := mk_file stamp (Yaml c)]> dir) /\
  (forall t, t <> task -> disk_jobs res.1 !! t = disk_jobs m !! t) /\
  runs res.1 = runs m /\
  match jobs m !! task with
  | None =>
      res.2 = false /\ jobs res.1 !! task = None /\
      scheduler res.1 !! task = scheduler m !! task
  | Some old =>
      if j_yaml_mtime old =? stamp then
        jobs res.1 !! task = Some old /\ scheduler res.1 !! task = scheduler m !! task
      else
        (res.2 = false /\ jobs res.1 !! task = Some old /\
         scheduler res.1 !! task = scheduler m !! task) \/
        (exists row, jobs res.1 !! task = Some row /\ fresh old row /\
           scheduler res.1 !! task
           = (if j_enabled old
              then match add_job_raises (trigger_of row) with
                   | Some _ => None
                   | None => Some (trigger_of row)
                   end
              else None) /\
           (res.2 = true ->
            scheduler res.1 !! task
            = if j_enabled old then Some (trigger_of row) else None))
  end.
Proof.
  intros Hdir Hvis c res fresh.
  pose proof (update_job_config_rescan m task new_config stamp clock dir Hdir Hvis)
    as Hscan.
  pose proof (update_job_config_eq m task new_config stamp clock dir Hdir) as Heq.
  cbv zeta in Hscan, Heq. fold c in Hscan, Heq.
  unfold fresh, res. clear fresh res. rewrite Heq. cbn [fst snd].
  set (m0 := set_disk_jobs m _) in *.
  split; [unfold update_job_config; by rewrite Hdir|].
  split; [apply bool_decide_eq_true|].
  destruct (scan_jobs_frame clock m0) as (Hruns & _ & Hdisk & _).
  rewrite Hdisk, Hruns.
  split; [unfold m0; cbn [disk_jobs set_disk_jobs]; by rewrite lookup_insert_eq|].
  split; [intros t Ht; unfold m0; cbn [disk_jobs set_disk_jobs];
          by rewrite lookup_insert_ne|].
  split; [done|].
  destruct (jobs m !! task) as [old|].
  - destruct (j_yaml_mtime old =? stamp); [done|].
    destruct Hscan as [(Hr & Hj & Hs)|(row & Hj & Hf & Hs & Hok)].
    + left. by rewrite bool_decide_eq_false_2.
    + right. exists row. split; [done|]. split; [done|]. split; [done|].
      intros Ht%bool_decide_eq_true. by apply Hok.
  - destruct Hscan as (Hr & Hj & Hs). by rewrite bool_decide_eq_false_2.
Qed.

Lemma update_job_config_merges_and_rescans_witness :
  let res := update_job_config (aps := by_signature) site "report"
               (mk_manifest None None None (Some 60)
                  (Some (<["type" := VStr "cron"]> (<["hour" := VStr "6"]> ∅))))
               1772366400 false clock_noon in
  res.2 = true /\
  exists row, jobs res.1 !! "report" = Some row /\ j_name row = "Nightly report" /\
              j_timeout row = 60 /\ j_schedule_type row = VStr "cron".
Proof.
  cbv zeta. split; [vm_compute; reflexivity|].
  destruct (update_job_config_merges_and_rescans (aps := by_signature) site "report"
              (mk_manifest None None None (Some 60)
                 (Some (<["type" := VStr "cron"]> (<["hour" := VStr "6"]> ∅))))
              1772366400 clock_noon report_dir)
    as (_ & _ & _ & _ & _ & Hrow).
  - vm_compute. reflexivity.
  - reflexivity.
  - change (jobs site !! "report") with (Some report_row) in Hrow.
    change (j_yaml_mtime report_row =? 1772366400) with false in Hrow.
    destruct Hrow as [(Hno & _)|(row & Hrow & Hf & _)].
    + vm_compute in Hno. discriminate Hno.
    + destruct Hf as (_ & _ & _ & Hname & _ & Htype & _ & _ & Htime).
      exists row. split; [exact Hrow|]. split; [exact Hname|]. split; [exact Htime|].
      exact Htype.
Defined.

(** ** The upload route *)

Section UploadRoute.

Context {aps : Scheduler}.
Implicit Types (m : manager) (form : gmap string string) (files : list upload)
  (task unit u : string) (schedule : gmap string value).

Lemma save_job_files_raises m task files job_config stamp m' e :
  save_job_files m task files job_config stamp = (m', inl e) ->
  pending_updates m' = pending_updates m.
Proof.
  unfold save_job_files. destruct (negb _); [by intros [= <- _]|].
  destruct (_ && _); [by intros [= <- _]|].
  destruct (save_files _ _ _ _ _) as [[staged hy] [e'|]]; [|done]. by intros [= <- _].
Qed.










End UploadRoute.

(** X23: the upload route answers 400, and changes nothing, exactly when
    the form has no task name or no file comes with it.  Otherwise the
    configuration is built from the form before the [try]: when that
    raises, the exception leaves the view and nothing is staged or
    changed.  When it does not raise, the route answers 200 with the
    sanitized task name, not empty, when the upload is staged and
    pending; otherwise 500, and nothing becomes pending.  A task name
    that sanitizing empties, and the name of a live job that has
    nothing staged, are then answered 500 with the message of the
    validation error and no change.  Whatever the outcome, the live job
    directories, the tables and the scheduler are as before. *)
Theorem api_upload_job_answers m form files stamp :
  let res := api_upload_job m form files stamp in
  let m' := res.1 in
  (forall e, res.2 = inl e <->
     exists task, given (form !! "task") = Some task /\ files <> [] /\
                  form_config form task = inl e) /\
  (forall e, res.2 = inl e -> m' = m) /\
  (forall code body, res.2 = inr (code, body) ->
     (code = 200 \/ code = 400 \/ code = 500) /\
     (code = 400 <-> given (form !! "task") = None \/ files = []) /\
     (code = 400 -> m' = m) /\
     (code = 200 ->
      body <> "" /\ body ∈ pending_updates m' /\ is_Some (disk_staging m' !! body) /\
      exists task, form !! "task" = Some task /\ body = sanitize task) /\
     (code <> 200 -> pending_updates m' = pending_updates m)) /\
  (forall task job_config, given (form !! "task") = Some task -> files <> [] ->
     form_config form task = inr job_config ->
     (sanitize task = "" -> res = (m, inr (500, "Invalid task name"))) /\
     (sanitize task <> "" -> is_Some (disk_jobs m !! sanitize task) ->
      disk_staging m !! sanitize task = None ->
      res = (m, inr (500, exists_message (sanitize task))))) /\
  disk_jobs m' = disk_jobs m /\ jobs m' = jobs m /\ scheduler m' = scheduler m /\
  runs m' = runs m.
Proof.
  intros res m'. unfold m', res, api_upload_job. clear m' res.
  destruct (given (form !! "task")) as [task|] eqn:Htask.
  2: { cbn [fst snd]. split; [intros e; split; [done|by intros (? & ? & _)]|].
       split; [done|]. split; [|by split].
       intros code body [= <- <-]. split; [by right; left|].
       split; [split; [by left|done]|]. by split. }
  destruct files as [|f fs].
  { cbn [fst snd]. split; [intros e; split; [done|by intros (? & _ & ? & _)]|].
    split; [done|]. split; [|by split].
    intros code body [= <- <-]. split; [by right; left|].
    split; [split; [by right|done]|]. by split. }
  set (files := f :: fs).
  assert (form !! "task" = Some task) as Hform.
  { unfold given in Htask. destruct (form !! "task") as [s|]; [|done].
    destruct (Text.truthy s); congruence. }
  destruct (form_config form task) as [e|job_config] eqn:Hcfg.
  { cbn [fst snd]. split.
    - intros e'. split; [intros [= <-]; by exists task|].
      intros (task' & [= <-] & _ & He). congruence.
    - split; [done|]. split; [done|]. split; [|done].
      intros task' job_config [= <-] _ He. congruence. }
  pose proof (save_job_files_frame m task files job_config stamp) as Hframe.
  destruct (save_job_files m task files job_config stamp)
    as [mm [e|id]] eqn:Hsave; cbn [fst snd] in *.
  - pose proof (save_job_files_raises _ _ _ _ _ _ _ Hsave) as Hpend.
    destruct Hframe as (Hj & Hs & Hr & _ & Hd & _).
    split; [intros e'; split; [done|]; intros (task' & [= <-] & _ & He); congruence|].
    split; [done|]. split.
    { intros code body [= <- <-]. split; [by right; right|].
      split; [split; [done|by intros [?|?]]|]. by split. }
    split; [|done].
    intros task' job_config' [= <-] _ He. unfold save_job_files in Hsave. split.
    + intros Hempty. rewrite Hempty in Hsave. cbn in Hsave. by injection Hsave as <- <-.
    + intros Hne Hlive Hnone.
      assert (Text.truthy (sanitize task) = true) as Ht
        by (by destruct (sanitize task)).
      rewrite Ht in Hsave. cbn [negb] in Hsave.
      rewrite bool_decide_eq_true_2 in Hsave by done.
      rewrite bool_decide_eq_false_2 in Hsave by (rewrite Hnone; by intros [? ?]).
      cbn in Hsave. by injection Hsave as <- <-.
  - destruct (save_job_files_success _ _ _ _ _ _ _ Hsave)
      as (Hid & Hne & Hpend & _ & staged & Hst & _).
    destruct Hframe as (Hj & Hs & Hr & _ & Hd & _).
    split; [intros e'; split; [done|]; intros (task' & [= <-] & _ & He); congruence|].
    split; [done|]. split.
    { intros code body [= <- <-]. split; [by left|].
      split; [split; [done|by intros [?|?]]|]. split; [done|]. split; [|done].
      intros _. split; [done|]. split.
      - rewrite Hpend. apply elem_of_union. left. by apply elem_of_singleton.
      - split; [by rewrite Hst|]. by exists task. }
    split; [|done].
    intros task' job_config' [= <-] _ He. split.
    + intros Hempty. congruence.
    + intros _ Hlive Hnone. exfalso. unfold save_job_files in Hsave.
      destruct (negb _); [done|].
      rewrite bool_decide_eq_true_2 in Hsave by done.
      rewrite bool_decide_eq_false_2 in Hsave by (rewrite Hnone; by intros [? ?]).
      done.
Qed.



